(** * rockpi-penta: fan curve, button gestures, rate sampler, display timers

    A shallow embedding of the coordination core of the ROCK Pi Penta SATA
    HAT service ([misc.py], [fan.py], [oled.py]) together with the
    properties its specification states about it.

    Conventions of the embedding.
    - Python floats (temperatures, times, rates) are idealised as exact
      rationals [Q]; Python's numeric [==] is [Qeq].
    - Hardware and shell reads ([pin11.read()], [time.time()],
      [/sys/class/net/...]) are inputs of the functions that perform them.
    - A function that can raise returns a [result]; module-level dicts and
      default-argument caches are threaded as explicit state. *)

From Stdlib Require Import QArith Qround Lqa Lia ZArith Bool List Sorted Ascii String.
From stdpp Require Import base option list gmap strings.

Local Open Scope Q_scope.

(** ** Python helpers *)

Inductive exn :=
  | ZeroDivisionError
  | KeyError (key : string)
  | IndexError
  | OtherError (msg : string).

Inductive result (A : Type) :=
  | Ok (a : A)
  | Raise (e : exn).
Arguments Ok {A} a.
Arguments Raise {A} e.

(** [min(a, b)] and [max(a, b)]: the first argument wins a tie. *)
Definition py_min (a b : Q) : Q := if Qlt_le_dec b a then b else a.
Definition py_max (a b : Q) : Q := if Qlt_le_dec a b then b else a.

(** Truthiness of a number: [if x:] holds unless [x == 0]. *)
Definition truthy (x : Q) : bool := negb (Qeq_bool x 0).

(** [int(x)]: truncation toward zero. *)
Definition py_int (x : Q) : Z := Z.quot (Qnum x) (Zpos (Qden x)).

(** [a / b] on numbers. *)
Definition py_div (a b : Q) : result Q :=
  if Qeq_bool b 0 then Raise ZeroDivisionError else Ok (a / b).

(** ** misc.py: the fan curve *)

Module Misc.

(** Keys of [lv2dc], and of the [lv0]..[lv3] entries of [conf['fan']]. *)
Inductive level := lv3 | lv2 | lv1 | lv0.

(** [lv2dc = OrderedDict({'lv3': 100, 'lv2': 75, 'lv1': 50, 'lv0': 25})],
    kept as an association list in insertion order. *)
Definition lv2dc : list (level * Q) :=
  [(lv3, 100); (lv2, 75); (lv1, 50); (lv0, 25)].

(** [lv2dc[lv]]. *)
Definition lv2dc_get (lv : level) : Q :=
  match lv with lv3 => 100 | lv2 => 75 | lv1 => 50 | lv0 => 25 end.

(** [conf['fan']]. *)
Record fan_conf := {
  fan_lv0 : Q;
  fan_lv1 : Q;
  fan_lv2 : Q;
  fan_lv3 : Q;
  fan_linear : bool;
  fan_temp_disks : bool
}.

(** [conf['fan'][lv]]. *)
Definition conf_fan (c : fan_conf) (lv : level) : Q :=
  match lv with
  | lv3 => fan_lv3 c | lv2 => fan_lv2 c | lv1 => fan_lv1 c | lv0 => fan_lv0 c
  end.

(** The defaults of [read_conf]. *)
Definition default_fan_conf : fan_conf :=
  {| fan_lv0 := 35; fan_lv1 := 40; fan_lv2 := 45; fan_lv3 := 50;
     fan_linear := false; fan_temp_disks := false |}.

(** [for lv, dc in items: if temp >= conf['fan'][lv]: return dc]. *)
Fixpoint scan_levels (c : fan_conf) (temp : Q) (items : list (level * Q))
  : option Q :=
  match items with
  | [] => None
  | (lv, dc) :: rest =>
      if Qle_bool (conf_fan c lv) temp then Some dc
      else scan_levels c temp rest
  end.

(** The [slope] local of the linear branch. *)
Definition linear_slope (c : fan_conf) : Q :=
  let lv0_percent := lv2dc_get lv0 in
  let lv3_percent := lv2dc_get lv3 in
  let base_temp := conf_fan c lv0 in
  let denominator := conf_fan c lv3 - base_temp in
  if Qlt_le_dec 0 denominator
  then (lv3_percent - lv0_percent) / denominator
  else 1.

Definition fan_temp2dc (c : fan_conf) (temp : Q) : Q :=
  if fan_linear c then
    let lv0_percent := lv2dc_get lv0 in
    let lv3_percent := lv2dc_get lv3 in
    let base_temp := conf_fan c lv0 in
    let slope := linear_slope c in
    py_min lv3_percent (py_max (slope * (temp - base_temp) + lv0_percent) lv0_percent)
  else
    match scan_levels c temp lv2dc with
    | Some dc => dc
    | None => 10
    end.

(** ** misc.py: the button gesture recogniser *)

(** Compiled [re] patterns, over the characters of the window string. *)
Inductive regex :=
  | Rnone
  | Reps
  | Rchr (c : ascii)
  | Rcat (r1 r2 : regex)
  | Ralt (r1 r2 : regex)
  | Rstar (r : regex).

(** [r+] and [r{n,}]. *)
Definition Rplus (r : regex) : regex := Rcat r (Rstar r).

Fixpoint Ratleast (n : nat) (r : regex) : regex :=
  match n with
  | O => Rstar r
  | S n' => Rcat r (Ratleast n' r)
  end.

Fixpoint nullable (r : regex) : bool :=
  match r with
  | Rnone => false
  | Reps => true
  | Rchr _ => false
  | Rcat r1 r2 => nullable r1 && nullable r2
  | Ralt r1 r2 => nullable r1 || nullable r2
  | Rstar _ => true
  end.

(** The residual of [r] after reading [c]. *)
Fixpoint deriv (c : ascii) (r : regex) : regex :=
  match r with
  | Rnone => Rnone
  | Reps => Rnone
  | Rchr d => if Ascii.eqb c d then Reps else Rnone
  | Rcat r1 r2 =>
      if nullable r1
      then Ralt (Rcat (deriv c r1) r2) (deriv c r2)
      else Rcat (deriv c r1) r2
  | Ralt r1 r2 => Ralt (deriv c r1) (deriv c r2)
  | Rstar r1 => Rcat (deriv c r1) (Rstar r1)
  end.

(** [bool(p.match(s))]: [re.match] anchors at the start of [s] only, so it
    succeeds as soon as some prefix of [s] is in the language of [p]. *)
Fixpoint re_match (p : regex) (s : string) : bool :=
  nullable p ||
  match s with
  | EmptyString => false
  | String c s' => re_match (deriv c p) s'
  end.

(** Keys of the [pattern] dict of [watch_key]. *)
Inductive key := click | twice | press.

(** [conf['time']]. *)
Record time_conf := {
  time_twice : Q;
  time_press : Q
}.

Definition default_time_conf : time_conf :=
  {| time_twice := 7 # 10; time_press := 18 # 10 |}.

Definition one : regex := Rchr "1".
Definition zero : regex := Rchr "0".

(** The [pattern] dict of [watch_key], in insertion order:
    [click: 1+0+1{wait,}], [twice: 1+0+1+0+1{3,}], [press: 1+0{size,}]. *)
Definition pattern (size wait : nat) : list (key * regex) :=
  [ (click, Rcat (Rplus one) (Rcat (Rplus zero) (Ratleast wait one)));
    (twice, Rcat (Rplus one) (Rcat (Rplus zero)
              (Rcat (Rplus one) (Rcat (Rplus zero) (Ratleast 3 one)))));
    (press, Rcat (Rplus one) (Ratleast size zero)) ].

(** [pattern[k]]. *)
Definition pattern_of (size wait : nat) (k : key) : regex :=
  match k with
  | click => Rcat (Rplus one) (Rcat (Rplus zero) (Ratleast wait one))
  | twice => Rcat (Rplus one) (Rcat (Rplus zero)
               (Rcat (Rplus one) (Rcat (Rplus zero) (Ratleast 3 one))))
  | press => Rcat (Rplus one) (Ratleast size zero)
  end.

(** [s[n:]]. *)
Fixpoint string_drop (n : nat) (s : string) : string :=
  match n, s with
  | O, _ => s
  | S n', EmptyString => EmptyString
  | S n', String _ s' => string_drop n' s'
  end.

(** [s[-size:]] for [size >= 0]; Python reads [s[-0:]] as [s[0:]]. *)
Definition last_chars (size : nat) (s : string) : string :=
  match size with
  | O => s
  | S _ => string_drop (String.length s - size) s
  end.

(** [str(pin11.read())]. *)
Definition str_bit (b : bool) : string := if b then "1"%string else "0"%string.

(** [s = s[-size:] + str(pin11.read())]. *)
Definition next_window (size : nat) (s : string) (b : bool) : string :=
  (last_chars size s ++ str_bit b)%string.

(** [for t, p in pattern.items(): if p.match(s): return t]. *)
Fixpoint first_match (items : list (key * regex)) (s : string) : option key :=
  match items with
  | [] => None
  | (t, p) :: rest => if re_match p s then Some t else first_match rest s
  end.

(** The loop of [read_key], started with window [s], on the samples [pins]
    that [pin11.read()] returns one per 100 ms tick. [None]: the samples ran
    out with the loop still polling. *)
Fixpoint read_key_from (pat : list (key * regex)) (size : nat) (s : string)
    (pins : list bool) : option (key * list bool) :=
  match pins with
  | [] => None
  | b :: rest =>
      let s' := next_window size s b in
      match first_match pat s' with
      | Some t => Some (t, rest)
      | None => read_key_from pat size s' rest
      end
  end.

Definition read_key (pat : list (key * regex)) (size : nat) (pins : list bool)
  : option (key * list bool) :=
  read_key_from pat size EmptyString pins.

(** The windows [read_key] builds, one per sample, up to and including the
    one it returns on. *)
Fixpoint windows_from (pat : list (key * regex)) (size : nat) (s : string)
    (pins : list bool) : list string :=
  match pins with
  | [] => []
  | b :: rest =>
      let s' := next_window size s b in
      match first_match pat s' with
      | Some _ => [s']
      | None => s' :: windows_from pat size s' rest
      end
  end.

(** [size] and [wait] of [watch_key], for thresholds that are not negative. *)
Definition key_size (c : time_conf) : nat := Z.to_nat (py_int (time_press c * 10)).
Definition key_wait (c : time_conf) : nat := Z.to_nat (py_int (time_twice c * 10)).

(** [watch_key]: the actions put on [q] while the samples last. *)
Fixpoint watch_key_loop (fuel : nat) (pat : list (key * regex)) (size : nat)
    (pins : list bool) (q : list key) : list key :=
  match fuel with
  | O => q
  | S fuel' =>
      match read_key pat size pins with
      | Some (action, rest) => watch_key_loop fuel' pat size rest (q ++ [action])
      | None => q
      end
  end.

Definition watch_key (c : time_conf) (pins : list bool) (q : list key) : list key :=
  let size := key_size c in
  let wait := key_wait c in
  watch_key_loop (List.length pins) (pattern size wait) size pins q.

(** The samples written as a string of ['0'] and ['1'], oldest first. *)
Definition bits (s : string) : list bool :=
  map (fun c => Ascii.eqb c "1") (list_ascii_of_string s).


(** ** misc.py: the rate sampler *)

(** What [get_interface_io] and [get_disk_io] return:
    [{"rx": ..., "tx": ..., "time": time.time()}]. *)
Record sample := {
  raw_rx : Z;
  raw_tx : Z;
  raw_time : Q
}.

(** The module-level dicts of the sampler. A rate entry is the inner dict
    of a [defaultdict(dict)], with keys ["rx"] and ["tx"]. *)
Record io_state := {
  raw_interface_io : gmap string sample;
  raw_disk_io : gmap string sample;
  interface_io_rate : gmap string (gmap string Q);
  disk_io_rate : gmap string (gmap string Q);
  disk_sector_sizes : gmap string Z
}.

Definition empty_io : io_state :=
  {| raw_interface_io := ∅; raw_disk_io := ∅; interface_io_rate := ∅;
     disk_io_rate := ∅; disk_sector_sizes := ∅ |}.

(** State and exceptions: the state at a raise is the state reached so far. *)
Definition M (A : Type) : Type := io_state -> result A * io_state.

#[global] Instance M_ret : MRet M := fun A a s => (Ok a, s).

#[global] Instance M_bind : MBind M := fun A B f m s =>
  match m s with
  | (Ok a, s') => f a s'
  | (Raise e, s') => (Raise e, s')
  end.

Definition lift {A} (r : result A) : M A := fun s => (r, s).
Definition gets {A} (f : io_state -> A) : M A := fun s => (Ok (f s), s).
Definition modify (f : io_state -> io_state) : M unit := fun s => (Ok tt, f s).

(** [d[dev][k] = v] on a [defaultdict(dict)]. *)
Definition set_item (dev k : string) (v : Q) (d : gmap string (gmap string Q))
  : gmap string (gmap string Q) :=
  <[dev := <[k := v]> (default ∅ (d !! dev))]> d.

(** [d[dev]] on a [defaultdict(dict)] that already holds [dev]. *)
Definition get_item (dev : string) (d : gmap string (gmap string Q))
  : gmap string Q :=
  default ∅ (d !! dev).

Definition set_interface_rate (dev k : string) (v : Q) (s : io_state) : io_state :=
  {| raw_interface_io := raw_interface_io s;
     raw_disk_io := raw_disk_io s;
     interface_io_rate := set_item dev k v (interface_io_rate s);
     disk_io_rate := disk_io_rate s;
     disk_sector_sizes := disk_sector_sizes s |}.

Definition set_disk_rate (dev k : string) (v : Q) (s : io_state) : io_state :=
  {| raw_interface_io := raw_interface_io s;
     raw_disk_io := raw_disk_io s;
     interface_io_rate := interface_io_rate s;
     disk_io_rate := set_item dev k v (disk_io_rate s);
     disk_sector_sizes := disk_sector_sizes s |}.

Definition set_raw_interface (dev : string) (raw : sample) (s : io_state) : io_state :=
  {| raw_interface_io := <[dev := raw]> (raw_interface_io s);
     raw_disk_io := raw_disk_io s;
     interface_io_rate := interface_io_rate s;
     disk_io_rate := disk_io_rate s;
     disk_sector_sizes := disk_sector_sizes s |}.

Definition set_raw_disk (dev : string) (raw : sample) (s : io_state) : io_state :=
  {| raw_interface_io := raw_interface_io s;
     raw_disk_io := <[dev := raw]> (raw_disk_io s);
     interface_io_rate := interface_io_rate s;
     disk_io_rate := disk_io_rate s;
     disk_sector_sizes := disk_sector_sizes s |}.

Definition set_sector_size (dev : string) (n : Z) (s : io_state) : io_state :=
  {| raw_interface_io := raw_interface_io s;
     raw_disk_io := raw_disk_io s;
     interface_io_rate := interface_io_rate s;
     disk_io_rate := disk_io_rate s;
     disk_sector_sizes := <[dev := n]> (disk_sector_sizes s) |}.

(** [get_interface_io_rate(interface)], where [raw] is what
    [get_interface_io(interface)] reads. *)
Definition get_interface_io_rate (interface : string) (raw : sample)
  : M (gmap string Q) :=
  prev ← gets (fun s => raw_interface_io s !! interface);
  match prev with
  | Some p =>
      let duration := raw_time raw - raw_time p in
      rx ← lift (py_div (inject_Z (raw_rx raw - raw_rx p)) duration);
      modify (set_interface_rate interface "rx" (rx / 1024 / 1024));;
      tx ← lift (py_div (inject_Z (raw_tx raw - raw_tx p)) duration);
      modify (set_interface_rate interface "tx" (tx / 1024 / 1024))
  | None =>
      modify (set_interface_rate interface "rx" 0);;
      modify (set_interface_rate interface "tx" 0)
  end;;
  modify (set_raw_interface interface raw);;
  gets (fun s => get_item interface (interface_io_rate s)).

(** [c.isdigit()] on the characters of a device name. *)
Definition is_digit (c : ascii) : bool :=
  let n := nat_of_ascii c in (48 <=? n)%nat && (n <=? 57)%nat.

(** [s[-1].isdigit()]. *)
Fixpoint last_is_digit (s : string) : bool :=
  match s with
  | EmptyString => false
  | String c EmptyString => is_digit c
  | String _ s' => last_is_digit s'
  end.

(** [s[:-1]]. *)
Fixpoint drop_last (s : string) : string :=
  match s with
  | EmptyString => EmptyString
  | String _ EmptyString => EmptyString
  | String c s' => String c (drop_last s')
  end.

(** ["sd" in disk]. *)
Definition has_sd (disk : string) : bool :=
  match index 0 "sd" disk with Some _ => true | None => false end.

Fixpoint strip_partition (fuel : nat) (disk : string) : string :=
  match fuel with
  | O => disk
  | S fuel' =>
      if has_sd disk && last_is_digit disk
      then strip_partition fuel' (drop_last disk)
      else disk
  end.

(** [while "sd" in disk and disk[-1].isdigit(): disk = disk[:-1]]. *)
Definition delete_disk_partition_number (disk : string) : string :=
  strip_partition (String.length disk) disk.

(** [get_disk_io_rate(disk)], where [hw_sector_size] is what
    [/sys/block/<disk>/queue/hw_sector_size] holds and [raw] what
    [get_disk_io(disk)] reads. *)
Definition get_disk_io_rate (disk0 : string) (hw_sector_size : Z) (raw : sample)
  : M (gmap string Q) :=
  let disk := delete_disk_partition_number disk0 in
  known ← gets (fun s => disk_sector_sizes s !! disk);
  match known with
  | None => modify (set_sector_size disk hw_sector_size)
  | Some _ => mret tt
  end;;
  prev ← gets (fun s => raw_disk_io s !! disk);
  match prev with
  | Some p =>
      let duration := raw_time raw - raw_time p in
      size ← gets (fun s => default 0%Z (disk_sector_sizes s !! disk));
      rx ← lift (py_div (inject_Z (raw_rx raw - raw_rx p)) duration);
      per ← lift (py_div 1024 (inject_Z size));
      rx' ← lift (py_div rx per);
      modify (set_disk_rate disk "rx" (rx' / 1024));;
      tx ← lift (py_div (inject_Z (raw_tx raw - raw_tx p)) duration);
      per ← lift (py_div 1024 (inject_Z size));
      tx' ← lift (py_div tx per);
      modify (set_disk_rate disk "tx" (tx' / 1024))
  | None =>
      modify (set_disk_rate disk "rx" 0);;
      modify (set_disk_rate disk "tx" 0)
  end;;
  modify (set_raw_disk disk raw);;
  gets (fun s => get_item disk (disk_io_rate s)).

(** ** misc.py: pools *)

(** The module-level dicts of the pool sampler. *)
Record zpool_state := {
  raw_zpool_io : gmap string sample;
  zpool_io_rate : gmap string (gmap string Q)
}.

Definition empty_zpool : zpool_state :=
  {| raw_zpool_io := ∅; zpool_io_rate := ∅ |}.

(** [get_zpool_io(zpool, interval, skip=skip)], where [uptime] is the first
    field of [/proc/uptime] and [rx], [tx] are columns 5 and 6 of what
    [zpool iostat] prints for the command built. *)
Definition get_zpool_io (interval : Q) (skip : bool) (uptime : Q) (rx tx : Z)
  : sample :=
  let interval := if skip then uptime else interval in
  {| raw_rx := rx; raw_tx := tx; raw_time := interval |}.

Definition set_zpool_rate (dev k : string) (v : Q) (z : zpool_state) : zpool_state :=
  {| raw_zpool_io := raw_zpool_io z;
     zpool_io_rate := set_item dev k v (zpool_io_rate z) |}.

Definition set_raw_zpool (dev : string) (raw : sample) (z : zpool_state) : zpool_state :=
  {| raw_zpool_io := <[dev := raw]> (raw_zpool_io z);
     zpool_io_rate := zpool_io_rate z |}.

(** [get_zpool_io_rate(zpool, skip)], with [refresh] what
    [get_refresh_period()] returns. *)
Definition get_zpool_io_rate (refresh : Q) (zpool : string) (skip : bool)
    (uptime : Q) (rx tx : Z) (z : zpool_state)
  : result (gmap string Q) * zpool_state :=
  let duration := refresh in
  let raw := get_zpool_io duration skip uptime rx tx in
  let '(r, z1) :=
    match raw_zpool_io z !! zpool with
    | Some _ =>
        match py_div (inject_Z (raw_rx raw)) (raw_time raw) with
        | Raise e => (Raise e, z)
        | Ok a =>
            let z' := set_zpool_rate zpool "rx" (a / 1024 / 1024) z in
            match py_div (inject_Z (raw_tx raw)) (raw_time raw) with
            | Raise e => (Raise e, z')
            | Ok b => (Ok tt, set_zpool_rate zpool "tx" (b / 1024 / 1024) z')
            end
        end
    | None =>
        (Ok tt, set_zpool_rate zpool "tx" 0 (set_zpool_rate zpool "rx" 0 z))
    end in
  match r with
  | Raise e => (Raise e, z1)
  | Ok _ =>
      let z2 := set_raw_zpool zpool raw z1 in
      (Ok (get_item zpool (zpool_io_rate z2)), z2)
  end.

(** ** misc.py: the disk usage cache *)

(** The [cache={}] default argument of [get_disk_used_info]: keys ['time']
    and ['info']. *)
Record used_cache (A : Type) := {
  used_time : option Q;
  used_info : option A
}.
Arguments used_time {A} _.
Arguments used_info {A} _.

(** [get_disk_used_info()]: [now_check] and [now_store] are the readings of
    [time.time()] in the test and in the store, [fresh] is the list the
    shell queries build. The boolean tells whether the queries ran. *)
Definition get_disk_used_info {A} (now_check now_store : Q) (fresh : A)
    (cache : used_cache A) : result A * used_cache A * bool :=
  let stale :=
    match used_time cache with
    | None => true
    | Some t => negb (truthy t) || (if Qlt_le_dec 30 (now_check - t) then true else false)
    end in
  let cache' := if stale
                then {| used_time := Some now_store; used_info := Some fresh |}
                else cache in
  match used_info cache' with
  | Some info => (Ok info, cache', stale)
  | None => (Raise (KeyError "info"), cache', stale)
  end.

(** ** misc.py: the disk temperatures *)

(** [d[k] = v] on a dict kept as the list of its items, in insertion
    order. *)
Fixpoint dict_set (k v : string) (d : list (string * string))
  : list (string * string) :=
  match d with
  | [] => [(k, v)]
  | (k', v') :: d' =>
      if String.eqb k k' then (k, v) :: d' else (k', v') :: dict_set k v d'
  end.

(** The [for disk in disks] loop of [get_disk_temp_info]. Each disk comes
    with what [float(cmd_output)] gives for its smartctl line ([None]: it
    raised); [fmt] stands for the two format strings, chosen by
    [is_temp_farenheit()]. The accumulator holds [disk_temp_average] and
    [disks_temp]. *)
Fixpoint poll_disks (farenheit : bool) (fmt : bool -> Q -> string)
    (disks : list (string * option Q)) (acc : Q * list (string * string))
  : Q * list (string * string) :=
  match disks with
  | [] => acc
  | (disk, output) :: rest =>
      let '(total, disks_temp) := acc in
      if String.eqb disk "" then
        poll_disks farenheit fmt rest (total, dict_set "" "" disks_temp)
      else
        match output with
        | Some t =>
            let disk_temp := if farenheit then t * (18 # 10) + 32 else t in
            poll_disks farenheit fmt rest
              (total + disk_temp,
               dict_set disk (fmt farenheit disk_temp) disks_temp)
        | None =>
            poll_disks farenheit fmt rest (total, dict_set disk "----" disks_temp)
        end
  end.

(** [get_disk_temp_info()], on the sorted lines [disks] of the [lsblk]
    query: the average stored in [conf['disk_temp_average']] and the items
    of [disks_temp] that the function zips into its result. *)
Definition get_disk_temp_info (farenheit : bool) (fmt : bool -> Q -> string)
    (disks : list (string * option Q)) : result (Q * list (string * string)) :=
  let '(total, disks_temp) := poll_disks farenheit fmt disks (0, []) in
  match py_div total (inject_Z (Z.of_nat (List.length disks_temp))) with
  | Ok average => Ok (average, disks_temp)
  | Raise e => Raise e
  end.

End Misc.

(** ** fan.py *)

Module Fan.
Import Misc.

(** What one [get_dc()] call reads from outside: [misc.fan_running()], the
    two [time.time()] readings (the test, then the store) and
    [read_cpu_temp()]. *)
Record poll := {
  fan_running : bool;
  now_check : Q;
  now_store : Q;
  cpu_temp : Q
}.

(** The [cache={}] default argument of [get_dc]: keys ['time'] and ['dc']. *)
Record dc_cache := {
  cache_time : option Q;
  cache_dc : option Q
}.

Definition empty_cache : dc_cache := {| cache_time := None; cache_dc := None |}.

(** What the loop does to the outside: a duty cycle computed from the
    temperature (with the clock reading of the test and the one stored) and
    a write to [pin13]. *)
Inductive event :=
  | Computed (checked stored : Q) (dc : Q)
  | Written (ratio : Q).

Definition get_dc (c : fan_conf) (i : poll) (cache : dc_cache)
  : result Q * dc_cache * list event :=
  if negb (fan_running i) then (Ok (1 # 10), cache, [])
  else
    let '(cache', evs) :=
      if Qlt_le_dec 5 (now_check i - default 0 (cache_time cache)) then
        let dc := fan_temp2dc c (cpu_temp i) in
        ({| cache_time := Some (now_store i); cache_dc := Some dc |},
         [Computed (now_check i) (now_store i) dc])
      else (cache, []) in
    match cache_dc cache' with
    | Some dc => (Ok dc, cache', evs)
    | None => (Raise (KeyError "dc"), cache', evs)
    end.

(** [dc != cache.get('dc')], with [None] different from every number. *)
Definition differs (dc : Q) (last : option Q) : bool :=
  match last with
  | Some d => negb (Qeq_bool dc d)
  | None => true
  end.

(** [change_dc(dc)]; its [cache] holds the single key ['dc']. *)
Definition change_dc (dc : Q) (last : option Q) : option Q * list event :=
  if differs dc last then (Some dc, [Written (1 - dc / 100)])
  else (last, []).

Record fan_state := {
  get_cache : dc_cache;
  change_cache : option Q
}.

Definition fan_init : fan_state :=
  {| get_cache := empty_cache; change_cache := None |}.

(** One [change_dc(get_dc())]. *)
Definition tick (c : fan_conf) (i : poll) (st : fan_state)
  : result unit * fan_state * list event :=
  match get_dc c i (get_cache st) with
  | (Ok dc, cache', evs) =>
      let '(last', evs') := change_dc dc (change_cache st) in
      (Ok tt, {| get_cache := cache'; change_cache := last' |}, evs ++ evs')
  | (Raise e, cache', evs) =>
      (Raise e, {| get_cache := cache'; change_cache := change_cache st |}, evs)
  end.

(** [running()], one iteration per element of [polls]: the state and the
    events when the polls run out, or when an exception ends the loop. *)
Fixpoint running (c : fan_conf) (polls : list poll) (st : fan_state)
  : result unit * fan_state * list event :=
  match polls with
  | [] => (Ok tt, st, [])
  | i :: rest =>
      match tick c i st with
      | (Ok _, st', evs) =>
          let '(r, st'', evs') := running c rest st' in
          (r, st'', evs ++ evs')
      | (Raise e, st', evs) => (Raise e, st', evs)
      end
  end.

(** [MockPwm.write(dc)]: the value [misc.set_mode(self.pin, not bool(dc))]
    writes to GPIO pin 13. *)
Definition MockPwm_write (dc : Q) : bool := negb (truthy dc).

(** What [read_cpu_temp()] reads: the number in
    [/sys/class/thermal/thermal_zone0/temp], [conf['oled']['f-temp']], the
    clock, the time of the last disk poll, the poll delay, the stored
    average of the disk temperatures and the average a poll made now would
    store. *)
Record temp_env := {
  thermal_zone0 : Q;
  f_temp : bool;
  temp_now : Q;
  last_disk_temp_poll : Q;
  fan_poll_delay : Q;
  disk_temp_average : Q;
  disk_temp_polled : Q
}.

(** [read_cpu_temp()]; the boolean tells whether the disks were polled. *)
Definition read_cpu_temp (c : fan_conf) (e : temp_env) : Q * bool :=
  let t_cpu := thermal_zone0 e / 1000 in
  let t_cpu := if f_temp e then t_cpu * (18 # 10) + 32 else t_cpu in
  let '(t_disk, polled) :=
    if fan_temp_disks c then
      if Qlt_le_dec (last_disk_temp_poll e + fan_poll_delay e) (temp_now e)
      then (disk_temp_polled e, true)
      else (disk_temp_average e, false)
    else (0, false) in
  (py_max t_cpu t_disk, polled).

End Fan.

(** ** oled.py *)

Module Oled.
Import Misc.

(** [conf['slider']]: [auto], [time] and [refresh]. *)
Record slider_conf := {
  slider_auto : bool;
  slider_time : Q;
  slider_refresh : Q
}.

Definition default_slider_conf : slider_conf :=
  {| slider_auto := true; slider_time := 10; slider_refresh := 0 |}.

Definition get_slider_sleep_duration (c : slider_conf) : Q := slider_time c.
Definition get_refresh_period (c : slider_conf) : Q := slider_refresh c.

(** What the three display processes share: the wall clock, the manager
    lists [next_time] and [refresh_time], and [display_queue] (oldest
    message first). *)
Record shared := {
  clock : Q;
  next_time : Q;
  refresh_time : Q;
  display_queue : list bool
}.

Definition set_next_time (t : Q) (w : shared) : shared :=
  {| clock := clock w; next_time := t; refresh_time := refresh_time w;
     display_queue := display_queue w |}.

Definition set_refresh_time (t : Q) (w : shared) : shared :=
  {| clock := clock w; next_time := next_time w; refresh_time := t;
     display_queue := display_queue w |}.

(** [display_queue.put(m)]. *)
Definition put (m : bool) (w : shared) : shared :=
  {| clock := clock w; next_time := next_time w; refresh_time := refresh_time w;
     display_queue := display_queue w ++ [m] |}.

(** [time.sleep(d)]: the only thing that moves the clock. *)
Definition sleep (d : Q) (w : shared) : shared :=
  {| clock := clock w + d; next_time := next_time w;
     refresh_time := refresh_time w; display_queue := display_queue w |}.

(** How a loop run with bounded fuel ended. *)
Inductive outcome := Returned | Looping.

(** [while time.time() < next_time[0]: time.sleep(0.1)]. *)
Fixpoint wait_next (fuel : nat) (w : shared) : option shared :=
  match fuel with
  | O => None
  | S fuel' =>
      if Qlt_le_dec (clock w) (next_time w)
      then wait_next fuel' (sleep (1 # 10) w)
      else Some w
  end.

(** The [while misc.conf['slider']['auto']] loop of [auto_slider]. *)
Fixpoint auto_slider_loop (fuel : nat) (c : slider_conf) (w : shared)
  : outcome * shared :=
  match fuel with
  | O => (Looping, w)
  | S fuel' =>
      if slider_auto c then
        let duration := get_slider_sleep_duration c in
        if truthy duration then
          let w1 := set_next_time (clock w + duration) w in
          match wait_next fuel' w1 with
          | Some w2 => auto_slider_loop fuel' c (put true w2)
          | None => (Looping, w1)
          end
        else auto_slider_loop fuel' c (sleep (1 # 10) w)
      else (Returned, w)
  end.

(** [auto_slider(display_queue)]: the deadline ten seconds ahead, the
    initial message, then the loop. *)
Definition auto_slider (fuel : nat) (c : slider_conf) (w : shared)
  : outcome * shared :=
  let w1 := set_next_time (clock w + 10) w in
  let w2 := put true w1 in
  auto_slider_loop fuel c w2.

(** [refresh_display(display_queue)]. *)
Fixpoint refresh_display (fuel : nat) (c : slider_conf) (w : shared)
  : outcome * shared :=
  match fuel with
  | O => (Looping, w)
  | S fuel' =>
      if truthy (get_refresh_period c) then
        let w1 :=
          if Qlt_le_dec (refresh_time w) (clock w)
          then put false (set_refresh_time (clock w + get_refresh_period c) w)
          else w in
        refresh_display fuel' c (sleep (1 # 10) w1)
      else (Returned, w)
  end.

(** The page objects the factories build. *)
Inductive page :=
  | General_system_info_page0
  | General_system_info_page1
  | Disk_info_page
  | Interface_io_page (interface_name : string)
  | DiskIOPage (disk_name : string) (zpool : bool)
  | Disk_temp_info_page.

(** What the page factories read: [misc.get_interface_list()],
    [misc.get_disk_list('io_usage_mnt_points')], the keys of
    [misc.get_zpools()], [conf['disk']['zfs']] and [conf['disk']['disks_temp']]. *)
Record page_env := {
  interfaces : list string;
  disks : list string;
  zpools : list string;
  zfs : bool;
  disks_temp : bool
}.

(** The lists of the six [page_factory] calls, one after the other. *)
Definition gen_display_pages_list (e : page_env) : list page :=
  [General_system_info_page0] ++ [General_system_info_page1] ++ [Disk_info_page]
  ++ map Interface_io_page (interfaces e)
  ++ (let zs := if zfs e then zpools e else [] in
      map (fun d => DiskIOPage (delete_disk_partition_number d) false) (disks e)
      ++ map (fun z => DiskIOPage z true) zs)
  ++ (if disks_temp e then [Disk_temp_info_page] else []).

(** One entry of a page's text: the keyword arguments of [draw.text]. *)
Record item := {
  xy : Z * Z;
  text : string;
  fill : Z;
  font : string
}.

(** The panel: the off-screen [image] that [draw.text] writes on, the
    frames [disp.display()] has pushed to the device (oldest first) and
    what was printed to the log. *)
Record panel := {
  image : list item;
  frames : list (list item);
  printed : list exn
}.

Definition blank : panel := {| image := []; frames := []; printed := [] |}.

(** [draw.text] with the keyword arguments of [i]. *)
Definition draw_text (i : item) (p : panel) : panel :=
  {| image := image p ++ [i]; frames := frames p; printed := printed p |}.

(** [print(ex)]. *)
Definition print (ex : exn) (p : panel) : panel :=
  {| image := image p; frames := frames p; printed := printed p ++ [ex] |}.

(** [disp_show()]: push the image to the device, then clear the image. *)
Definition disp_show (p : panel) : panel :=
  {| image := []; frames := frames p ++ [image p]; printed := printed p |}.

(** The locals of [display_process]. *)
Record consumer := {
  last_page : option page;
  display_list : list page
}.

Definition consumer_init : consumer :=
  {| last_page := None; display_list := [] |}.

(** The [try: ... except Exception as ex: print(ex)] block, followed by
    [disp_show()]. [texts] is what [get_page_text(action)] did. *)
Definition render (texts : result (list item)) (p : panel) : panel :=
  let p1 :=
    match texts with
    | Ok items => fold_left (fun acc i => draw_text i acc) items p
    | Raise ex => print ex p
    end in
  disp_show p1.

(** [if not len(display_list): display_list += gen_display_pages_list()]. *)
Definition refill (e : page_env) (k : consumer) : list page :=
  match display_list k with
  | [] => gen_display_pages_list e
  | _ => display_list k
  end.

(** [display_list[0] if action else last_page[0]]. *)
Definition select (action : bool) (dl : list page) (k : consumer)
  : result (option page) :=
  if action
  then match dl with
       | [] => Raise IndexError
       | pg :: _ => Ok (Some pg)
       end
  else Ok (last_page k).

(** The body of the [while True] loop of [display_process] for the message
    [action], under [display_lock]. [get_page_text] is what the page's text
    generation does when called now. *)
Definition display_step (c : slider_conf) (e : page_env)
    (get_page_text : page -> bool -> result (list item)) (action : bool)
    (st : consumer * shared * panel) : result unit * (consumer * shared * panel) :=
  let '(k, w, p) := st in
  let dl := refill e k in
  let w1 := if action
            then set_next_time (clock w + get_slider_sleep_duration c) w
            else w in
  let w2 := set_refresh_time (clock w1 + get_refresh_period c) w1 in
  match select action dl k with
  | Raise ex => (Raise ex, ({| last_page := last_page k; display_list := dl |}, w2, p))
  | Ok lp =>
      let p1 := match lp with
                | Some pg => render (get_page_text pg action) p
                | None => p
                end in
      let dl1 := if action then tl dl else dl in
      (Ok tt, ({| last_page := lp; display_list := dl1 |}, w2, p1))
  end.

(** What is left of the shared state once [display_queue.get()] has taken
    the oldest message. *)
Definition set_queue (q : list bool) (w : shared) : shared :=
  {| clock := clock w; next_time := next_time w;
     refresh_time := refresh_time w; display_queue := q |}.

(** [display_queue.get()] on a queue that is not empty. *)
Definition take_message (w : shared) : option (bool * shared) :=
  match display_queue w with
  | [] => None
  | m :: q => Some (m, set_queue q w)
  end.

(** The loop of [display_process] on the messages already queued; it ends
    here when the queue is empty (the consumer blocks in [get]) or when an
    exception leaves the loop. *)
Fixpoint display_process (fuel : nat) (c : slider_conf) (e : page_env)
    (get_page_text : page -> bool -> result (list item))
    (st : consumer * shared * panel) : result unit * (consumer * shared * panel) :=
  match fuel with
  | O => (Ok tt, st)
  | S fuel' =>
      let '(k, w, p) := st in
      match take_message w with
      | None => (Ok tt, st)
      | Some (action, w') =>
          match display_step c e get_page_text action (k, w', p) with
          | (Ok _, st') => display_process fuel' c e get_page_text st'
          | (Raise ex, st') => (Raise ex, st')
          end
      end
  end.

(** [welcome()], as far as the panel goes. *)
Definition welcome (p : panel) : panel :=
  disp_show
    (draw_text {| xy := (32, 16)%Z; text := "Loading..."; fill := 255%Z; font := "12" |}
       (draw_text {| xy := (0, 0)%Z; text := "ROCKPi PENTA HAT"; fill := 255%Z;
                     font := "13" |} p)).

(** [goodbye()], as far as the panel goes: the banner, then a clear. *)
Definition goodbye (p : panel) : panel :=
  disp_show
    (disp_show
       (draw_text {| xy := (32, 8)%Z; text := "Good Bye ~"; fill := 255%Z;
                     font := "14" |} p)).

(** The three lines every page returns, in font 11. *)
Definition three_lines (text1 text2 text3 : string) : list item :=
  [ {| xy := (0, -2)%Z; text := text1; fill := 255%Z; font := "11" |};
    {| xy := (0, 10)%Z; text := text2; fill := 255%Z; font := "11" |};
    {| xy := (0, 21)%Z; text := text3; fill := 255%Z; font := "11" |} ].

(** [f'{k} {v}'] and [f'{k1} {v1}  {k2} {v2}']. *)
Definition pair_text (e : string * string) : string :=
  (fst e ++ " " ++ snd e)%string.
Definition two_pairs (e1 e2 : string * string) : string :=
  (pair_text e1 ++ "  " ++ pair_text e2)%string.

(** [Disk_info_page.get_page_text]: [info] holds the items of the dict that
    [misc.get_disk_used_info()] zips into [k] and [v]. *)
Definition disk_info_text (info : list (string * string)) : result (list item) :=
  match info with
  | [] => Raise (OtherError "not enough values to unpack")
  | e0 :: rest =>
      let text1 := ("Disk: " ++ pair_text e0)%string in
      match rest with
      | e1 :: e2 :: e3 :: e4 :: _ =>
          Ok (three_lines text1 (two_pairs e1 e2) (two_pairs e3 e4))
      | [e1; e2; e3] => Ok (three_lines text1 (two_pairs e1 e2) (pair_text e3))
      | [e1; e2] => Ok (three_lines text1 (two_pairs e1 e2) "")
      | [e1] => Ok (three_lines text1 (pair_text e1) "")
      | [] => Ok (three_lines text1 "" "")
      end
  end.

(** [Disk_temp_info_page.get_page_text]: [temps] holds the items of the
    dict that [misc.get_disk_temp_info()] zips into [k] and [v]. *)
Definition disk_temp_text (temps : list (string * string)) : result (list item) :=
  match temps with
  | [] => Raise (OtherError "not enough values to unpack")
  | e0 :: e1 :: e2 :: e3 :: _ =>
      Ok (three_lines "Disk Temps:" (two_pairs e0 e1) (two_pairs e2 e3))
  | [e0; e1; e2] => Ok (three_lines "Disk Temps:" (two_pairs e0 e1) (pair_text e2))
  | [e0; e1] => Ok (three_lines "Disk Temps:" (two_pairs e0 e1) "")
  | [e0] => Ok (three_lines "Disk Temps:" (pair_text e0) "")
  end.

End Oled.

(** ** Vocabulary of the statements *)

(** The percents of an association list fall along the scan. *)
Definition falling (items : list (Misc.level * Q)) : Prop :=
  StronglySorted (fun a b => snd b <= snd a) items.

(** What the step branch of [fan_temp2dc] returns for the scan of [items]. *)
Definition scanned (c : Misc.fan_conf) (t : Q) (items : list (Misc.level * Q)) : Q :=
  match Misc.scan_levels c t items with Some dc => dc | None => 10 end.

(** Position of a level on the curve: [lv0] lowest, [lv3] highest. *)
Definition rank (lv : Misc.level) : nat :=
  match lv with Misc.lv0 => 0 | Misc.lv1 => 1 | Misc.lv2 => 2 | Misc.lv3 => 3 end.

(** The default levels with the linear curve switched on. *)
Definition linear_conf : Misc.fan_conf :=
  {| Misc.fan_lv0 := 35; Misc.fan_lv1 := 40; Misc.fan_lv2 := 45; Misc.fan_lv3 := 50;
     Misc.fan_linear := true; Misc.fan_temp_disks := false |}.

(** A linear configuration with lv3 not above lv0. *)
Definition flat_conf : Misc.fan_conf :=
  {| Misc.fan_lv0 := 40; Misc.fan_lv1 := 40; Misc.fan_lv2 := 40; Misc.fan_lv3 := 40;
     Misc.fan_linear := true; Misc.fan_temp_disks := false |}.

(** The duty cycles computed in a run, oldest first: for each the clock
    reading of the test and the reading stored as its time stamp. *)
Definition computations (evs : list Fan.event) : list (Q * Q) :=
  flat_map (fun ev => match ev with
                      | Fan.Computed ch st _ => [(ch, st)]
                      | Fan.Written _ => []
                      end) evs.

(** Their time stamps. *)
Definition stamps (evs : list Fan.event) : list Q := map snd (computations evs).

(** The off ratios written to the PWM pin in a run, oldest first. *)
Definition written (evs : list Fan.event) : list Q :=
  flat_map (fun ev => match ev with Fan.Computed _ _ _ => [] | Fan.Written r => [r] end) evs.

(** The off ratio [change_dc] writes for the duty cycle [dc]. *)
Definition off_ratio (dc : Q) : Q := 1 - dc / 100.

(** Each computation is tested more than 5 seconds after the stamp of the
    one before it, the first one after [last]. *)
Fixpoint rate_limited (last : Q) (l : list (Q * Q)) : Prop :=
  match l with
  | [] => True
  | (ch, st) :: l' => 5 < ch - last /\ rate_limited st l'
  end.

(** Each stamp is more than 5 seconds after the one before it, the first
    one after [last]. *)
Fixpoint spaced (last : Q) (l : list Q) : Prop :=
  match l with
  | [] => True
  | t :: l' => 5 < t - last /\ spaced t l'
  end.

(** Each value differs from the one before it, the first one from [last]. *)
Fixpoint changing (last : option Q) (l : list Q) : Prop :=
  match l with
  | [] => True
  | r :: l' =>
      match last with Some r0 => ~ r == r0 | None => True end
      /\ changing (Some r) l'
  end.

(** A poll that finds the fan on, [t] seconds after the epoch, both clock
    readings equal, at temperature [temp]. *)
Definition poll_at (t temp : Q) : Fan.poll :=
  {| Fan.fan_running := true; Fan.now_check := t; Fan.now_store := t;
     Fan.cpu_temp := temp |}.

(** Six polls within ten seconds, the temperature rising across the levels. *)
Definition demo_polls : list Fan.poll :=
  [poll_at 1000 30; poll_at 1001 52; poll_at 1004 52; poll_at 1006 52;
   poll_at 1007 30; poll_at 1012 52].

(** [D / E / (1024 * 1024)]: a counter delta over an elapsed time, in MB/s. *)
Definition mb_per_s (delta : Z) (elapsed : Q) : Q :=
  inject_Z delta / elapsed / (1024 * 1024).

(** Two samples of a network interface, two seconds apart. *)
Definition sample_a : Misc.sample :=
  {| Misc.raw_rx := 1000; Misc.raw_tx := 500; Misc.raw_time := 100 |}.
Definition sample_b : Misc.sample :=
  {| Misc.raw_rx := 1000 + 2097152; Misc.raw_tx := 500 + 1048576; Misc.raw_time := 102 |}.

(** The sampler after the first sample of eth0, and after the second. *)
Definition io_a : Misc.io_state :=
  snd (Misc.get_interface_io_rate "eth0" sample_a Misc.empty_io).
Definition io_b : Misc.io_state :=
  snd (Misc.get_interface_io_rate "eth0" sample_b io_a).

(** The sampler after the first sample of the disk sda (512-byte sectors),
    and after the second. *)
Definition disk_a : Misc.io_state :=
  snd (Misc.get_disk_io_rate "sda1" 512 sample_a Misc.empty_io).
Definition disk_b : Misc.io_state :=
  snd (Misc.get_disk_io_rate "sda1" 512 sample_b disk_a).

(** The sampler once [get_disk_io_rate] has resolved the sector size of
    [disk]: read from the system only when not yet cached. *)
Definition with_sector_size (disk : string) (hw_sector_size : Z) (s : Misc.io_state)
  : Misc.io_state :=
  match Misc.disk_sector_sizes s !! disk with
  | None => Misc.set_sector_size disk hw_sector_size s
  | Some _ => s
  end.

(** The sector size [get_disk_io_rate] then works with. *)
Definition sector_size_of (disk : string) (hw_sector_size : Z) (s : Misc.io_state) : Z :=
  default hw_sector_size (Misc.disk_sector_sizes s !! disk).

(** A sample taken at the clock reading of [sample_a], the counters moved. *)
Definition sample_a' : Misc.sample :=
  {| Misc.raw_rx := 2000; Misc.raw_tx := 900; Misc.raw_time := 100 |}.

(** A sample whose clock reading is one second before that of [sample_b]. *)
Definition sample_early : Misc.sample :=
  {| Misc.raw_rx := 1000 + 2 * 2097152; Misc.raw_tx := 500 + 1048576; Misc.raw_time := 101 |}.

(** [d[dev][k]] on a dict of rates, when both keys are there. *)
Definition rate_of (d : gmap string (gmap string Q)) (dev k : string) : option Q :=
  d !! dev ≫= (fun inner => inner !! k).

(** [k] times [time.sleep(0.1)]. *)
Fixpoint sleeps (k : nat) (w : Oled.shared) : Oled.shared :=
  match k with
  | O => w
  | S k' => sleeps k' (Oled.sleep (1 # 10) w)
  end.

(** The number of 0.1 s sleeps that cover the duration [d]. *)
Definition ticks (d : Q) : nat := Z.to_nat (Qceiling (d * 10)).

(** One round of the auto-slider: set the deadline, sleep up to it, put
    [True]. *)
Definition slider_round (c : Oled.slider_conf) (w : Oled.shared) : Oled.shared :=
  Oled.put true
    (sleeps (ticks (Oled.slider_time c))
       (Oled.set_next_time (Oled.clock w + Oled.slider_time c) w)).

Fixpoint slider_rounds (n : nat) (c : Oled.slider_conf) (w : Oled.shared)
  : Oled.shared :=
  match n with
  | O => w
  | S n' => slider_rounds n' c (slider_round c w)
  end.

(** The shared state at start-up, [t] seconds after the epoch. *)
Definition shared_at (t : Q) : Oled.shared :=
  {| Oled.clock := t; Oled.next_time := t; Oled.refresh_time := t;
     Oled.display_queue := [] |}.

(** The defaults with the auto-slider switched off. *)
Definition manual_conf : Oled.slider_conf :=
  {| Oled.slider_auto := false; Oled.slider_time := 10; Oled.slider_refresh := 0 |}.

(** A slider period of a quarter of a second, for short runs. *)
Definition quick_conf : Oled.slider_conf :=
  {| Oled.slider_auto := true; Oled.slider_time := 1 # 4; Oled.slider_refresh := 0 |}.

(** A board with no monitored interface, disk or pool. *)
Definition bare_env : Oled.page_env :=
  {| Oled.interfaces := []; Oled.disks := []; Oled.zpools := [];
     Oled.zfs := false; Oled.disks_temp := false |}.

Definition uptime_line : Oled.item :=
  {| Oled.xy := (0, -2)%Z; Oled.text := "Up: 3h"; Oled.fill := 255%Z;
     Oled.font := "11" |}.

(** A text generation that works, and one whose shell command fails. *)
Definition text_ok (pg : Oled.page) (action : bool) : result (list Oled.item) :=
  Ok [uptime_line].
Definition text_fails (pg : Oled.page) (action : bool) : result (list Oled.item) :=
  Raise (OtherError "Command returned non-zero exit status 1").

(** The consumer once it has handled a first advance message at time 0,
    the page text coming out fine. *)
Definition after_first_page : Oled.consumer * Oled.shared * Oled.panel :=
  snd (Oled.display_step Oled.default_slider_conf bare_env text_ok true
         (Oled.consumer_init, shared_at 0, Oled.blank)).

(** The strings a pattern denotes. *)
Inductive lang : Misc.regex -> string -> Prop :=
  | lang_eps : lang Misc.Reps EmptyString
  | lang_chr c : lang (Misc.Rchr c) (String c EmptyString)
  | lang_cat r1 r2 s1 s2 :
      lang r1 s1 -> lang r2 s2 -> lang (Misc.Rcat r1 r2) (s1 ++ s2)%string
  | lang_alt_l r1 r2 s : lang r1 s -> lang (Misc.Ralt r1 r2) s
  | lang_alt_r r1 r2 s : lang r2 s -> lang (Misc.Ralt r1 r2) s
  | lang_star_nil r : lang (Misc.Rstar r) EmptyString
  | lang_star_cons r s1 s2 :
      lang r s1 -> lang (Misc.Rstar r) s2 -> lang (Misc.Rstar r) (s1 ++ s2)%string.

(** The character [c] repeated [n] times. *)
Fixpoint rep (c : ascii) (n : nat) : string :=
  match n with
  | O => EmptyString
  | S n' => String c (rep c n')
  end.

(** The number of ['1'] characters (button up) in a window. *)
Fixpoint highs (s : string) : nat :=
  match s with
  | EmptyString => 0
  | String c s' => ((if Ascii.eqb c "1" then 1 else 0) + highs s')%nat
  end.

(** ** Vocabulary of the further properties *)

(** The cached duty cycle, when there is one, is a value of the fan curve. *)
Definition cache_on_curve (st : Fan.fan_state) : Prop :=
  match Fan.cache_dc (Fan.get_cache st) with
  | Some d => 10 <= d /\ d <= 100
  | None => True
  end.

(** The cache either holds a duty cycle or has never been filled. *)
Definition cache_usable (st : Fan.fan_state) : Prop :=
  Fan.cache_dc (Fan.get_cache st) <> None
  \/ Fan.cache_time (Fan.get_cache st) = None.

(** A thermal zone at [m] millidegrees, Celsius display, disks polled last
    at [last] and averaging [avg]. *)
Definition zone_at (m now last avg : Q) : Fan.temp_env :=
  {| Fan.thermal_zone0 := m; Fan.f_temp := false; Fan.temp_now := now;
     Fan.last_disk_temp_poll := last; Fan.fan_poll_delay := 160;
     Fan.disk_temp_average := avg; Fan.disk_temp_polled := avg + 1 |}.

(** The default levels with the disks included in the fan temperature. *)
Definition disks_conf : Misc.fan_conf :=
  {| Misc.fan_lv0 := 35; Misc.fan_lv1 := 40; Misc.fan_lv2 := 45; Misc.fan_lv3 := 50;
     Misc.fan_linear := false; Misc.fan_temp_disks := true |}.

(** Every character of [s] is a decimal digit. *)
Fixpoint all_digits (s : string) : bool :=
  match s with
  | EmptyString => true
  | String c s' => Misc.is_digit c && all_digits s'
  end.

(** The pool sampler after a first sample of the pool tank. *)
Definition tank_a : Misc.zpool_state :=
  snd (Misc.get_zpool_io_rate 5 "tank" true 1000 2097152000 1048576000 Misc.empty_zpool).

(** A disk usage cache filled at time 1000. *)
Definition used_at_1000 : Misc.used_cache (list (string * string)) :=
  {| Misc.used_time := Some 1000; Misc.used_info := Some [("root", "41%")]%string |}.

(** The number of places in a window where a ['0'] is followed by a ['1']
    (the button let go). *)
Fixpoint rises (s : string) : nat :=
  match s with
  | EmptyString => 0
  | String c t =>
      ((match t with
        | String d _ => if Ascii.eqb c "0" && Ascii.eqb d "1" then 1 else 0
        | EmptyString => 0
        end) + rises t)%nat
  end.

(** The frame a render of [pg] pushes from a clear image: the page's text,
    or nothing when its generation raises. *)
Definition frame_of (get_page_text : Oled.page -> bool -> result (list Oled.item))
    (pg : Oled.page) (action : bool) : list Oled.item :=
  match get_page_text pg action with
  | Ok items => items
  | Raise _ => []
  end.

(** The consumer with the rotation list [dl] and [lp] on the panel. *)
Definition consumer_at (lp : option Oled.page) (dl : list Oled.page) : Oled.consumer :=
  {| Oled.last_page := lp; Oled.display_list := dl |}.

(** A board with two network interfaces and a disk. *)
Definition nas_env : Oled.page_env :=
  {| Oled.interfaces := ["eth0"; "wlan0"]%string; Oled.disks := ["sda1"]%string;
     Oled.zpools := []; Oled.zfs := false; Oled.disks_temp := true |}.

(** The slider period set to minus one second. *)
Definition backwards_conf : Oled.slider_conf :=
  {| Oled.slider_auto := true; Oled.slider_time := -1; Oled.slider_refresh := 0 |}.

(** The slider period set to zero. *)
Definition still_conf : Oled.slider_conf :=
  {| Oled.slider_auto := true; Oled.slider_time := 0; Oled.slider_refresh := 0 |}.

(** The temperature of a disk as [get_disk_temp_info] adds it up. *)
Definition shown_temp (farenheit : bool) (t : Q) : Q :=
  if farenheit then t * (18 # 10) + 32 else t.

(** The sum of the temperatures that could be read. *)
Fixpoint readable_sum (farenheit : bool) (disks : list (string * option Q)) : Q :=
  match disks with
  | [] => 0
  | (disk, output) :: rest =>
      (if String.eqb disk "" then 0
       else match output with
            | Some t => shown_temp farenheit t
            | None => 0
            end) + readable_sum farenheit rest
  end.

(** A stand-in for the format strings of the temperatures. *)
Definition plain_fmt (farenheit : bool) (t : Q) : string :=
  if farenheit then "F"%string else "C"%string.

(** * Properties *)

(** ** Python helpers *)

Lemma py_min_le_l a b : py_min a b <= a.
Proof. unfold py_min. destruct (Qlt_le_dec b a); lra. Qed.

Lemma py_min_le_r a b : py_min a b <= b.
Proof. unfold py_min. destruct (Qlt_le_dec b a); lra. Qed.

Lemma py_max_ge_r a b : b <= py_max a b.
Proof. unfold py_max. destruct (Qlt_le_dec a b); lra. Qed.

Lemma py_max_ge_l a b : a <= py_max a b.
Proof. unfold py_max. destruct (Qlt_le_dec a b); lra. Qed.

Lemma py_min_glb a b c : c <= a -> c <= b -> c <= py_min a b.
Proof. unfold py_min. destruct (Qlt_le_dec b a); lra. Qed.

Lemma truthy_false x : truthy x = false <-> x == 0.
Proof.
  unfold truthy. rewrite negb_false_iff. apply Qeq_bool_iff.
Qed.

Lemma truthy_true x : truthy x = true <-> ~ x == 0.
Proof.
  unfold truthy. rewrite negb_true_iff. split.
  - intros H E. apply Qeq_bool_iff in E. congruence.
  - intros H. destruct (Qeq_bool x 0) eqn:E; [|reflexivity].
    apply Qeq_bool_iff in E. contradiction.
Qed.

Lemma py_div_ok a b : ~ b == 0 -> py_div a b = Ok (a / b).
Proof.
  intros H. unfold py_div. destruct (Qeq_bool b 0) eqn:E; [|reflexivity].
  apply Qeq_bool_iff in E. contradiction.
Qed.

Lemma py_div_zero a b : b == 0 -> py_div a b = Raise ZeroDivisionError.
Proof.
  intros H. unfold py_div. apply Qeq_bool_iff in H. now rewrite H.
Qed.

(** ** The fan curve *)

Section FanCurve.
Import Misc.

Variable c : fan_conf.

Lemma lv2dc_falling : falling lv2dc.
Proof.
  unfold falling, lv2dc.
  repeat (constructor; [|repeat constructor; simpl; lra]).
  constructor.
Qed.

Lemma lv2dc_floor : Forall (fun a => 10 <= snd a) lv2dc.
Proof. unfold lv2dc. repeat constructor; simpl; lra. Qed.

Lemma scan_levels_In t items dc :
  scan_levels c t items = Some dc -> exists lv, In (lv, dc) items.
Proof.
  induction items as [|[lv d] rest IH]; simpl; [discriminate|].
  destruct (Qle_bool (conf_fan c lv) t).
  - intros [= <-]. exists lv. now left.
  - intros H. destruct (IH H) as [lv' Hin]. exists lv'. now right.
Qed.

Lemma scan_levels_None t items :
  scan_levels c t items = None ->
  Forall (fun a => ~ conf_fan c (fst a) <= t) items.
Proof.
  induction items as [|[lv d] rest IH]; simpl; [constructor|].
  destruct (Qle_bool (conf_fan c lv) t) eqn:E; [discriminate|].
  intros H. constructor; [|now apply IH].
  simpl. intros Hle. apply Qle_bool_iff in Hle. congruence.
Qed.

(** The scan returns the entry of the first level whose threshold is met. *)
Lemma scan_levels_first t items dc :
  scan_levels c t items = Some dc ->
  exists before lv after,
    items = before ++ (lv, dc) :: after
    /\ conf_fan c lv <= t
    /\ Forall (fun a => ~ conf_fan c (fst a) <= t) before.
Proof.
  induction items as [|[lv d] rest IH]; simpl; [discriminate|].
  destruct (Qle_bool (conf_fan c lv) t) eqn:E.
  - intros [= <-]. exists [], lv, rest. repeat split; [|constructor].
    now apply Qle_bool_iff.
  - intros H. destruct (IH H) as (before & lv' & after & -> & Hle & Hbefore).
    exists ((lv, d) :: before), lv', after. repeat split; [assumption|].
    constructor; [|assumption]. simpl. intros Hle'.
    apply Qle_bool_iff in Hle'. congruence.
Qed.

Lemma scanned_mono t1 t2 items :
  falling items -> Forall (fun a => 10 <= snd a) items -> t1 <= t2 ->
  scanned c t1 items <= scanned c t2 items.
Proof.
  unfold scanned. intros Hsort Hfloor Hle.
  induction items as [|[lv d] rest IH]; simpl; [lra|].
  apply StronglySorted_inv in Hsort as [Hsort Hd].
  apply Forall_cons_iff in Hfloor as [Hfl Hfloor]. simpl in Hfl.
  destruct (Qle_bool (conf_fan c lv) t1) eqn:E1.
  - apply Qle_bool_iff in E1.
    assert (E2 : Qle_bool (conf_fan c lv) t2 = true).
    { apply Qle_bool_iff. lra. }
    rewrite E2. lra.
  - destruct (Qle_bool (conf_fan c lv) t2) eqn:E2; [|now apply IH].
    destruct (scan_levels c t1 rest) as [d'|] eqn:Es; [|assumption].
    destruct (scan_levels_In _ _ _ Es) as [lv' Hin].
    rewrite List.Forall_forall in Hd. apply (Hd (lv', d') Hin).
Qed.

End FanCurve.

(** C6. In step mode the duty cycle is one of 25, 50, 75, 100 and 10: it is
    the percent of the highest level whose threshold the temperature
    meets (the first met in the scan lv3, lv2, lv1, lv0), 10 when it meets
    none, and it does not decrease when the temperature rises. *)
Theorem fan_temp2dc_step_mode (c : Misc.fan_conf) (t t' : Q) :
  Misc.fan_linear c = false ->
  t <= t' ->
  In (Misc.fan_temp2dc c t) [25; 50; 75; 100; 10]
  /\ (forall lv,
        Misc.conf_fan c lv <= t ->
        (forall lv', (rank lv < rank lv')%nat -> ~ Misc.conf_fan c lv' <= t) ->
        Misc.fan_temp2dc c t = Misc.lv2dc_get lv)
  /\ ((forall lv, ~ Misc.conf_fan c lv <= t) -> Misc.fan_temp2dc c t = 10)
  /\ Misc.fan_temp2dc c t <= Misc.fan_temp2dc c t'.
Proof.
  intros Hstep Hle. unfold Misc.fan_temp2dc. rewrite Hstep.
  split; [|split; [|split]].
  - destruct (Misc.scan_levels c t Misc.lv2dc) as [dc|] eqn:E.
    + destruct (scan_levels_In _ _ _ _ E) as [lv Hin].
      unfold Misc.lv2dc in Hin. simpl in Hin.
      destruct Hin as [[= _ <-]|[[= _ <-]|[[= _ <-]|[[= _ <-]|[]]]]];
        simpl; tauto.
    + simpl; tauto.
  - intros lv Hmet Hhighest.
    apply Qle_bool_iff in Hmet.
    assert (Hhi : forall lv', (rank lv < rank lv')%nat ->
                              Qle_bool (Misc.conf_fan c lv') t = false).
    { intros lv' Hlt. destruct (Qle_bool (Misc.conf_fan c lv') t) eqn:E;
        [|reflexivity].
      apply Qle_bool_iff in E. now destruct (Hhighest lv' Hlt). }
    unfold Misc.lv2dc. cbn [Misc.scan_levels].
    destruct lv;
      repeat match goal with
             | |- context [Qle_bool (Misc.conf_fan c ?l) t] =>
                 first [ rewrite Hmet
                       | rewrite (Hhi l) by (simpl; lia) ]
             end; reflexivity.
  - intros Hnone.
    destruct (Misc.scan_levels c t Misc.lv2dc) as [dc|] eqn:E; [|reflexivity].
    destruct (scan_levels_first _ _ _ _ E) as (_ & lv & _ & _ & Hmet & _).
    now destruct (Hnone lv).
  - apply (scanned_mono c t t' Misc.lv2dc lv2dc_falling lv2dc_floor Hle).
Qed.

Lemma fan_temp2dc_step_mode_witness :
  Misc.fan_linear Misc.default_fan_conf = false
  /\ 42 <= 47
  /\ Misc.fan_temp2dc Misc.default_fan_conf 42
     <= Misc.fan_temp2dc Misc.default_fan_conf 47.
Proof.
  assert (H42 : 42 <= 47) by lra.
  split; [reflexivity|]. split; [exact H42|].
  exact (proj2 (proj2 (proj2
    (fan_temp2dc_step_mode Misc.default_fan_conf 42 47 eq_refl H42)))).
Defined.

(** The linear branch, with the slope named. *)
Lemma fan_temp2dc_linear_eq (c : Misc.fan_conf) (t : Q) :
  Misc.fan_linear c = true ->
  Misc.fan_temp2dc c t =
  py_min 100 (py_max (Misc.linear_slope c * (t - Misc.fan_lv0 c) + 25) 25).
Proof. intros H. unfold Misc.fan_temp2dc. now rewrite H. Qed.

Lemma linear_slope_nonneg (c : Misc.fan_conf) : 0 <= Misc.linear_slope c.
Proof.
  unfold Misc.linear_slope. simpl.
  destruct (Qlt_le_dec 0 (Misc.fan_lv3 c - Misc.fan_lv0 c)) as [Hpos|Hneg]; [|lra].
  apply Qle_shift_div_l; [assumption|]. lra.
Qed.

Lemma linear_slope_span (c : Misc.fan_conf) :
  Misc.fan_lv0 c < Misc.fan_lv3 c ->
  Misc.linear_slope c * (Misc.fan_lv3 c - Misc.fan_lv0 c) == 75.
Proof.
  intros Hlt. unfold Misc.linear_slope. simpl.
  destruct (Qlt_le_dec 0 (Misc.fan_lv3 c - Misc.fan_lv0 c)) as [Hpos|Hneg]; [|lra].
  field. lra.
Qed.

(** C7, as the code has it. In linear mode the duty cycle is 25 at lv0 and
    always within 25..100; it is 100 at lv3 when lv3 is above lv0. When the
    span lv3 - lv0 is 0 or negative the slope is 1 and the duty cycle at
    lv3 is 25. *)
Theorem fan_temp2dc_linear_mode (c : Misc.fan_conf) (t : Q) :
  Misc.fan_linear c = true ->
  Misc.fan_temp2dc c (Misc.conf_fan c Misc.lv0) == 25
  /\ (Misc.conf_fan c Misc.lv0 < Misc.conf_fan c Misc.lv3 ->
      Misc.fan_temp2dc c (Misc.conf_fan c Misc.lv3) == 100)
  /\ (Misc.conf_fan c Misc.lv3 - Misc.conf_fan c Misc.lv0 <= 0 ->
      Misc.linear_slope c = 1
      /\ Misc.fan_temp2dc c (Misc.conf_fan c Misc.lv3) == 25)
  /\ (25 <= Misc.fan_temp2dc c t /\ Misc.fan_temp2dc c t <= 100)
  /\ (t <= Misc.conf_fan c Misc.lv0 -> Misc.fan_temp2dc c t == 25)
  /\ (Misc.conf_fan c Misc.lv0 < Misc.conf_fan c Misc.lv3 ->
      Misc.conf_fan c Misc.lv3 <= t -> Misc.fan_temp2dc c t == 100).
Proof.
  intros Hlin. simpl Misc.conf_fan.
  rewrite !(fan_temp2dc_linear_eq c) by assumption.
  pose proof (linear_slope_nonneg c) as Hs.
  assert (Hlow : forall u, u <= Misc.fan_lv0 c ->
            py_min 100 (py_max (Misc.linear_slope c * (u - Misc.fan_lv0 c) + 25) 25) == 25).
  { intros u Hu.
    assert (Misc.linear_slope c * (u - Misc.fan_lv0 c) <= 0) by nra.
    unfold py_min, py_max. repeat destruct Qlt_le_dec; lra. }
  assert (Hhigh : Misc.fan_lv0 c < Misc.fan_lv3 c -> forall u, Misc.fan_lv3 c <= u ->
            py_min 100 (py_max (Misc.linear_slope c * (u - Misc.fan_lv0 c) + 25) 25) == 100).
  { intros Hspan u Hu. pose proof (linear_slope_span c Hspan) as H75.
    assert (75 <= Misc.linear_slope c * (u - Misc.fan_lv0 c)) by nra.
    unfold py_min, py_max. repeat destruct Qlt_le_dec; lra. }
  split; [apply Hlow; lra|].
  split; [intros Hspan; apply Hhigh; [assumption|lra]|].
  split.
  { intros Hdeg. split.
    - unfold Misc.linear_slope. simpl.
      destruct (Qlt_le_dec 0 (Misc.fan_lv3 c - Misc.fan_lv0 c)); [lra|reflexivity].
    - apply Hlow. lra. }
  split.
  { split.
    - apply py_min_glb; [lra|apply py_max_ge_r].
    - apply py_min_le_l. }
  split; [apply Hlow|intros Hspan; now apply Hhigh].
Qed.

Lemma fan_temp2dc_linear_mode_witness :
  Misc.fan_linear linear_conf = true
  /\ Misc.fan_linear flat_conf = true
  /\ Misc.fan_temp2dc linear_conf 35 == 25
  /\ Misc.fan_temp2dc linear_conf 50 == 100
  /\ Misc.fan_temp2dc linear_conf 20 == 25
  /\ Misc.fan_temp2dc linear_conf 70 == 100
  /\ Misc.linear_slope flat_conf = 1
  /\ Misc.fan_temp2dc flat_conf 40 == 25.
Proof.
  split; [reflexivity|]. split; [reflexivity|].
  destruct (fan_temp2dc_linear_mode linear_conf 20 eq_refl) as (H0 & H3 & _ & _ & Hlow & _).
  destruct (fan_temp2dc_linear_mode linear_conf 70 eq_refl) as (_ & _ & _ & _ & _ & Hhigh).
  destruct (fan_temp2dc_linear_mode flat_conf 40 eq_refl) as (_ & _ & Hflat & _).
  split; [exact H0|]. split; [apply H3; reflexivity|].
  split; [apply Hlow; discriminate|].
  split; [apply Hhigh; [reflexivity|discriminate]|].
  apply Hflat. discriminate.
Defined.

(** C7 as stated fails: with lv0 = lv3 = 40 the duty cycle at lv3 is 25. *)
Lemma fan_temp2dc_linear_lv3_not_100 :
  Misc.fan_linear flat_conf = true
  /\ Misc.fan_temp2dc flat_conf (Misc.conf_fan flat_conf Misc.lv3) == 25
  /\ ~ Misc.fan_temp2dc flat_conf (Misc.conf_fan flat_conf Misc.lv3) == 100.
Proof.
  split; [reflexivity|]. split; [reflexivity|]. intros H. discriminate H.
Qed.

(** ** The fan loop *)

Section FanLoop.
Import Fan.

Variable c : Misc.fan_conf.

(** [get_dc] computes a duty cycle only when the clock read more than 5
    seconds past the stored time, and then stores the second reading. *)
Lemma get_dc_computes (i : poll) (cache : dc_cache) r cache' evs :
  get_dc c i cache = (r, cache', evs) ->
  (evs = [] /\ cache' = cache)
  \/ (fan_running i = true
      /\ 5 < now_check i - default 0 (cache_time cache)
      /\ evs = [Computed (now_check i) (now_store i) (Misc.fan_temp2dc c (cpu_temp i))]
      /\ cache_time cache' = Some (now_store i)).
Proof.
  unfold get_dc. destruct (fan_running i); simpl.
  - destruct (Qlt_le_dec 5 (now_check i - default 0 (cache_time cache))) as [Hgt|Hle].
    + simpl. intros [= <- <- <-]. right. auto.
    + destruct (cache_dc cache); intros [= <- <- <-]; left; auto.
  - intros [= <- <- <-]. left; auto.
Qed.

(** [change_dc] writes exactly when the duty cycle differs from the one
    of the previous write, and then remembers it. *)
Lemma change_dc_writes (dc : Q) (last : option Q) last' evs :
  change_dc dc last = (last', evs) ->
  (differs dc last = false /\ evs = [] /\ last' = last)
  \/ (differs dc last = true /\ evs = [Written (off_ratio dc)] /\ last' = Some dc).
Proof.
  unfold change_dc. destruct (differs dc last); intros [= <- <-]; auto.
Qed.

Lemma differs_off_ratio (dc : Q) (last : option Q) :
  differs dc last = true ->
  match option_map off_ratio last with Some r0 => ~ off_ratio dc == r0 | None => True end.
Proof.
  destruct last as [d|]; simpl; [|trivial].
  rewrite negb_true_iff. intros Hne Heq.
  assert (E1 : dc == (1 - off_ratio dc) * 100) by (unfold off_ratio; field).
  assert (E2 : d == (1 - off_ratio d) * 100) by (unfold off_ratio; field).
  assert (H : dc == d) by lra.
  apply Qeq_bool_iff in H. congruence.
Qed.

Lemma last_cons_shift {A} (x d : A) (l : list A) :
  List.last (x :: l) d = List.last l x.
Proof.
  revert x d. induction l as [|y l IH]; intros x d; [reflexivity|].
  change (List.last (x :: y :: l) d) with (List.last (y :: l) d).
  rewrite IH. symmetry. apply IH.
Qed.

Lemma last_app_shift {A} (d : A) (l1 l2 : list A) :
  List.last (l1 ++ l2) d = List.last l2 (List.last l1 d).
Proof.
  revert d. induction l1 as [|x l1 IH]; intros d; [reflexivity|].
  rewrite <- app_comm_cons, !last_cons_shift. apply IH.
Qed.

Lemma rate_limited_app last l1 l2 :
  rate_limited last l1 -> rate_limited (List.last (map snd l1) last) l2 ->
  rate_limited last (l1 ++ l2).
Proof.
  revert last. induction l1 as [|[ch st] l1 IH]; intros last; [simpl; tauto|].
  rewrite map_cons, last_cons_shift. simpl.
  intros [Ht Hl1] Hl2. split; [assumption|]. now apply IH.
Qed.

Lemma changing_app last l1 l2 :
  changing last l1 -> changing (List.last (map Some l1) last) l2 ->
  changing last (l1 ++ l2).
Proof.
  revert last. induction l1 as [|r l1 IH]; intros last; [simpl; tauto|].
  rewrite map_cons, last_cons_shift. simpl.
  intros [Hr Hl1] Hl2. split; [assumption|]. now apply IH.
Qed.

(** With the stored reading never before the tested one, the stamps of a
    rate-limited run are more than 5 seconds apart. *)
Lemma rate_limited_spaced last l :
  Forall (fun x => fst x <= snd x) l -> rate_limited last l ->
  spaced last (map snd l).
Proof.
  intros Hclock. revert last.
  induction Hclock as [|[ch st] l Hx Hclock IH]; intros last; simpl; [trivial|].
  simpl in Hx. intros [Hgt Hl]. split; [lra|now apply IH].
Qed.

(** One [change_dc(get_dc())]: what it adds to the computations and to the
    writes, and what it leaves in the two caches. *)
Lemma tick_spec (i : poll) (st : fan_state) r st' evs :
  tick c i st = (r, st', evs) ->
  rate_limited (default 0 (cache_time (get_cache st))) (computations evs)
  /\ default 0 (cache_time (get_cache st'))
     = List.last (stamps evs) (default 0 (cache_time (get_cache st)))
  /\ changing (option_map off_ratio (change_cache st)) (written evs)
  /\ option_map off_ratio (change_cache st')
     = List.last (map Some (written evs)) (option_map off_ratio (change_cache st))
  /\ Forall (fun x => x = (now_check i, now_store i)) (computations evs).
Proof.
  unfold tick, stamps.
  destruct (get_dc c i (get_cache st)) as [[rg cache'] evg] eqn:Eg.
  apply get_dc_computes in Eg.
  assert (Hcomp : rate_limited (default 0 (cache_time (get_cache st))) (computations evg)
                  /\ default 0 (cache_time cache')
                     = List.last (map snd (computations evg))
                         (default 0 (cache_time (get_cache st)))
                  /\ written evg = []
                  /\ Forall (fun x => x = (now_check i, now_store i)) (computations evg)).
  { destruct Eg as [[-> ->]|(_ & Hgt & -> & Ht)]; simpl.
    - repeat split; constructor.
    - rewrite Ht. simpl. repeat split; try assumption. repeat constructor. }
  destruct Hcomp as (Hrl & Hlast & Hnow & Hall).
  destruct rg as [dc|e].
  - destruct (change_dc dc (change_cache st)) as [last' evc] eqn:Ec.
    apply change_dc_writes in Ec.
    intros [= <- <- <-]. simpl.
    assert (Hs : computations (evg ++ evc) = computations evg).
    { unfold computations. rewrite flat_map_app.
      destruct Ec as [(_ & -> & _)|(_ & -> & _)]; simpl; apply app_nil_r. }
    assert (Hw : written (evg ++ evc) = written evc).
    { unfold written in *. rewrite flat_map_app, Hnow. reflexivity. }
    rewrite Hs, Hw. repeat split; try assumption.
    + destruct Ec as [(_ & -> & _)|(Hd & -> & _)]; simpl; [trivial|].
      split; [|trivial]. now apply differs_off_ratio.
    + destruct Ec as [(_ & -> & ->)|(_ & -> & ->)]; reflexivity.
  - intros [= <- <- <-]. simpl. rewrite Hnow. simpl. tauto.
Qed.

(** The same over a whole run of the loop. *)
Lemma running_spec (polls : list poll) (st st' : fan_state) r evs :
  running c polls st = (r, st', evs) ->
  rate_limited (default 0 (cache_time (get_cache st))) (computations evs)
  /\ default 0 (cache_time (get_cache st'))
     = List.last (stamps evs) (default 0 (cache_time (get_cache st)))
  /\ changing (option_map off_ratio (change_cache st)) (written evs)
  /\ option_map off_ratio (change_cache st')
     = List.last (map Some (written evs)) (option_map off_ratio (change_cache st))
  /\ Forall (fun x => exists i, In i polls /\ x = (now_check i, now_store i))
       (computations evs).
Proof.
  revert st st' r evs.
  induction polls as [|i polls IH]; intros st st' r evs; simpl.
  - intros [= <- <- <-]. simpl. repeat split; constructor.
  - destruct (tick c i st) as [[rt st1] ev1] eqn:Et.
    destruct (tick_spec i st rt st1 ev1 Et) as (Hrl & Hlast & Hch & Hw & Hall).
    assert (Hall' : Forall (fun x => exists i0, (i = i0 \/ In i0 polls)
                                     /\ x = (now_check i0, now_store i0))
                      (computations ev1)).
    { eapply List.Forall_impl; [|exact Hall]. intros x ->. exists i. auto. }
    destruct rt as [[]|e].
    + destruct (running c polls st1) as [[r2 st2] ev2] eqn:Er.
      intros [= <- <- <-].
      destruct (IH _ _ _ _ Er) as (Hrl2 & Hlast2 & Hch2 & Hw2 & Hall2).
      unfold stamps, computations, written in *.
      rewrite !flat_map_app, !map_app, !last_app_shift.
      repeat split.
      * apply rate_limited_app; [assumption|]. now rewrite <- Hlast.
      * now rewrite Hlast2, Hlast.
      * apply changing_app; [assumption|]. now rewrite <- Hw.
      * now rewrite Hw2, Hw.
      * apply Forall_app. split; [exact Hall'|].
        eapply List.Forall_impl; [|exact Hall2].
        intros x (i0 & Hin & ->). exists i0. auto.
    + intros [= <- <- <-]. repeat split; assumption.
Qed.

End FanLoop.

(** C5. Whatever the polls of the fan loop are, a duty cycle is computed
    from the temperature only when the clock reads more than 5 seconds past
    the time stored with the previous computation, and the PWM pin is
    written only with a duty cycle that differs from the one of the
    previous write. With a clock that does not run backwards inside a
    call, the time stamps of two computations are more than 5 seconds
    apart. *)
Theorem fan_poll_rate_limit (c : Misc.fan_conf) (polls : list Fan.poll)
    (st : Fan.fan_state) :
  let evs := snd (Fan.running c polls st) in
  rate_limited (default 0 (Fan.cache_time (Fan.get_cache st))) (computations evs)
  /\ changing (option_map off_ratio (Fan.change_cache st)) (written evs)
  /\ (Forall (fun i => Fan.now_check i <= Fan.now_store i) polls ->
      spaced (default 0 (Fan.cache_time (Fan.get_cache st))) (stamps evs)).
Proof.
  destruct (Fan.running c polls st) as [[r st'] evs0] eqn:Er. simpl.
  destruct (running_spec c polls st st' r evs0 Er) as (Hrl & _ & Hch & _ & Hall).
  split; [exact Hrl|]. split; [exact Hch|].
  intros Hclock. unfold stamps. apply rate_limited_spaced; [|exact Hrl].
  eapply List.Forall_impl; [|exact Hall].
  intros x (i & Hin & ->). simpl.
  rewrite List.Forall_forall in Hclock. now apply Hclock.
Qed.

Lemma fan_poll_rate_limit_witness :
  Forall (fun i => Fan.now_check i <= Fan.now_store i) demo_polls
  /\ Fan.running Misc.default_fan_conf demo_polls Fan.fan_init
     = (Ok tt,
        {| Fan.get_cache := {| Fan.cache_time := Some 1012; Fan.cache_dc := Some 100 |};
           Fan.change_cache := Some 100 |},
        [Fan.Computed 1000 1000 10; Fan.Written (off_ratio 10);
         Fan.Computed 1006 1006 100; Fan.Written (off_ratio 100);
         Fan.Computed 1012 1012 100])
  /\ spaced 0 [1000; 1006; 1012]
  /\ changing None [off_ratio 10; off_ratio 100].
Proof.
  assert (Hclock : Forall (fun i => Fan.now_check i <= Fan.now_store i) demo_polls).
  { repeat constructor; simpl; lra. }
  split; [exact Hclock|]. split; [reflexivity|].
  destruct (fan_poll_rate_limit Misc.default_fan_conf demo_polls Fan.fan_init)
    as (_ & Hch & Hsp).
  split; [exact (Hsp Hclock)|exact Hch].
Defined.

(** ** The rate sampler *)

Section Sampler.
Import Misc.

Lemma get_set_item dev k v (d : gmap string (gmap string Q)) :
  get_item dev (set_item dev k v d) = <[k := v]> (get_item dev d).
Proof. unfold get_item, set_item. now rewrite lookup_insert_eq. Qed.

Lemma lookup_set_item dev k v (d : gmap string (gmap string Q)) :
  set_item dev k v d !! dev = Some (<[k := v]> (get_item dev d)).
Proof. unfold get_item, set_item. now rewrite lookup_insert_eq. Qed.

(** The first sample of an interface. *)
Lemma interface_first_sample dev raw s :
  raw_interface_io s !! dev = None ->
  get_interface_io_rate dev raw s
  = (Ok (<["tx" := 0]> (<["rx" := 0]> (get_item dev (interface_io_rate s)))),
     set_raw_interface dev raw
       (set_interface_rate dev "tx" 0 (set_interface_rate dev "rx" 0 s))).
Proof.
  intros Hnew. unfold get_interface_io_rate, mbind, M_bind, gets, modify, lift.
  simpl. rewrite Hnew. simpl. now rewrite !get_set_item.
Qed.

(** A later sample, the clock having moved since the cached one. *)
Lemma interface_next_sample dev raw p s :
  raw_interface_io s !! dev = Some p ->
  ~ raw_time raw - raw_time p == 0 ->
  let duration := raw_time raw - raw_time p in
  let rx := inject_Z (raw_rx raw - raw_rx p) / duration / 1024 / 1024 in
  let tx := inject_Z (raw_tx raw - raw_tx p) / duration / 1024 / 1024 in
  get_interface_io_rate dev raw s
  = (Ok (<["tx" := tx]> (<["rx" := rx]> (get_item dev (interface_io_rate s)))),
     set_raw_interface dev raw
       (set_interface_rate dev "tx" tx (set_interface_rate dev "rx" rx s))).
Proof.
  intros Hprev Hmoved. unfold get_interface_io_rate, mbind, M_bind, gets, modify, lift.
  simpl. rewrite Hprev. simpl. rewrite !(py_div_ok _ _ Hmoved). simpl.
  now rewrite !get_set_item.
Qed.

(** A later sample at the very clock reading of the cached one. *)
Lemma interface_same_instant dev raw p s :
  raw_interface_io s !! dev = Some p ->
  raw_time raw - raw_time p == 0 ->
  get_interface_io_rate dev raw s = (Raise ZeroDivisionError, s).
Proof.
  intros Hprev Hsame. unfold get_interface_io_rate, mbind, M_bind, gets, modify, lift.
  simpl. rewrite Hprev. simpl. now rewrite (py_div_zero _ _ Hsame).
Qed.


Lemma mb_per_s_eq delta elapsed :
  inject_Z delta / elapsed / 1024 / 1024 == mb_per_s delta elapsed.
Proof.
  unfold mb_per_s. unfold Qdiv. rewrite <- !Qmult_assoc.
  apply Qmult_comp; [reflexivity|]. apply Qmult_comp; reflexivity.
Qed.

(** What a later sample returns and stores, the clock having moved. *)
Lemma interface_moved_sample dev raw p s :
  raw_interface_io s !! dev = Some p ->
  ~ raw_time raw - raw_time p == 0 ->
  exists rates s' rx tx,
    get_interface_io_rate dev raw s = (Ok rates, s')
    /\ rates !! "rx" = Some rx
    /\ rx == mb_per_s (raw_rx raw - raw_rx p) (raw_time raw - raw_time p)
    /\ rates !! "tx" = Some tx
    /\ tx == mb_per_s (raw_tx raw - raw_tx p) (raw_time raw - raw_time p)
    /\ interface_io_rate s' !! dev = Some rates
    /\ raw_interface_io s' !! dev = Some raw.
Proof.
  intros Hprev Hmoved.
  rewrite (interface_next_sample dev raw p s Hprev Hmoved).
  eexists _, _, _, _. split; [reflexivity|]. simpl.
  rewrite lookup_insert_ne by discriminate.
  rewrite !lookup_insert_eq.
  split; [reflexivity|]. split; [apply mb_per_s_eq|].
  split; [reflexivity|]. split; [apply mb_per_s_eq|].
  split; [|reflexivity].
  rewrite lookup_set_item, get_set_item. reflexivity.
Qed.

Lemma sector_size_resolved disk hw s :
  disk_sector_sizes (with_sector_size disk hw s) !! disk
  = Some (sector_size_of disk hw s).
Proof.
  unfold with_sector_size, sector_size_of.
  destruct (disk_sector_sizes s !! disk) as [n|] eqn:E; simpl; [assumption|].
  apply lookup_insert_eq.
Qed.

Lemma with_sector_size_keeps disk hw s :
  raw_disk_io (with_sector_size disk hw s) = raw_disk_io s
  /\ disk_io_rate (with_sector_size disk hw s) = disk_io_rate s
  /\ raw_interface_io (with_sector_size disk hw s) = raw_interface_io s
  /\ interface_io_rate (with_sector_size disk hw s) = interface_io_rate s.
Proof.
  unfold with_sector_size. destruct (disk_sector_sizes s !! disk); simpl; auto.
Qed.

(** [get_disk_io_rate] up to the test [disk in raw_disk_io]. *)
Lemma get_disk_io_rate_unfold disk0 hw raw s :
  let disk := delete_disk_partition_number disk0 in
  let s0 := with_sector_size disk hw s in
  get_disk_io_rate disk0 hw raw s
  = (match raw_disk_io s !! disk with
     | Some p =>
         let duration := raw_time raw - raw_time p in
         size ← gets (fun s => default 0%Z (disk_sector_sizes s !! disk));
         rx ← lift (py_div (inject_Z (raw_rx raw - raw_rx p)) duration);
         per ← lift (py_div 1024 (inject_Z size));
         rx' ← lift (py_div rx per);
         modify (set_disk_rate disk "rx" (rx' / 1024));;
         tx ← lift (py_div (inject_Z (raw_tx raw - raw_tx p)) duration);
         per ← lift (py_div 1024 (inject_Z size));
         tx' ← lift (py_div tx per);
         modify (set_disk_rate disk "tx" (tx' / 1024))
     | None =>
         modify (set_disk_rate disk "rx" 0);;
         modify (set_disk_rate disk "tx" 0)
     end;;
     modify (set_raw_disk disk raw);;
     gets (fun s => get_item disk (disk_io_rate s))) s0.
Proof.
  intros disk s0. unfold get_disk_io_rate. fold disk.
  unfold s0, with_sector_size, mbind, M_bind, gets, modify, lift, mret, M_ret.
  simpl. destruct (disk_sector_sizes s !! disk); reflexivity.
Qed.

(** The first sample of a disk. *)
Lemma disk_first_sample disk0 hw raw s :
  let disk := delete_disk_partition_number disk0 in
  let s0 := with_sector_size disk hw s in
  raw_disk_io s !! disk = None ->
  get_disk_io_rate disk0 hw raw s
  = (Ok (<["tx" := 0]> (<["rx" := 0]> (get_item disk (disk_io_rate s)))),
     set_raw_disk disk raw
       (set_disk_rate disk "tx" 0 (set_disk_rate disk "rx" 0 s0))).
Proof.
  intros disk s0 Hnew. rewrite get_disk_io_rate_unfold. fold disk. fold s0.
  rewrite Hnew. unfold mbind, M_bind, gets, modify, lift. simpl.
  rewrite !get_set_item. subst s0.
  now destruct (with_sector_size_keeps disk hw s) as (_ & -> & _).
Qed.

(** A later sample of a disk at the very clock reading of the cached one. *)
Lemma disk_same_instant disk0 hw raw p s :
  let disk := delete_disk_partition_number disk0 in
  raw_disk_io s !! disk = Some p ->
  raw_time raw - raw_time p == 0 ->
  get_disk_io_rate disk0 hw raw s
  = (Raise ZeroDivisionError, with_sector_size disk hw s).
Proof.
  intros disk Hprev Hsame. rewrite get_disk_io_rate_unfold. fold disk.
  rewrite Hprev. unfold mbind, M_bind, gets, modify, lift. simpl.
  now rewrite (py_div_zero _ _ Hsame).
Qed.

(** A later sample of a disk, the clock having moved. *)
Lemma disk_next_sample disk0 hw raw p s :
  let disk := delete_disk_partition_number disk0 in
  let s0 := with_sector_size disk hw s in
  let size := sector_size_of disk hw s in
  raw_disk_io s !! disk = Some p ->
  ~ raw_time raw - raw_time p == 0 ->
  size <> 0%Z ->
  let duration := raw_time raw - raw_time p in
  let rx := inject_Z (raw_rx raw - raw_rx p) / duration / (1024 / inject_Z size) / 1024 in
  let tx := inject_Z (raw_tx raw - raw_tx p) / duration / (1024 / inject_Z size) / 1024 in
  get_disk_io_rate disk0 hw raw s
  = (Ok (<["tx" := tx]> (<["rx" := rx]> (get_item disk (disk_io_rate s)))),
     set_raw_disk disk raw
       (set_disk_rate disk "tx" tx (set_disk_rate disk "rx" rx s0))).
Proof.
  intros disk s0 size Hprev Hmoved Hsize duration rx tx.
  rewrite get_disk_io_rate_unfold. fold disk.
  subst s0 size duration rx tx.
  assert (Hs : ~ inject_Z (sector_size_of disk hw s) == 0).
  { intros E. apply Hsize. unfold Qeq in E. simpl in E. lia. }
  assert (Hper : ~ 1024 / inject_Z (sector_size_of disk hw s) == 0).
  { intros E. apply Hs.
    assert (E' : 1024 == 0 * inject_Z (sector_size_of disk hw s)).
    { rewrite <- E. field. exact Hs. }
    exfalso. lra. }
  rewrite Hprev. unfold mbind, M_bind, gets, modify, lift. simpl.
  repeat (first [ rewrite sector_size_resolved
                | rewrite (py_div_ok _ _ Hmoved)
                | rewrite (py_div_ok _ _ Hs)
                | rewrite (py_div_ok _ _ Hper) ]; simpl).
  rewrite !get_set_item.
  now destruct (with_sector_size_keeps disk hw s) as (_ & -> & _).
Qed.

End Sampler.

(** C8, as the code has it. The first sample of a device returns rx = 0
    and tx = 0. Every later sample whose clock reading differs from that of
    the cached sample returns, for a counter delta D over the elapsed time
    E, the rate D / E / (1024 * 1024). In both cases the returned rates are
    the stored ones and the cached sample is replaced by the current
    one. *)
Theorem interface_rate_sample (dev : string) (raw : Misc.sample) (s : Misc.io_state) :
  (Misc.raw_interface_io s !! dev = None ->
   exists rates s',
     Misc.get_interface_io_rate dev raw s = (Ok rates, s')
     /\ rates !! "rx" = Some 0 /\ rates !! "tx" = Some 0
     /\ Misc.interface_io_rate s' !! dev = Some rates
     /\ Misc.raw_interface_io s' !! dev = Some raw)
  /\ (forall p,
      Misc.raw_interface_io s !! dev = Some p ->
      ~ Misc.raw_time raw - Misc.raw_time p == 0 ->
      exists rates s' rx tx,
        Misc.get_interface_io_rate dev raw s = (Ok rates, s')
        /\ rates !! "rx" = Some rx
        /\ rx == mb_per_s (Misc.raw_rx raw - Misc.raw_rx p)
                          (Misc.raw_time raw - Misc.raw_time p)
        /\ rates !! "tx" = Some tx
        /\ tx == mb_per_s (Misc.raw_tx raw - Misc.raw_tx p)
                          (Misc.raw_time raw - Misc.raw_time p)
        /\ Misc.interface_io_rate s' !! dev = Some rates
        /\ Misc.raw_interface_io s' !! dev = Some raw).
Proof.
  split.
  - intros Hnew. rewrite (interface_first_sample dev raw s Hnew).
    eexists _, _. split; [reflexivity|]. simpl.
    rewrite lookup_insert_ne by discriminate.
    rewrite !lookup_insert_eq. repeat split.
    rewrite lookup_set_item, get_set_item. reflexivity.
  - intros p Hprev Hmoved. now apply interface_moved_sample.
Qed.

Lemma interface_rate_sample_witness :
  Misc.raw_interface_io Misc.empty_io !! "eth0" = None
  /\ Misc.raw_interface_io io_a !! "eth0" = Some sample_a
  /\ ~ Misc.raw_time sample_b - Misc.raw_time sample_a == 0
  /\ rate_of (Misc.interface_io_rate io_a) "eth0" "rx" = Some 0
  /\ (exists rx, rate_of (Misc.interface_io_rate io_b) "eth0" "rx" = Some rx
                 /\ rx == mb_per_s 2097152 2)
  /\ Misc.raw_interface_io io_b !! "eth0" = Some sample_b.
Proof.
  assert (H0 : Misc.raw_interface_io Misc.empty_io !! "eth0" = None) by reflexivity.
  assert (Ha : Misc.raw_interface_io io_a !! "eth0" = Some sample_a) by reflexivity.
  assert (Hab : ~ Misc.raw_time sample_b - Misc.raw_time sample_a == 0)
    by (intros E; discriminate E).
  split; [exact H0|]. split; [exact Ha|]. split; [exact Hab|].
  destruct (interface_rate_sample "eth0" sample_a Misc.empty_io) as [Hfirst _].
  destruct (Hfirst H0) as (rates & s' & Hrun & Hrx & _ & Hstored & _).
  destruct (interface_rate_sample "eth0" sample_b io_a) as [_ Hnext].
  destruct (Hnext sample_a Ha Hab)
    as (rates2 & s2 & rx & tx & Hrun2 & Hrx2 & Hrate & _ & _ & Hstored2 & Hraw2).
  split.
  { unfold rate_of, io_a. rewrite Hrun. simpl. rewrite Hstored. exact Hrx. }
  split.
  { exists rx. unfold rate_of, io_b. rewrite Hrun2. simpl. rewrite Hstored2.
    split; [exact Hrx2|exact Hrate]. }
  unfold io_b. rewrite Hrun2. exact Hraw2.
Defined.

(** C8 as stated fails on a later sample whose clock reading equals that
    of the cached one: nothing is returned and the cached sample stays. *)
Lemma interface_rate_sample_same_instant :
  Misc.raw_interface_io io_a !! "eth0" = Some sample_a
  /\ Misc.get_interface_io_rate "eth0" sample_a' io_a
     = (Raise ZeroDivisionError, io_a)
  /\ Misc.raw_interface_io
       (snd (Misc.get_interface_io_rate "eth0" sample_a' io_a)) !! "eth0"
     <> Some sample_a'.
Proof.
  assert (Ha : Misc.raw_interface_io io_a !! "eth0" = Some sample_a) by reflexivity.
  assert (Hrun : Misc.get_interface_io_rate "eth0" sample_a' io_a
                 = (Raise ZeroDivisionError, io_a)).
  { apply (interface_same_instant "eth0" sample_a' sample_a io_a Ha). reflexivity. }
  split; [exact Ha|]. split; [exact Hrun|].
  rewrite Hrun. simpl. rewrite Ha. intros [= E].
Qed.

(** C2, as the code has it. With a previous sample cached: when the
    elapsed time is exactly zero the rate computation does divide by zero,
    it raises ZeroDivisionError before anything is stored, so the stored
    rates and the cached sample stay as they were; when the elapsed time
    is negative nothing is raised and the stored rates are replaced by the
    counter deltas over that negative time. *)
Theorem elapsed_not_positive (dev disk0 : string) (hw : Z)
    (raw p : Misc.sample) (s : Misc.io_state) :
  let disk := Misc.delete_disk_partition_number disk0 in
  let elapsed := Misc.raw_time raw - Misc.raw_time p in
  (Misc.raw_interface_io s !! dev = Some p ->
   (elapsed == 0 ->
    Misc.get_interface_io_rate dev raw s = (Raise ZeroDivisionError, s))
   /\ (elapsed < 0 ->
       exists rates s' rx tx,
         Misc.get_interface_io_rate dev raw s = (Ok rates, s')
         /\ Misc.interface_io_rate s' !! dev = Some rates
         /\ rates !! "rx" = Some rx
         /\ rx == mb_per_s (Misc.raw_rx raw - Misc.raw_rx p) elapsed
         /\ rates !! "tx" = Some tx
         /\ tx == mb_per_s (Misc.raw_tx raw - Misc.raw_tx p) elapsed))
  /\ (Misc.raw_disk_io s !! disk = Some p ->
      (elapsed == 0 ->
       exists s',
         Misc.get_disk_io_rate disk0 hw raw s = (Raise ZeroDivisionError, s')
         /\ Misc.disk_io_rate s' = Misc.disk_io_rate s
         /\ Misc.raw_disk_io s' = Misc.raw_disk_io s)
      /\ (elapsed < 0 ->
          sector_size_of disk hw s <> 0%Z ->
          exists rates s' rx tx,
            Misc.get_disk_io_rate disk0 hw raw s = (Ok rates, s')
            /\ Misc.disk_io_rate s' !! disk = Some rates
            /\ rates !! "rx" = Some rx
            /\ rx == inject_Z (Misc.raw_rx raw - Misc.raw_rx p) / elapsed
                     / (1024 / inject_Z (sector_size_of disk hw s)) / 1024
            /\ rates !! "tx" = Some tx
            /\ tx == inject_Z (Misc.raw_tx raw - Misc.raw_tx p) / elapsed
                     / (1024 / inject_Z (sector_size_of disk hw s)) / 1024)).
Proof.
  intros disk elapsed. split.
  - intros Hprev. split.
    + intros Hzero. now apply (interface_same_instant dev raw p s).
    + intros Hneg.
      assert (Hmoved : ~ elapsed == 0) by (intros E; rewrite E in Hneg; lra).
      destruct (interface_moved_sample dev raw p s Hprev Hmoved)
        as (rates & s' & rx & tx & Hrun & Hrx & Erx & Htx & Etx & Hstored & _).
      exists rates, s', rx, tx. auto 10.
  - intros Hprev. split.
    + intros Hzero. eexists. split.
      * now apply (disk_same_instant disk0 hw raw p s).
      * destruct (with_sector_size_keeps disk hw s) as (Hraw & Hrate & _). auto.
    + intros Hneg Hsize.
      assert (Hmoved : ~ elapsed == 0) by (intros E; rewrite E in Hneg; lra).
      rewrite (disk_next_sample disk0 hw raw p s Hprev Hmoved Hsize).
      eexists _, _, _, _. split; [reflexivity|]. simpl.
      rewrite lookup_set_item, get_set_item. subst disk.
      destruct (with_sector_size_keeps (Misc.delete_disk_partition_number disk0) hw s)
        as (_ & -> & _).
      rewrite lookup_insert_ne by discriminate.
      rewrite !lookup_insert_eq. repeat split; reflexivity.
Qed.

Lemma elapsed_not_positive_witness :
  Misc.raw_interface_io io_b !! "eth0" = Some sample_b
  /\ Misc.raw_disk_io disk_b !! Misc.delete_disk_partition_number "sda1" = Some sample_b
  /\ Misc.raw_time sample_b - Misc.raw_time sample_b == 0
  /\ Misc.raw_time sample_early - Misc.raw_time sample_b < 0
  /\ sector_size_of (Misc.delete_disk_partition_number "sda1") 512 disk_b <> 0%Z
  /\ Misc.get_interface_io_rate "eth0" sample_b io_b = (Raise ZeroDivisionError, io_b)
  /\ (exists rates s' rx,
        Misc.get_interface_io_rate "eth0" sample_early io_b = (Ok rates, s')
        /\ rates !! "rx" = Some rx
        /\ rx == mb_per_s 2097152 (-1))
  /\ (exists s', Misc.get_disk_io_rate "sda1" 512 sample_b disk_b
                 = (Raise ZeroDivisionError, s'))
  /\ (exists rates s' rx,
        Misc.get_disk_io_rate "sda1" 512 sample_early disk_b = (Ok rates, s')
        /\ rates !! "rx" = Some rx
        /\ rx == inject_Z 2097152 / (-1) / (1024 / 512) / 1024).
Proof.
  assert (Hb : Misc.raw_interface_io io_b !! "eth0" = Some sample_b) by reflexivity.
  assert (Hd : Misc.raw_disk_io disk_b !! Misc.delete_disk_partition_number "sda1"
               = Some sample_b) by reflexivity.
  assert (Hzero : Misc.raw_time sample_b - Misc.raw_time sample_b == 0) by reflexivity.
  assert (Hneg : Misc.raw_time sample_early - Misc.raw_time sample_b < 0) by reflexivity.
  assert (Hsize : sector_size_of (Misc.delete_disk_partition_number "sda1") 512 disk_b
                  <> 0%Z) by (vm_compute; discriminate).
  destruct (elapsed_not_positive "eth0" "sda1" 512 sample_b sample_b io_b) as [Hi0 _].
  destruct (elapsed_not_positive "eth0" "sda1" 512 sample_early sample_b io_b) as [Hi1 _].
  destruct (elapsed_not_positive "eth0" "sda1" 512 sample_b sample_b disk_b) as [_ Hd0].
  destruct (elapsed_not_positive "eth0" "sda1" 512 sample_early sample_b disk_b) as [_ Hd1].
  repeat (split; [assumption|]).
  split; [exact (proj1 (Hi0 Hb) Hzero)|].
  split.
  { destruct (proj2 (Hi1 Hb) Hneg) as (rates & s' & rx & tx & Hrun & _ & Hrx & Erx & _).
    exists rates, s', rx. auto. }
  split.
  { destruct (proj1 (Hd0 Hd) Hzero) as (s' & Hrun & _). exists s'. exact Hrun. }
  destruct (proj2 (Hd1 Hd) Hneg Hsize) as (rates & s' & rx & tx & Hrun & _ & Hrx & Erx & _).
  exists rates, s', rx. auto.
Defined.

(** C2 as stated fails. At a zero elapsed time the division by zero is
    performed; at a negative one the stored rates change (here the rx rate
    goes from 1 MB/s to -2 MB/s). *)
Lemma elapsed_not_positive_counterexample :
  (Misc.raw_interface_io io_a !! "eth0" = Some sample_a
   /\ Misc.raw_time sample_a' - Misc.raw_time sample_a == 0
   /\ fst (Misc.get_interface_io_rate "eth0" sample_a' io_a) = Raise ZeroDivisionError
   /\ fst (Misc.get_disk_io_rate "sda1" 512 sample_a' disk_a) = Raise ZeroDivisionError)
  /\ (Misc.raw_interface_io io_b !! "eth0" = Some sample_b
      /\ Misc.raw_time sample_early - Misc.raw_time sample_b < 0
      /\ (exists r, rate_of (Misc.interface_io_rate io_b) "eth0" "rx" = Some r
                    /\ r == 1)
      /\ (exists r, rate_of (Misc.interface_io_rate
                               (snd (Misc.get_interface_io_rate "eth0" sample_early io_b)))
                            "eth0" "rx" = Some r
                    /\ r == -2)).
Proof.
  split.
  - repeat split; reflexivity.
  - split; [reflexivity|]. split; [reflexivity|]. split.
    + eexists. split; [vm_compute; reflexivity|reflexivity].
    + eexists. split; [vm_compute; reflexivity|reflexivity].
Qed.

(** ** The gesture recogniser *)

Section Gestures.
Import Misc.

Lemma string_length_app (s1 s2 : string) :
  String.length (s1 ++ s2) = (String.length s1 + String.length s2)%nat.
Proof. induction s1 as [|c s1 IH]; simpl; [reflexivity|]. now rewrite IH. Qed.

Lemma string_drop_length (n : nat) (s : string) :
  String.length (string_drop n s) = (String.length s - n)%nat.
Proof.
  revert s. induction n as [|n IH]; intros s; simpl; [lia|].
  destruct s as [|c s]; simpl; [reflexivity|]. apply IH.
Qed.

(** [s[n:]] is what is left of [s] behind its first [n] characters. *)
Lemma string_drop_suffix (n : nat) (s : string) :
  exists front, s = (front ++ string_drop n s)%string
                /\ String.length front = Nat.min n (String.length s).
Proof.
  revert s. induction n as [|n IH]; intros s; simpl.
  - exists EmptyString. split; reflexivity.
  - destruct s as [|c s]; simpl.
    + exists EmptyString. split; reflexivity.
    + destruct (IH s) as (front & Hs & Hlen).
      exists (String c front). split.
      * change (String c s = String c (front ++ string_drop n s)%string).
        now rewrite <- Hs.
      * simpl. now rewrite Hlen.
Qed.

Lemma last_chars_length (size : nat) (s : string) :
  (1 <= size)%nat ->
  String.length (last_chars size s) = Nat.min size (String.length s).
Proof.
  intros Hsize. destruct size as [|n]; [lia|].
  unfold last_chars. rewrite string_drop_length. lia.
Qed.

Lemma str_bit_length (b : bool) : String.length (str_bit b) = 1%nat.
Proof. now destruct b. Qed.

Lemma next_window_length (size : nat) (s : string) (b : bool) :
  (1 <= size)%nat ->
  String.length (next_window size s b) = (Nat.min size (String.length s) + 1)%nat.
Proof.
  intros Hsize. unfold next_window.
  now rewrite string_length_app, last_chars_length, str_bit_length.
Qed.

Lemma windows_from_bound pat (size : nat) (s : string) (pins : list bool) :
  (1 <= size)%nat ->
  Forall (fun w => (String.length w <= size + 1)%nat) (windows_from pat size s pins).
Proof.
  intros Hsize. revert s. induction pins as [|b rest IH]; intros s; simpl.
  - constructor.
  - assert (Hw : (String.length (next_window size s b) <= size + 1)%nat).
    { rewrite next_window_length by assumption. lia. }
    destruct (first_match pat (next_window size s b)).
    + constructor; [exact Hw|constructor].
    + constructor; [exact Hw|apply IH].
Qed.

(** [read_key] returns on the last of its windows, the first one that
    some pattern matches, and leaves the samples behind it unread. *)
Lemma read_key_from_windows pat size s pins t rest :
  read_key_from pat size s pins = Some (t, rest) ->
  exists ws w,
    windows_from pat size s pins = ws ++ [w]
    /\ Forall (fun w' => first_match pat w' = None) ws
    /\ first_match pat w = Some t
    /\ List.length pins = (List.length ws + 1 + List.length rest)%nat.
Proof.
  revert s. induction pins as [|b pins IH]; intros s; simpl; [discriminate|].
  destruct (first_match pat (next_window size s b)) as [t'|] eqn:E.
  - intros [= <- <-]. exists [], (next_window size s b).
    split; [reflexivity|]. split; [constructor|]. split; [exact E|reflexivity].
  - intros H. destruct (IH _ H) as (ws & w & Hws & Hnone & Hw & Hlen).
    exists (next_window size s b :: ws), w. rewrite Hws.
    split; [reflexivity|]. split; [constructor; assumption|].
    split; [exact Hw|]. simpl. lia.
Qed.

(** [read_key] is still polling when the samples run out only if no
    pattern matched any of its windows. *)
Lemma read_key_from_polling pat size s pins :
  read_key_from pat size s pins = None ->
  Forall (fun w => first_match pat w = None) (windows_from pat size s pins)
  /\ List.length (windows_from pat size s pins) = List.length pins.
Proof.
  revert s. induction pins as [|b pins IH]; intros s; simpl.
  - intros _. split; [constructor|reflexivity].
  - destruct (first_match pat (next_window size s b)) as [t'|] eqn:E; [discriminate|].
    intros H. destruct (IH _ H) as [Hall Hlen].
    split; [constructor; assumption|]. simpl. now rewrite Hlen.
Qed.

(** *** The matcher against the language of the pattern *)

Lemma string_app_nil (s1 s2 : string) :
  (s1 ++ s2)%string = EmptyString -> s1 = EmptyString /\ s2 = EmptyString.
Proof. destruct s1; simpl; [auto|discriminate]. Qed.

Lemma string_app_cons (s1 s2 : string) c s :
  (s1 ++ s2)%string = String c s ->
  (s1 = EmptyString /\ s2 = String c s)
  \/ (exists s1', s1 = String c s1' /\ s = (s1' ++ s2)%string).
Proof.
  destruct s1 as [|c1 s1]; simpl; [auto|].
  intros [= -> <-]. right. eauto.
Qed.

Lemma nullable_lang r : nullable r = true <-> lang r EmptyString.
Proof.
  split.
  - induction r; simpl; try discriminate; intros H.
    + constructor.
    + apply andb_true_iff in H as [H1 H2].
      change EmptyString with (EmptyString ++ EmptyString)%string.
      constructor; auto.
    + apply orb_true_iff in H as [H|H]; [apply lang_alt_l|apply lang_alt_r]; auto.
    + constructor.
  - intros H. remember EmptyString as s eqn:Es.
    induction H; simpl; try reflexivity; try discriminate.
    + apply string_app_nil in Es as [-> ->].
      rewrite IHlang1, IHlang2; reflexivity.
    + rewrite IHlang by assumption. reflexivity.
    + rewrite IHlang by assumption. apply orb_true_r.
Qed.

Lemma deriv_sound c r s : lang (deriv c r) s -> lang r (String c s).
Proof.
  revert s. induction r; simpl; intros s H.
  - inversion H.
  - inversion H.
  - destruct (Ascii.eqb_spec c c0) as [->|Hne]; inversion H. constructor.
  - destruct (nullable r1) eqn:En.
    + inversion H as [| | | ? ? ? Hl | ? ? ? Hr | |]; subst.
      * inversion Hl as [| |? ? s1 s2 H1 H2| | | |]; subst.
        change (String c (s1 ++ s2)) with (String c s1 ++ s2)%string.
        constructor; auto.
      * change (String c s) with (EmptyString ++ String c s)%string.
        constructor; [now apply nullable_lang|auto].
    + inversion H as [| |? ? s1 s2 H1 H2| | | |]; subst.
      change (String c (s1 ++ s2)) with (String c s1 ++ s2)%string.
      constructor; auto.
  - inversion H; subst; [apply lang_alt_l|apply lang_alt_r]; auto.
  - inversion H as [| |? ? s1 s2 H1 H2| | | |]; subst.
    change (String c (s1 ++ s2)) with (String c s1 ++ s2)%string.
    constructor; auto.
Qed.

Lemma deriv_complete c r s0 :
  lang r s0 -> forall s, s0 = String c s -> lang (deriv c r) s.
Proof.
  induction 1 as [|d|r1 r2 s1 s2 H1 IH1 H2 IH2|r1 r2 s1 H1 IH1|r1 r2 s2 H2 IH2
                 |r|r s1 s2 H1 IH1 H2 IH2]; intros s Es; simpl.
  - discriminate.
  - injection Es as -> <-. rewrite Ascii.eqb_refl. constructor.
  - apply string_app_cons in Es as [[-> ->]|(s1' & -> & ->)].
    + apply nullable_lang in H1. rewrite H1. apply lang_alt_r. now apply IH2.
    + destruct (nullable r1).
      * apply lang_alt_l. constructor; [now apply IH1|assumption].
      * constructor; [now apply IH1|assumption].
  - apply lang_alt_l. now apply IH1.
  - apply lang_alt_r. now apply IH2.
  - discriminate.
  - apply string_app_cons in Es as [[-> ->]|(s1' & -> & ->)].
    + now apply IH2.
    + constructor; [now apply IH1|assumption].
Qed.

(** [re_match p s] holds exactly when some prefix of [s] is in the language
    of [p]: what [p.match(s)] tests. *)
Lemma re_match_lang p s :
  re_match p s = true <-> exists pre post, s = (pre ++ post)%string /\ lang p pre.
Proof.
  revert p. induction s as [|c s IH]; intros p; simpl.
  - rewrite orb_false_r, nullable_lang. split.
    + intros H. exists EmptyString, EmptyString. auto.
    + intros (pre & post & Es & H). symmetry in Es.
      apply string_app_nil in Es as [-> _]. exact H.
  - rewrite orb_true_iff, nullable_lang, IH. split.
    + intros [H|(pre & post & -> & H)].
      * exists EmptyString, (String c s). auto.
      * exists (String c pre), post. split; [reflexivity|now apply deriv_sound].
    + intros (pre & post & Es & H). symmetry in Es.
      apply string_app_cons in Es as [[-> _]|(pre' & -> & ->)]; [now left|].
      right. exists pre', post. split; [reflexivity|].
      now apply (deriv_complete c p (String c pre')).
Qed.

(** *** What the three patterns accept *)

Lemma string_app_empty s : (s ++ EmptyString)%string = s.
Proof.
  induction s as [|c s IH]; [reflexivity|].
  change (String c (s ++ EmptyString)%string = String c s). now rewrite IH.
Qed.

Lemma rep_length c n : String.length (rep c n) = n.
Proof. induction n; simpl; congruence. Qed.

Lemma highs_app s1 s2 : highs (s1 ++ s2) = (highs s1 + highs s2)%nat.
Proof. induction s1 as [|c s1 IH]; simpl; [reflexivity|]. rewrite IH. lia. Qed.

Lemma highs_ones n : highs (rep "1" n) = n.
Proof. induction n as [|n IH]; [reflexivity|]. cbn. now rewrite IH. Qed.

Lemma highs_zeros n : highs (rep "0" n) = 0%nat.
Proof. induction n as [|n IH]; [reflexivity|]. cbn. exact IH. Qed.

Lemma lang_star_chr c s0 r :
  lang r s0 -> r = Rstar (Rchr c) -> exists n, s0 = rep c n.
Proof.
  induction 1 as [| | | | |r|r s1 s2 H1 _ H2 IH2]; intros Er; try discriminate.
  - exists 0%nat. reflexivity.
  - injection Er as ->. destruct (IH2 eq_refl) as [n ->].
    inversion H1; subst. exists (S n). reflexivity.
Qed.

Lemma lang_atleast_chr c n s :
  lang (Ratleast n (Rchr c)) s -> exists m, (n <= m)%nat /\ s = rep c m.
Proof.
  revert s. induction n as [|n IH]; intros s H; simpl in H.
  - destruct (lang_star_chr c s _ H eq_refl) as [m ->]. exists m. split; [lia|reflexivity].
  - inversion H as [| |? ? s1 s2 H1 H2| | | |]; subst.
    inversion H1; subst. destruct (IH _ H2) as (m & Hm & ->).
    exists (S m). split; [lia|reflexivity].
Qed.

Lemma lang_plus_chr c s :
  lang (Rplus (Rchr c)) s -> exists m, (1 <= m)%nat /\ s = rep c m.
Proof.
  intros H. unfold Rplus in H.
  inversion H as [| |? ? s1 s2 H1 H2| | | |]; subst.
  inversion H1; subst. destruct (lang_star_chr c s2 _ H2 eq_refl) as [m ->].
  exists (S m). split; [lia|reflexivity].
Qed.

Lemma lang_press size wait s :
  lang (pattern_of size wait press) s ->
  exists a b, (1 <= a)%nat /\ (size <= b)%nat /\ s = (rep "1" a ++ rep "0" b)%string.
Proof.
  simpl. intros H. inversion H as [| |? ? s1 s2 H1 H2| | | |]; subst.
  destruct (lang_plus_chr _ _ H1) as (a & Ha & ->).
  destruct (lang_atleast_chr _ _ _ H2) as (b & Hb & ->). eauto.
Qed.

Lemma lang_click size wait s :
  lang (pattern_of size wait click) s ->
  exists a b n, (1 <= a)%nat /\ (1 <= b)%nat /\ (wait <= n)%nat
                /\ s = (rep "1" a ++ rep "0" b ++ rep "1" n)%string.
Proof.
  simpl. intros H. inversion H as [| |? ? s1 s2 H1 H2| | | |]; subst.
  inversion H2 as [| |? ? s3 s4 H3 H4| | | |]; subst.
  destruct (lang_plus_chr _ _ H1) as (a & Ha & ->).
  destruct (lang_plus_chr _ _ H3) as (b & Hb & ->).
  destruct (lang_atleast_chr _ _ _ H4) as (n & Hn & ->).
  exists a, b, n. auto.
Qed.

Lemma lang_twice size wait s :
  lang (pattern_of size wait twice) s ->
  exists a b n d m, (1 <= a)%nat /\ (1 <= b)%nat /\ (1 <= n)%nat /\ (1 <= d)%nat
                    /\ (3 <= m)%nat
                    /\ s = (rep "1" a ++ rep "0" b ++ rep "1" n
                            ++ rep "0" d ++ rep "1" m)%string.
Proof.
  simpl. intros H. inversion H as [| |? ? s1 s2 H1 H2| | | |]; subst.
  inversion H2 as [| |? ? s3 s4 H3 H4| | | |]; subst.
  inversion H4 as [| |? ? s5 s6 H5 H6| | | |]; subst.
  inversion H6 as [| |? ? s7 s8 H7 H8| | | |]; subst.
  destruct (lang_plus_chr _ _ H1) as (a & Ha & ->).
  destruct (lang_plus_chr _ _ H3) as (b & Hb & ->).
  destruct (lang_plus_chr _ _ H5) as (n & Hn & ->).
  destruct (lang_plus_chr _ _ H7) as (d & Hd & ->).
  destruct (lang_atleast_chr "1" 3 _ H8) as (m & Hm & ->).
  exists a, b, n, d, m. auto 10.
Qed.

(** A window of at most [size + 1] samples that the press pattern matches
    holds a single ['1']; with [wait >= 1] neither click nor twice matches
    it, so the order of the dict only decides between click and twice. *)
Lemma press_window_alone size wait w :
  (1 <= wait)%nat ->
  (String.length w <= size + 1)%nat ->
  re_match (pattern_of size wait press) w = true ->
  w = (rep "1" 1 ++ rep "0" size)%string
  /\ re_match (pattern_of size wait click) w = false
  /\ re_match (pattern_of size wait twice) w = false.
Proof.
  intros Hwait Hlen Hpress.
  apply re_match_lang in Hpress as (pre & post & Hw & Hpre).
  destruct (lang_press _ _ _ Hpre) as (a & b & Ha & Hb & ->).
  assert (Hl : String.length w = (a + b + String.length post)%nat).
  { rewrite Hw, !string_length_app, !rep_length. reflexivity. }
  assert (a = 1%nat) by lia. assert (b = size) by lia.
  assert (Hpost : post = EmptyString).
  { destruct post; [reflexivity|]. simpl in Hl. lia. }
  subst a b post.
  assert (Ew : w = (rep "1" 1 ++ rep "0" size)%string).
  { rewrite Hw. apply string_app_empty. }
  assert (Hh : highs w = 1%nat).
  { rewrite Ew, highs_app, highs_ones, highs_zeros. reflexivity. }
  split; [exact Ew|]. split.
  - destruct (re_match (pattern_of size wait click) w) eqn:E; [|reflexivity].
    apply re_match_lang in E as (pre & post & Hw' & Hpre').
    destruct (lang_click _ _ _ Hpre') as (a & b & n & Ha' & Hb' & Hn & ->).
    rewrite Hw', !highs_app, !highs_ones, highs_zeros in Hh. lia.
  - destruct (re_match (pattern_of size wait twice) w) eqn:E; [|reflexivity].
    apply re_match_lang in E as (pre & post & Hw' & Hpre').
    destruct (lang_twice _ _ _ Hpre') as (a & b & n & d & m & Ha' & Hb' & Hn & Hd & Hm & ->).
    rewrite Hw', !highs_app, !highs_ones, !highs_zeros in Hh. lia.
Qed.

(** The scan of the pattern dict: click first, then twice, then press. *)
Lemma first_match_pattern size wait s :
  first_match (pattern size wait) s
  = if re_match (pattern_of size wait click) s then Some click
    else if re_match (pattern_of size wait twice) s then Some twice
    else if re_match (pattern_of size wait press) s then Some press
    else None.
Proof. reflexivity. Qed.

End Gestures.

(** C9, as the code has it. Every sample tick trims the window from the
    front to its last [size] characters and appends the newest bit, so for
    [size >= 1] no window is longer than [size + 1]: one more than the
    sample count [int(press * 10)] of the press threshold. *)
Theorem window_length_bound (size wait : nat) (s : string) (b : bool)
    (pins : list bool) :
  (1 <= size)%nat ->
  (exists front,
      s = (front ++ Misc.last_chars size s)%string
      /\ Misc.next_window size s b = (Misc.last_chars size s ++ Misc.str_bit b)%string
      /\ String.length (Misc.next_window size s b)
         = (Nat.min size (String.length s) + 1)%nat)
  /\ Forall (fun w => (String.length w <= size + 1)%nat)
            (Misc.windows_from (Misc.pattern size wait) size EmptyString pins).
Proof.
  intros Hsize. split.
  - destruct size as [|n]; [lia|].
    destruct (string_drop_suffix (String.length s - S n) s) as (front & Hs & _).
    exists front. split; [exact Hs|]. split; [reflexivity|].
    now apply next_window_length.
  - now apply windows_from_bound.
Qed.

Lemma window_length_bound_witness :
  (1 <= 18)%nat
  /\ Forall (fun w => (String.length w <= 19)%nat)
       (Misc.windows_from (Misc.pattern 18 7) 18 EmptyString (repeat true 25)).
Proof.
  assert (H : (1 <= 18)%nat) by lia.
  split; [exact H|].
  exact (proj2 (window_length_bound 18 7 EmptyString true (repeat true 25) H)).
Defined.

(** A sample count of 0 (a press threshold below 0.1 s) is outside the
    bound: [s[-0:]] is the whole of [s], and the window only grows. *)
Remark window_untrimmed_at_zero (s : string) (b : bool) :
  String.length (Misc.next_window 0 s b) = (String.length s + 1)%nat.
Proof.
  unfold Misc.next_window, Misc.last_chars.
  now rewrite string_length_app, str_bit_length.
Qed.

(** C9 as stated fails: with the default press threshold of 1.8 s the
    sample count is 18, and the window reaches 19 characters. *)
Lemma window_exceeds_press_samples :
  Misc.key_size Misc.default_time_conf = 18%nat
  /\ exists w,
       In w (Misc.windows_from (Misc.pattern 18 7) 18 EmptyString (repeat true 19))
       /\ String.length w = 19%nat
       /\ ~ (String.length w <= Misc.key_size Misc.default_time_conf)%nat.
Proof.
  split; [reflexivity|].
  exists "1111111111111111111"%string.
  split; [vm_compute; tauto|]. split; [reflexivity|].
  vm_compute. lia.
Qed.

(** The three gestures of the default configuration. *)
Example gesture_press :
  Misc.watch_key Misc.default_time_conf (Misc.bits "1000000000000000000") []
  = [Misc.press].
Proof. reflexivity. Qed.

Example gesture_twice :
  Misc.watch_key Misc.default_time_conf (Misc.bits "1010111") [] = [Misc.twice].
Proof. reflexivity. Qed.

Example gesture_click :
  Misc.watch_key Misc.default_time_conf (Misc.bits "101111111") [] = [Misc.click].
Proof. reflexivity. Qed.

(** No pattern of the dict matches [w]. *)
Lemma first_match_none size wait w :
  Misc.first_match (Misc.pattern size wait) w = None ->
  forall k, Misc.re_match (Misc.pattern_of size wait k) w = false.
Proof.
  rewrite first_match_pattern. intros H k.
  destruct (Misc.re_match (Misc.pattern_of size wait Misc.click) w) eqn:Ec;
    [discriminate|].
  destruct (Misc.re_match (Misc.pattern_of size wait Misc.twice) w) eqn:Et;
    [discriminate|].
  destruct (Misc.re_match (Misc.pattern_of size wait Misc.press) w) eqn:Ep;
    [discriminate|].
  destruct k; assumption.
Qed.

(** C1, as the code has it. [read_key] returns on the first window that
    some pattern matches, with the first pattern of the dict that matches
    it: click before twice, twice before press. A window that matches both
    press and click is classified as click. It is still polling at the end
    of the samples only when no pattern matched any window. *)
Theorem read_key_precedence (size wait : nat) (pins : list bool) :
  let windows := Misc.windows_from (Misc.pattern size wait) size EmptyString pins in
  match Misc.read_key (Misc.pattern size wait) size pins with
  | Some (t, rest) =>
      exists ws w,
        windows = ws ++ [w]
        /\ List.length pins = (List.length ws + 1 + List.length rest)%nat
        /\ Forall (fun w' => forall k,
                     Misc.re_match (Misc.pattern_of size wait k) w' = false) ws
        /\ Misc.re_match (Misc.pattern_of size wait t) w = true
        /\ (Misc.re_match (Misc.pattern_of size wait Misc.click) w = true ->
            t = Misc.click)
        /\ (Misc.re_match (Misc.pattern_of size wait Misc.click) w = false ->
            Misc.re_match (Misc.pattern_of size wait Misc.twice) w = true ->
            t = Misc.twice)
        /\ (t = Misc.press ->
            Misc.re_match (Misc.pattern_of size wait Misc.click) w = false
            /\ Misc.re_match (Misc.pattern_of size wait Misc.twice) w = false)
  | None =>
      List.length windows = List.length pins
      /\ Forall (fun w => forall k,
                   Misc.re_match (Misc.pattern_of size wait k) w = false) windows
  end.
Proof.
  intros windows. unfold Misc.read_key.
  destruct (Misc.read_key_from (Misc.pattern size wait) size EmptyString pins)
    as [[t rest]|] eqn:Hread.
  - destruct (read_key_from_windows _ _ _ _ _ _ Hread)
      as (ws & w & Hws & Hnone & Hw & Hlen).
    exists ws, w. split; [exact Hws|]. split; [exact Hlen|]. split.
    + eapply List.Forall_impl; [|exact Hnone]. intros w' Hw'.
      now apply first_match_none.
    + rewrite first_match_pattern in Hw.
      destruct (Misc.re_match (Misc.pattern_of size wait Misc.click) w) eqn:Ec.
      { injection Hw as <-. repeat split; try assumption; try reflexivity;
          discriminate. }
      destruct (Misc.re_match (Misc.pattern_of size wait Misc.twice) w) eqn:Et.
      { injection Hw as <-. repeat split; try assumption; try reflexivity;
          discriminate. }
      destruct (Misc.re_match (Misc.pattern_of size wait Misc.press) w) eqn:Ep;
        [|discriminate].
      injection Hw as <-. repeat split; try assumption; try reflexivity;
        discriminate.
  - destruct (read_key_from_polling _ _ _ _ Hread) as [Hall Hlen].
    split; [exact Hlen|].
    eapply List.Forall_impl; [|exact Hall]. intros w Hw.
    now apply first_match_none.
Qed.

Lemma read_key_precedence_witness :
  Misc.re_match (Misc.pattern_of 18 7 Misc.click) "1011111110111111111" = true
  /\ Misc.read_key (Misc.pattern 18 7) 18 (Misc.bits "01011111110111111111")
     = Some (Misc.click, [])
  /\ exists ws,
       Misc.windows_from (Misc.pattern 18 7) 18 EmptyString
         (Misc.bits "01011111110111111111")
       = ws ++ ["1011111110111111111"%string]
       /\ List.length ws = 19%nat.
Proof.
  split; [reflexivity|]. split; [reflexivity|].
  pose proof (read_key_precedence 18 7 (Misc.bits "01011111110111111111")) as H.
  change (Misc.read_key (Misc.pattern 18 7) 18 (Misc.bits "01011111110111111111"))
    with (Some (Misc.click, @nil bool)) in H.
  destruct H as (ws & w & Hws & Hlen & _).
  exists ws.
  assert (Hw : w = "1011111110111111111"%string).
  { apply (f_equal (fun l => List.last l EmptyString)) in Hws.
    rewrite last_last in Hws. rewrite <- Hws. reflexivity. }
  subst w. split; [exact Hws|]. simpl in Hlen. lia.
Defined.

(** C1 as stated fails. Under the default thresholds the window
    1011111110111111111 matches both twice and click, and [read_key]
    returns click. With a click threshold below 0.1 s (wait = 0) and a press
    threshold of 0.2 s the window 100 matches both press and click, and
    [read_key] returns click. *)
Lemma read_key_click_first :
  (Misc.re_match (Misc.pattern_of 18 7 Misc.twice) "1011111110111111111" = true
   /\ Misc.re_match (Misc.pattern_of 18 7 Misc.click) "1011111110111111111" = true
   /\ Misc.watch_key Misc.default_time_conf (Misc.bits "01011111110111111111") []
      = [Misc.click])
  /\ (Misc.re_match (Misc.pattern_of 2 0 Misc.press) "100" = true
      /\ Misc.re_match (Misc.pattern_of 2 0 Misc.click) "100" = true
      /\ Misc.windows_from (Misc.pattern 2 0) 2 EmptyString (Misc.bits "0100")
         = ["0"; "01"; "010"; "100"]%string
      /\ Misc.read_key (Misc.pattern 2 0) 2 (Misc.bits "0100")
         = Some (Misc.click, [])).
Proof. repeat split; reflexivity. Qed.

(** ** The display timers *)

Section Timers.
Import Oled.

Lemma wait_next_keeps fuel w w' :
  wait_next fuel w = Some w' ->
  display_queue w' = display_queue w /\ next_time w' = next_time w
  /\ refresh_time w' = refresh_time w.
Proof.
  revert w. induction fuel as [|fuel IH]; intros w; simpl; [discriminate|].
  destruct (Qlt_le_dec (clock w) (next_time w)).
  - intros H. destruct (IH _ H) as (Hq & Hn & Hr). simpl in *. auto.
  - intros [= <-]. auto.
Qed.

Lemma sleeps_keeps k w :
  display_queue (sleeps k w) = display_queue w
  /\ next_time (sleeps k w) = next_time w
  /\ refresh_time (sleeps k w) = refresh_time w.
Proof.
  revert w. induction k as [|k IH]; intros w; simpl; [auto|].
  destruct (IH (sleep (1 # 10) w)) as (Hq & Hn & Hr). simpl in *. auto.
Qed.

Lemma inject_nat_succ (k : nat) :
  inject_Z (Z.of_nat (S k)) == inject_Z (Z.of_nat k) + 1.
Proof. rewrite Nat2Z.inj_succ. unfold Z.succ. now rewrite inject_Z_plus. Qed.

Lemma sleeps_clock k w :
  clock (sleeps k w) == clock w + inject_Z (Z.of_nat k) * (1 # 10).
Proof.
  revert w. induction k as [|k IH]; intros w.
  - simpl. ring.
  - change (sleeps (S k) w) with (sleeps k (sleep (1 # 10) w)).
    rewrite IH, inject_nat_succ. simpl. ring.
Qed.

(** The wait loop sleeps exactly [k] times when the deadline is reached
    after [k] sleeps and not before. *)
Lemma wait_next_sleeps k fuel w :
  (k < fuel)%nat ->
  next_time w <= clock w + inject_Z (Z.of_nat k) * (1 # 10) ->
  (forall j, (j < k)%nat -> clock w + inject_Z (Z.of_nat j) * (1 # 10) < next_time w) ->
  wait_next fuel w = Some (sleeps k w).
Proof.
  revert fuel w. induction k as [|k IH]; intros fuel w Hfuel Hreach Hbefore.
  - destruct fuel as [|fuel]; [lia|]. simpl.
    destruct (Qlt_le_dec (clock w) (next_time w)); [|reflexivity].
    change (inject_Z (Z.of_nat 0)) with 0 in Hreach. lra.
  - destruct fuel as [|fuel]; [lia|]. simpl.
    destruct (Qlt_le_dec (clock w) (next_time w)) as [_|Hge].
    + apply IH; [lia| |].
      * rewrite inject_nat_succ in Hreach. simpl. lra.
      * intros j Hj. specialize (Hbefore (S j) ltac:(lia)).
        rewrite inject_nat_succ in Hbefore. simpl. lra.
    + specialize (Hbefore 0%nat ltac:(lia)).
      change (inject_Z (Z.of_nat 0)) with 0 in Hbefore. lra.
Qed.

(** [ticks d] is the least number of 0.1 s sleeps that cover [d]. *)
Lemma ticks_cover d : d <= inject_Z (Z.of_nat (ticks d)) * (1 # 10).
Proof.
  unfold ticks. pose proof (Qle_ceiling (d * 10)) as Hc.
  destruct (Z_le_gt_dec 0 (Qceiling (d * 10))) as [Hpos|Hneg].
  - rewrite Z2Nat.id by assumption. lra.
  - assert (Hz : Z.to_nat (Qceiling (d * 10)) = 0%nat) by lia.
    rewrite Hz. change (inject_Z (Z.of_nat 0)) with 0.
    assert (inject_Z (Qceiling (d * 10)) <= 0).
    { rewrite <- (Zle_Qle _ 0). lia. }
    lra.
Qed.

Lemma ticks_least d j :
  (j < ticks d)%nat -> inject_Z (Z.of_nat j) * (1 # 10) < d.
Proof.
  unfold ticks. intros Hj. pose proof (Qceiling_lt (d * 10)) as Hc.
  assert (Hle : (Z.of_nat j <= Qceiling (d * 10) - 1)%Z) by lia.
  rewrite Zle_Qle in Hle. lra.
Qed.

Variable c : slider_conf.

(** One turn of the auto-slider loop. *)
Lemma auto_slider_round fuel w :
  slider_auto c = true ->
  ~ slider_time c == 0 ->
  (ticks (slider_time c) < fuel)%nat ->
  auto_slider_loop (S fuel) c w = auto_slider_loop fuel c (slider_round c w).
Proof.
  intros Hauto Hd Hfuel. simpl. rewrite Hauto.
  unfold get_slider_sleep_duration.
  apply truthy_true in Hd. rewrite Hd.
  rewrite (wait_next_sleeps (ticks (slider_time c))); [reflexivity|assumption| |].
  - simpl. pose proof (ticks_cover (slider_time c)). lra.
  - intros j Hj. simpl. pose proof (ticks_least _ _ Hj). lra.
Qed.

Lemma auto_slider_rounds n fuel w :
  slider_auto c = true ->
  ~ slider_time c == 0 ->
  (ticks (slider_time c) < fuel)%nat ->
  auto_slider_loop (n + fuel) c w = auto_slider_loop fuel c (slider_rounds n c w).
Proof.
  intros Hauto Hd Hfuel. revert w. induction n as [|n IH]; intros w; [reflexivity|].
  change (S n + fuel)%nat with (S (n + fuel)).
  rewrite auto_slider_round by (assumption || lia). apply IH.
Qed.

Lemma slider_round_spec w :
  display_queue (slider_round c w) = display_queue w ++ [true]
  /\ clock (slider_round c w)
     == clock w + inject_Z (Z.of_nat (ticks (slider_time c))) * (1 # 10)
  /\ refresh_time (slider_round c w) = refresh_time w.
Proof.
  unfold slider_round. simpl.
  destruct (sleeps_keeps (ticks (slider_time c))
              (set_next_time (clock w + slider_time c) w)) as (Hq & _ & Hr).
  rewrite Hq, Hr, sleeps_clock. simpl. repeat split; reflexivity.
Qed.

Lemma slider_rounds_spec n w :
  display_queue (slider_rounds n c w) = display_queue w ++ repeat true n
  /\ clock (slider_rounds n c w)
     == clock w + inject_Z (Z.of_nat n)
                  * (inject_Z (Z.of_nat (ticks (slider_time c))) * (1 # 10)).
Proof.
  revert w. induction n as [|n IH]; intros w.
  - simpl. split; [now rewrite app_nil_r|ring].
  - change (slider_rounds (S n) c w) with (slider_rounds n c (slider_round c w)).
    destruct (IH (slider_round c w)) as [Hq Hc].
    destruct (slider_round_spec w) as (Hq1 & Hc1 & _).
    split.
    + rewrite Hq, Hq1, <- app_assoc. reflexivity.
    + rewrite Hc, Hc1, inject_nat_succ. ring.
Qed.

(** Every message of the auto-slider loop is an advance. *)
Lemma auto_slider_loop_puts fuel w :
  exists n,
    display_queue (snd (auto_slider_loop fuel c w)) = display_queue w ++ repeat true n.
Proof.
  revert w. induction fuel as [|fuel IH]; intros w; simpl.
  - exists 0%nat. now rewrite app_nil_r.
  - destruct (slider_auto c); [|exists 0%nat; now rewrite app_nil_r].
    destruct (truthy (get_slider_sleep_duration c)).
    + destruct (wait_next fuel _) as [w2|] eqn:Ew.
      * destruct (wait_next_keeps _ _ _ Ew) as (Hq & _).
        destruct (IH (put true w2)) as [n Hn]. exists (S n).
        rewrite Hn. simpl. rewrite Hq. simpl. now rewrite <- app_assoc.
      * exists 0%nat. simpl. now rewrite app_nil_r.
    + destruct (IH (sleep (1 # 10) w)) as [n Hn]. exists n. now rewrite Hn.
Qed.

(** With a refresh period of 0 the refresh loop returns at its first test. *)
Lemma refresh_display_off fuel w :
  get_refresh_period c == 0 ->
  refresh_display (S fuel) c w = (Returned, w)
  /\ snd (refresh_display fuel c w) = w.
Proof.
  intros Hzero. apply truthy_false in Hzero.
  split; [simpl; now rewrite Hzero|].
  destruct fuel; simpl; [reflexivity|now rewrite Hzero].
Qed.

End Timers.

Lemma ticks_tight d :
  0 < d -> inject_Z (Z.of_nat (ticks d)) * (1 # 10) < d + (1 # 10).
Proof.
  intros Hd. pose proof (ticks_cover d) as Hc.
  destruct (ticks d) as [|k] eqn:E.
  - change (inject_Z (Z.of_nat 0)) with 0 in *. lra.
  - assert (Hk : (k < ticks d)%nat) by lia.
    pose proof (ticks_least d k Hk) as Hl.
    rewrite inject_nat_succ. lra.
Qed.

(** C10. [auto_slider] puts one advance message on the queue before it
    tests whether auto-advance is configured (and every message it puts
    after that is an advance too); with auto-advance off it returns at that
    test, the queue holding this one message more and nothing else. *)
Theorem auto_slider_initial_message (fuel : nat) (c : Oled.slider_conf)
    (w : Oled.shared) :
  (exists n,
     Oled.display_queue (snd (Oled.auto_slider fuel c w))
     = Oled.display_queue w ++ true :: repeat true n)
  /\ (Oled.slider_auto c = false ->
      Oled.auto_slider (S fuel) c w
      = (Oled.Returned, Oled.put true (Oled.set_next_time (Oled.clock w + 10) w))
      /\ Oled.display_queue (snd (Oled.auto_slider (S fuel) c w))
         = Oled.display_queue w ++ [true]).
Proof.
  split.
  - unfold Oled.auto_slider.
    destruct (auto_slider_loop_puts c fuel
                (Oled.put true (Oled.set_next_time (Oled.clock w + 10) w))) as [n Hn].
    exists n. rewrite Hn. simpl. now rewrite <- app_assoc.
  - intros Hoff. unfold Oled.auto_slider. simpl. rewrite Hoff. split; reflexivity.
Qed.

Lemma auto_slider_initial_message_witness :
  Oled.slider_auto manual_conf = false
  /\ Oled.auto_slider 5 manual_conf (shared_at 0)
     = (Oled.Returned, Oled.put true (Oled.set_next_time (0 + 10) (shared_at 0)))
  /\ Oled.display_queue (snd (Oled.auto_slider 5 manual_conf (shared_at 0))) = [true].
Proof.
  split; [reflexivity|].
  exact (proj2 (auto_slider_initial_message 4 manual_conf (shared_at 0)) eq_refl).
Defined.

(** C4. With a refresh period of 0 the refresh loop returns at its first
    test and puts nothing on the queue. The auto-slider loop does not read
    the refresh period: with auto-advance on and a slider period [d > 0],
    after its initial message it puts one advance message per round, the
    rounds [ticks d] sleeps of 0.1 s apart, which is [d] rounded up to the
    polling step. *)
Theorem refresh_zero_slider_runs (c : Oled.slider_conf) (w : Oled.shared)
    (n fuel : nat) :
  Oled.get_refresh_period c == 0 ->
  Oled.slider_auto c = true ->
  0 < Oled.slider_time c ->
  (ticks (Oled.slider_time c) < fuel)%nat ->
  let w0 := Oled.put true (Oled.set_next_time (Oled.clock w + 10) w) in
  let period := inject_Z (Z.of_nat (ticks (Oled.slider_time c))) * (1 # 10) in
  Oled.refresh_display (S fuel) c w = (Oled.Returned, w)
  /\ (forall f, snd (Oled.refresh_display f c w) = w)
  /\ Oled.auto_slider (n + fuel) c w
     = Oled.auto_slider_loop fuel c (slider_rounds n c w0)
  /\ Oled.display_queue (slider_rounds n c w0)
     = Oled.display_queue w ++ true :: repeat true n
  /\ Oled.clock (slider_rounds n c w0) == Oled.clock w + inject_Z (Z.of_nat n) * period
  /\ (Oled.slider_time c <= period /\ period < Oled.slider_time c + (1 # 10))
  /\ (exists m,
        Oled.display_queue (snd (Oled.auto_slider (n + fuel) c w))
        = Oled.display_queue w ++ true :: repeat true (n + m)).
Proof.
  intros Hzero Hauto Hd Hfuel w0 period.
  assert (Hd0 : ~ Oled.slider_time c == 0) by (intros E; rewrite E in Hd; lra).
  destruct (slider_rounds_spec c n w0) as [Hq Hc].
  assert (Hrun : Oled.auto_slider (n + fuel) c w
                 = Oled.auto_slider_loop fuel c (slider_rounds n c w0)).
  { unfold Oled.auto_slider. fold w0. now apply auto_slider_rounds. }
  split; [apply (refresh_display_off c fuel w Hzero)|].
  split; [intros f; apply (refresh_display_off c f w Hzero)|].
  split; [exact Hrun|].
  split; [rewrite Hq; unfold w0; simpl; now rewrite <- app_assoc|].
  split; [rewrite Hc; unfold w0; simpl; reflexivity|].
  split; [split; [apply ticks_cover|now apply ticks_tight]|].
  destruct (auto_slider_loop_puts c fuel (slider_rounds n c w0)) as [m Hm].
  exists m. rewrite Hrun, Hm, Hq. unfold w0. simpl.
  rewrite <- !app_assoc. simpl. now rewrite repeat_app.
Qed.

Lemma refresh_zero_slider_runs_witness :
  Oled.get_refresh_period quick_conf == 0
  /\ Oled.slider_auto quick_conf = true
  /\ 0 < Oled.slider_time quick_conf
  /\ (ticks (Oled.slider_time quick_conf) < 4)%nat
  /\ Oled.refresh_display 5 quick_conf (shared_at 0) = (Oled.Returned, shared_at 0)
  /\ Oled.display_queue
       (slider_rounds 2 quick_conf
          (Oled.put true (Oled.set_next_time (0 + 10) (shared_at 0))))
     = [true; true; true].
Proof.
  assert (H0 : Oled.get_refresh_period quick_conf == 0) by reflexivity.
  assert (H1 : Oled.slider_auto quick_conf = true) by reflexivity.
  assert (H2 : 0 < Oled.slider_time quick_conf) by reflexivity.
  assert (H3 : (ticks (Oled.slider_time quick_conf) < 4)%nat) by (vm_compute; lia).
  destruct (refresh_zero_slider_runs quick_conf (shared_at 0) 2 4 H0 H1 H2 H3)
    as (Hr & _ & _ & Hq & _).
  repeat (split; [assumption|]). exact Hq.
Defined.

(** ** The display consumer *)

Section Consumer.
Import Oled.

Lemma draw_all_image items p :
  image (fold_left (fun acc i => draw_text i acc) items p) = image p ++ items
  /\ frames (fold_left (fun acc i => draw_text i acc) items p) = frames p
  /\ printed (fold_left (fun acc i => draw_text i acc) items p) = printed p.
Proof.
  revert p. induction items as [|i items IH]; intros p; simpl.
  - now rewrite app_nil_r.
  - destruct (IH (draw_text i p)) as (Hi & Hf & Hp).
    rewrite Hi, Hf, Hp. simpl. now rewrite <- app_assoc.
Qed.

(** A render whose text generation worked shows the page's text. *)
Lemma render_ok items p :
  frames (render (Ok items) p) = frames p ++ [image p ++ items]
  /\ printed (render (Ok items) p) = printed p
  /\ image (render (Ok items) p) = [].
Proof.
  unfold render, disp_show. simpl.
  destruct (draw_all_image items p) as (-> & -> & ->). auto.
Qed.

(** The off-screen image is clear between two messages. *)
Lemma display_step_clears c e gpt action k w p r k' w' p' :
  image p = [] ->
  display_step c e gpt action (k, w, p) = (r, (k', w', p')) ->
  image p' = [].
Proof.
  intros Hclear. unfold display_step.
  destruct (select action (refill e k) k) as [[pg|]|ex]; intros [= <- <- <- <-];
    try assumption.
  unfold render. reflexivity.
Qed.

End Consumer.

(** C3, as the code has it. When the text generation of the page to show
    raises, the consumer prints the exception, draws none of the page's
    text, and still calls [disp_show()]: the panel receives the off-screen
    image as it was before the message (blank, when it was clear), and the
    loop goes on with the next message. *)
Theorem render_error_still_shows (c : Oled.slider_conf) (e : Oled.page_env)
    (get_page_text : Oled.page -> bool -> result (list Oled.item))
    (action : bool) (q : list bool) (k : Oled.consumer) (w : Oled.shared)
    (p : Oled.panel) (pg : Oled.page) (ex : exn) (fuel : nat) :
  Oled.display_queue w = action :: q ->
  Oled.select action (Oled.refill e k) k = Ok (Some pg) ->
  get_page_text pg action = Raise ex ->
  exists k' w' p',
    Oled.display_step c e get_page_text action (k, Oled.set_queue q w, p)
    = (Ok tt, (k', w', p'))
    /\ Oled.display_process (S fuel) c e get_page_text (k, w, p)
       = Oled.display_process fuel c e get_page_text (k', w', p')
    /\ Oled.printed p' = Oled.printed p ++ [ex]
    /\ Oled.frames p' = Oled.frames p ++ [Oled.image p]
    /\ Oled.image p' = []
    /\ Oled.display_queue w' = q.
Proof.
  intros Hq Hsel Hraise.
  assert (Hstep : Oled.display_step c e get_page_text action (k, Oled.set_queue q w, p)
    = (Ok tt,
       ({| Oled.last_page := Some pg;
           Oled.display_list := if action then tl (Oled.refill e k) else Oled.refill e k |},
        Oled.set_refresh_time
          (Oled.clock (if action
                       then Oled.set_next_time
                              (Oled.clock (Oled.set_queue q w)
                               + Oled.get_slider_sleep_duration c) (Oled.set_queue q w)
                       else Oled.set_queue q w)
           + Oled.get_refresh_period c)
          (if action
           then Oled.set_next_time
                  (Oled.clock (Oled.set_queue q w)
                   + Oled.get_slider_sleep_duration c) (Oled.set_queue q w)
           else Oled.set_queue q w),
        Oled.disp_show (Oled.print ex p)))).
  { unfold Oled.display_step. rewrite Hsel, Hraise. reflexivity. }
  eexists _, _, _. split; [exact Hstep|].
  split.
  { cbn [Oled.display_process]. unfold Oled.take_message. rewrite Hq, Hstep.
    reflexivity. }
  simpl. repeat split. destruct action; reflexivity.
Qed.

Lemma render_error_still_shows_witness :
  Oled.display_queue (Oled.put true (shared_at 0)) = [true]
  /\ Oled.select true (Oled.refill bare_env Oled.consumer_init) Oled.consumer_init
     = Ok (Some Oled.General_system_info_page0)
  /\ text_fails Oled.General_system_info_page0 true
     = Raise (OtherError "Command returned non-zero exit status 1")
  /\ exists k' w' p',
       Oled.display_process 1 Oled.default_slider_conf bare_env text_fails
         (Oled.consumer_init, Oled.put true (shared_at 0), Oled.blank)
       = (Ok tt, (k', w', p'))
       /\ Oled.frames p' = [[]]
       /\ Oled.printed p' = [OtherError "Command returned non-zero exit status 1"].
Proof.
  split; [reflexivity|]. split; [reflexivity|]. split; [reflexivity|].
  destruct (render_error_still_shows Oled.default_slider_conf bare_env text_fails
              true [] Oled.consumer_init (Oled.put true (shared_at 0)) Oled.blank
              Oled.General_system_info_page0
              (OtherError "Command returned non-zero exit status 1") 0
              eq_refl eq_refl eq_refl)
    as (k' & w' & p' & _ & Hloop & Hprinted & Hframes & _).
  exists k', w', p'. split; [exact Hloop|]. split; [exact Hframes|exact Hprinted].
Defined.

(** C3 as stated fails: a refresh whose text generation raises still
    writes to the panel, replacing the page shown by a blank frame. *)
Lemma failed_render_writes_blank_frame :
  Oled.frames (snd after_first_page) = [[uptime_line]]
  /\ Oled.select false (Oled.refill bare_env (fst (fst after_first_page)))
       (fst (fst after_first_page))
     = Ok (Some Oled.General_system_info_page0)
  /\ text_fails Oled.General_system_info_page0 false
     = Raise (OtherError "Command returned non-zero exit status 1")
  /\ Oled.frames
       (snd (snd (Oled.display_step Oled.default_slider_conf bare_env text_fails
                    false after_first_page)))
     = [[uptime_line]; []].
Proof. repeat split; reflexivity. Qed.

(** * Further properties of the code *)

(** ** The fan curve and the fan loop *)

(** The range of the curve, both modes. *)
Lemma fan_temp2dc_range (c : Misc.fan_conf) (t : Q) :
  10 <= Misc.fan_temp2dc c t <= 100.
Proof.
  destruct (Misc.fan_linear c) eqn:Hmode.
  - rewrite (fan_temp2dc_linear_eq c t Hmode). split.
    + apply py_min_glb; [lra|].
      pose proof (py_max_ge_r (Misc.linear_slope c * (t - Misc.fan_lv0 c) + 25) 25). lra.
    + apply py_min_le_l.
  - unfold Misc.fan_temp2dc. rewrite Hmode.
    destruct (Misc.scan_levels c t Misc.lv2dc) as [dc|] eqn:E; [|split; lra].
    destruct (scan_levels_In _ _ _ _ E) as [lv Hin].
    unfold Misc.lv2dc in Hin. simpl in Hin.
    destruct Hin as [[= _ <-]|[[= _ <-]|[[= _ <-]|[[= _ <-]|[]]]]]; split; lra.
Qed.

(** X1. In either mode the duty cycle of the curve lies between 10 and
    100: the curve never asks for a stopped fan. *)
Theorem fan_temp2dc_bounds (c : Misc.fan_conf) (t : Q) :
  10 <= Misc.fan_temp2dc c t /\ Misc.fan_temp2dc c t <= 100.
Proof. exact (fan_temp2dc_range c t). Qed.

(** X2. In linear mode the duty cycle does not decrease when the
    temperature rises, and between lv0 and lv3 (lv3 above lv0) it is the
    straight line from 25 at lv0 to 100 at lv3. *)
Theorem fan_temp2dc_linear_interpolates (c : Misc.fan_conf) (t t' : Q) :
  Misc.fan_linear c = true ->
  t <= t' ->
  Misc.fan_temp2dc c t <= Misc.fan_temp2dc c t'
  /\ (Misc.fan_lv0 c < Misc.fan_lv3 c ->
      Misc.fan_lv0 c <= t -> t <= Misc.fan_lv3 c ->
      Misc.fan_temp2dc c t
      == 25 + 75 * (t - Misc.fan_lv0 c) / (Misc.fan_lv3 c - Misc.fan_lv0 c)).
Proof.
  intros Hmode Hle. rewrite !(fan_temp2dc_linear_eq c) by assumption.
  pose proof (linear_slope_nonneg c) as Hs. split.
  - assert (Misc.linear_slope c * (t - Misc.fan_lv0 c)
            <= Misc.linear_slope c * (t' - Misc.fan_lv0 c)) by nra.
    unfold py_min, py_max. repeat destruct Qlt_le_dec; lra.
  - intros Hspan Hlow Hhigh. pose proof (linear_slope_span c Hspan) as H75.
    assert (Hline : Misc.linear_slope c * (t - Misc.fan_lv0 c)
                    == 75 * (t - Misc.fan_lv0 c) / (Misc.fan_lv3 c - Misc.fan_lv0 c)).
    { unfold Misc.linear_slope. simpl.
      destruct (Qlt_le_dec 0 (Misc.fan_lv3 c - Misc.fan_lv0 c)); [|lra].
      field. lra. }
    assert (0 <= Misc.linear_slope c * (t - Misc.fan_lv0 c)) by nra.
    assert (Misc.linear_slope c * (t - Misc.fan_lv0 c) <= 75) by nra.
    rewrite <- Hline.
    unfold py_min, py_max. repeat destruct Qlt_le_dec; lra.
Qed.

Lemma fan_temp2dc_linear_interpolates_witness :
  Misc.fan_linear linear_conf = true
  /\ 38 <= 41
  /\ Misc.fan_temp2dc linear_conf 38 <= Misc.fan_temp2dc linear_conf 41
  /\ Misc.fan_temp2dc linear_conf 38 == 40.
Proof.
  assert (H : 38 <= 41) by discriminate.
  destruct (fan_temp2dc_linear_interpolates linear_conf 38 41 eq_refl H) as [Hm Hl].
  split; [reflexivity|]. split; [exact H|]. split; [exact Hm|].
  rewrite Hl; [reflexivity|reflexivity|discriminate|discriminate].
Defined.

Section FanSafety.
Import Fan.

Variable c : Misc.fan_conf.

(** What [get_dc] hands to [change_dc]: 0.1 with the fan switched off, the
    cached value of the curve otherwise. *)
Lemma get_dc_value (i : poll) (cache : dc_cache) dc cache' evs :
  (match cache_dc cache with Some d => 10 <= d /\ d <= 100 | None => True end) ->
  get_dc c i cache = (Ok dc, cache', evs) ->
  (dc = 1 # 10 \/ (10 <= dc /\ dc <= 100))
  /\ match cache_dc cache' with Some d => 10 <= d /\ d <= 100 | None => True end.
Proof.
  intros Hinv. unfold get_dc. destruct (fan_running i); simpl.
  - destruct (Qlt_le_dec 5 (now_check i - default 0 (cache_time cache))).
    + simpl. intros [= <- <- <-]. simpl.
      pose proof (fan_temp2dc_range c (cpu_temp i)). tauto.
    + destruct (cache_dc cache) as [d|] eqn:Ed; [|discriminate].
      intros [= <- <- <-]. rewrite Ed. tauto.
  - intros [= <- <- <-]. tauto.
Qed.

Lemma get_dc_raise_keeps (i : poll) (cache : dc_cache) e cache' evs :
  get_dc c i cache = (Raise e, cache', evs) -> cache' = cache /\ evs = [].
Proof.
  unfold get_dc. destruct (fan_running i); simpl; [|discriminate].
  destruct (Qlt_le_dec 5 (now_check i - default 0 (cache_time cache))).
  - simpl. discriminate.
  - destruct (cache_dc cache); [discriminate|]. intros [= <- <-]. auto.
Qed.

Lemma tick_ratios (i : poll) (st st' : fan_state) r evs :
  cache_on_curve st ->
  tick c i st = (r, st', evs) ->
  cache_on_curve st'
  /\ Forall (fun x => 0 <= x /\ x <= 999 # 1000) (written evs).
Proof.
  unfold cache_on_curve, tick. intros Hinv.
  destruct (get_dc c i (get_cache st)) as [[rg cache'] evg] eqn:Eg.
  destruct rg as [dc|e].
  - destruct (get_dc_value _ _ _ _ _ Hinv Eg) as [Hdc Hinv'].
    assert (Hw : written evg = []).
    { apply get_dc_computes in Eg. destruct Eg as [[-> _]|(_ & _ & -> & _)]; reflexivity. }
    unfold change_dc. destruct (differs dc (change_cache st));
      intros [= <- <- <-]; simpl; (split; [exact Hinv'|]);
      unfold written in *; rewrite flat_map_app, Hw; simpl; [|constructor].
    constructor; [|constructor].
    assert (E : dc == (1 - (1 - dc / 100)) * 100) by field.
    destruct Hdc as [->|[Hlo Hhi]]; [split; reflexivity || discriminate|].
    set (x := 1 - dc / 100) in *. split; lra.
  - destruct (get_dc_raise_keeps _ _ _ _ _ Eg) as [-> ->].
    intros [= <- <- <-]. simpl. split; [exact Hinv|constructor].
Qed.

Lemma tick_usable (i : poll) (st st' : fan_state) r evs :
  cache_usable st ->
  5 < now_check i ->
  tick c i st = (r, st', evs) ->
  r = Ok tt /\ cache_usable st'.
Proof.
  unfold cache_usable, tick, get_dc. intros Hinv Hclock.
  destruct (fan_running i); simpl.
  - destruct (Qlt_le_dec 5 (now_check i - default 0 (cache_time (get_cache st))))
      as [Hgt|Hle]; simpl.
    + destruct (change_dc _ _). intros [= <- <- <-]. simpl.
      split; [reflexivity|]. left. discriminate.
    + destruct (cache_dc (get_cache st)) as [d|] eqn:Ed.
      * destruct (change_dc _ _). intros [= <- <- <-]. simpl.
        split; [reflexivity|]. left. rewrite Ed. discriminate.
      * destruct Hinv as [Hinv|Hinv]; [congruence|].
        rewrite Hinv in Hle. simpl in Hle. lra.
  - destruct (change_dc _ _). intros [= <- <- <-]. simpl. auto.
Qed.

End FanSafety.

(** X3. Whatever the polls are, every off ratio the fan loop writes to the
    PWM pin lies between 0 and 0.999: the fan is never commanded fully
    off, neither by the curve nor when it is switched off. *)
Theorem pwm_never_fully_off (c : Misc.fan_conf) (polls : list Fan.poll) :
  Forall (fun r => 0 <= r /\ r <= 999 # 1000)
         (written (snd (Fan.running c polls Fan.fan_init))).
Proof.
  assert (Hgen : forall st, cache_on_curve st ->
            Forall (fun r => 0 <= r /\ r <= 999 # 1000)
                   (written (snd (Fan.running c polls st)))).
  { induction polls as [|i polls IH]; intros st Hinv; simpl; [constructor|].
    destruct (Fan.tick c i st) as [[rt st1] ev1] eqn:Et.
    destruct (tick_ratios c i st st1 rt ev1 Hinv Et) as [Hinv1 Hw1].
    destruct rt as [[]|e]; simpl; [|exact Hw1].
    specialize (IH st1 Hinv1).
    destruct (Fan.running c polls st1) as [[r2 st2] ev2]. simpl in *.
    unfold written in *. rewrite flat_map_app. apply Forall_app. auto. }
  apply Hgen. exact I.
Qed.

(** X4. From an empty cache the fan loop raises only at a poll that finds
    the fan on while the clock reads 5 seconds or less: with readings
    above 5 it never raises, and that first poll raises KeyError. *)
Theorem running_raises_only_at_epoch (c : Misc.fan_conf) (polls : list Fan.poll)
    (i : Fan.poll) :
  (Forall (fun j => 5 < Fan.now_check j) polls ->
   fst (fst (Fan.running c polls Fan.fan_init)) = Ok tt)
  /\ (Fan.fan_running i = true -> Fan.now_check i <= 5 ->
      Fan.running c (i :: polls) Fan.fan_init
      = (Raise (KeyError "dc"), Fan.fan_init, [])).
Proof.
  split.
  - assert (Hgen : forall st, cache_usable st ->
              Forall (fun j => 5 < Fan.now_check j) polls ->
              fst (fst (Fan.running c polls st)) = Ok tt).
    { induction polls as [|j polls IH]; intros st Hinv Hall; simpl; [reflexivity|].
      apply Forall_cons_iff in Hall as [Hj Hall].
      destruct (Fan.tick c j st) as [[rt st1] ev1] eqn:Et.
      destruct (tick_usable c j st st1 rt ev1 Hinv Hj Et) as [-> Hinv1].
      specialize (IH st1 Hinv1 Hall).
      destruct (Fan.running c polls st1) as [[r2 st2] ev2]. exact IH. }
    apply Hgen. right. reflexivity.
  - intros Hon Hearly. simpl. unfold Fan.tick, Fan.get_dc. rewrite Hon. simpl.
    destruct (Qlt_le_dec 5 (Fan.now_check i - 0)) as [Hgt|Hle]; [lra|reflexivity].
Qed.

Lemma running_raises_only_at_epoch_witness :
  Forall (fun j => 5 < Fan.now_check j) demo_polls
  /\ fst (fst (Fan.running Misc.default_fan_conf demo_polls Fan.fan_init)) = Ok tt
  /\ Fan.running Misc.default_fan_conf (poll_at 3 40 :: demo_polls) Fan.fan_init
     = (Raise (KeyError "dc"), Fan.fan_init, []).
Proof.
  assert (H : Forall (fun j => 5 < Fan.now_check j) demo_polls).
  { repeat constructor. }
  destruct (running_raises_only_at_epoch Misc.default_fan_conf demo_polls (poll_at 3 40))
    as [Hok Hraise].
  split; [exact H|]. split; [exact (Hok H)|].
  apply Hraise; [reflexivity|discriminate].
Defined.

(** X5. With the on/off fallback in place of the PWM, the fan loop drives
    the pin high exactly for a duty cycle of 100 and low for every other
    one. *)
Theorem mock_pwm_high_only_at_full (dc : Q) :
  Fan.MockPwm_write (off_ratio dc) = true <-> dc == 100.
Proof.
  unfold Fan.MockPwm_write. rewrite negb_true_iff, truthy_false.
  assert (E : dc == (1 - off_ratio dc) * 100) by (unfold off_ratio; field).
  split; intros H.
  - rewrite H in E. rewrite E. reflexivity.
  - set (x := off_ratio dc) in *. lra.
Qed.

(** X6. [read_cpu_temp] returns the larger of the CPU temperature (in the
    display unit) and the disk average; without the disks the other value
    is 0, so the result is never negative and no poll is made; with the
    disks, they are polled exactly when the poll delay has passed. *)
Theorem read_cpu_temp_max (c : Misc.fan_conf) (e : Fan.temp_env) :
  let t_cpu := if Fan.f_temp e
               then Fan.thermal_zone0 e / 1000 * (18 # 10) + 32
               else Fan.thermal_zone0 e / 1000 in
  t_cpu <= fst (Fan.read_cpu_temp c e)
  /\ (Misc.fan_temp_disks c = false ->
      0 <= fst (Fan.read_cpu_temp c e)
      /\ snd (Fan.read_cpu_temp c e) = false
      /\ (0 <= t_cpu -> fst (Fan.read_cpu_temp c e) = t_cpu))
  /\ (Misc.fan_temp_disks c = true ->
      (snd (Fan.read_cpu_temp c e) = true
       <-> Fan.last_disk_temp_poll e + Fan.fan_poll_delay e < Fan.temp_now e)
      /\ (if snd (Fan.read_cpu_temp c e)
          then Fan.disk_temp_polled e else Fan.disk_temp_average e)
         <= fst (Fan.read_cpu_temp c e)).
Proof.
  intros t_cpu. unfold Fan.read_cpu_temp. fold t_cpu.
  destruct (Misc.fan_temp_disks c).
  - destruct (Qlt_le_dec (Fan.last_disk_temp_poll e + Fan.fan_poll_delay e)
                         (Fan.temp_now e)) as [Hdue|Hnot]; simpl.
    + split; [apply py_max_ge_l|]. split; [discriminate|]. intros _.
      split; [tauto|apply py_max_ge_r].
    + split; [apply py_max_ge_l|]. split; [discriminate|]. intros _.
      split; [|apply py_max_ge_r]. split; [discriminate|]. intros H. lra.
  - simpl. split; [apply py_max_ge_l|]. split; [|discriminate]. intros _.
    split; [apply py_max_ge_r|]. split; [reflexivity|].
    intros Hpos. unfold py_max. destruct (Qlt_le_dec t_cpu 0); [lra|reflexivity].
Qed.

Lemma read_cpu_temp_max_witness :
  Misc.fan_temp_disks Misc.default_fan_conf = false
  /\ Misc.fan_temp_disks disks_conf = true
  /\ Fan.read_cpu_temp Misc.default_fan_conf (zone_at (-3000) 500 100 41) = (0, false)
  /\ snd (Fan.read_cpu_temp disks_conf (zone_at 38000 500 100 41)) = true
  /\ 42 <= fst (Fan.read_cpu_temp disks_conf (zone_at 38000 500 100 41)).
Proof.
  split; [reflexivity|]. split; [reflexivity|]. split; [reflexivity|].
  destruct (read_cpu_temp_max disks_conf (zone_at 38000 500 100 41)) as (_ & _ & Hon).
  destruct (Hon eq_refl) as [Hpoll Hge].
  assert (Hp : snd (Fan.read_cpu_temp disks_conf (zone_at 38000 500 100 41)) = true).
  { apply Hpoll. reflexivity. }
  split; [exact Hp|]. rewrite Hp in Hge. exact Hge.
Defined.

(** ** Disk names *)

Section DiskNames.
Import Misc.

Lemma string_app_assoc (s1 s2 s3 : string) :
  ((s1 ++ s2) ++ s3)%string = (s1 ++ (s2 ++ s3))%string.
Proof.
  induction s1 as [|c s1 IH]; [reflexivity|].
  change (String c ((s1 ++ s2) ++ s3)%string = String c (s1 ++ (s2 ++ s3))%string).
  now rewrite IH.
Qed.

Lemma all_digits_app s1 s2 :
  all_digits (s1 ++ s2) = all_digits s1 && all_digits s2.
Proof.
  induction s1 as [|c s1 IH]; [reflexivity|].
  change (is_digit c && all_digits (s1 ++ s2)
          = is_digit c && all_digits s1 && all_digits s2).
  rewrite IH. apply andb_assoc.
Qed.

Lemma has_sd_cons b s :
  has_sd (String b s) = String.prefix "sd" (String b s) || has_sd s.
Proof.
  unfold has_sd. cbn [String.index].
  destruct (String.prefix "sd" (String b s)); [reflexivity|].
  destruct (String.index 0 "sd" s); reflexivity.
Qed.

(** A name that ends in a digit splits into [s[:-1]] and that digit. *)
Lemma drop_last_digit s :
  last_is_digit s = true ->
  exists c, s = (drop_last s ++ String c EmptyString)%string
            /\ is_digit c = true
            /\ S (String.length (drop_last s)) = String.length s.
Proof.
  induction s as [|b s IH]; [discriminate|].
  destruct s as [|b' s'].
  - simpl. intros H. exists b. auto.
  - intros H. change (last_is_digit (String b' s') = true) in H.
    destruct (IH H) as (c & Hs & Hc & Hlen). exists c.
    change (drop_last (String b (String b' s')))
      with (String b (drop_last (String b' s'))).
    split; [|split; [exact Hc|simpl in *; lia]].
    change (String b (String b' s')
            = String b (drop_last (String b' s') ++ String c EmptyString)%string).
    now rewrite <- Hs.
Qed.

Lemma prefix_sd b s :
  String.prefix "sd" (String b s) = true ->
  exists s', String b s = String "s" (String "d" s').
Proof.
  destruct s as [|b' s']; cbn [String.prefix];
    destruct (ascii_dec "s" b) as [<-|]; try discriminate.
  destruct (ascii_dec "d" b') as [<-|]; [|discriminate]. intros _. eauto.
Qed.

(** Cutting a final digit does not remove an "sd". *)
Lemma has_sd_drop_last s :
  last_is_digit s = true -> has_sd s = true -> has_sd (drop_last s) = true.
Proof.
  induction s as [|b s IH]; [discriminate|].
  destruct s as [|b' s'].
  - intros _ H. rewrite has_sd_cons in H.
    destruct (String.prefix "sd" (String b EmptyString)) eqn:E; [|discriminate H].
    apply prefix_sd in E as [s' [= _ ?]].
  - intros Hd H. change (last_is_digit (String b' s') = true) in Hd.
    change (drop_last (String b (String b' s')))
      with (String b (drop_last (String b' s'))).
    rewrite has_sd_cons in H. rewrite has_sd_cons.
    destruct (has_sd (String b' s')) eqn:Hrest.
    + rewrite (IH Hd eq_refl). apply orb_true_r.
    + rewrite orb_false_r in H.
      apply prefix_sd in H as [s'' [= -> -> ->]].
      destruct s'' as [|b'' s'']; [discriminate Hd|].
      change (drop_last (String "d" (String b'' s'')))
        with (String "d" (drop_last (String b'' s''))).
      assert (Hp : forall y, String.prefix "sd" (String "s" (String "d" y)) = true)
        by (intros []; reflexivity).
      now rewrite Hp.
Qed.

Lemma strip_partition_stops fuel s :
  has_sd s && last_is_digit s = false -> strip_partition fuel s = s.
Proof. intros H. destruct fuel; simpl; [reflexivity|]. now rewrite H. Qed.

Lemma strip_partition_spec fuel s :
  (String.length s <= fuel)%nat ->
  (exists digits, s = (strip_partition fuel s ++ digits)%string
                  /\ all_digits digits = true)
  /\ has_sd (strip_partition fuel s) = has_sd s
  /\ has_sd (strip_partition fuel s) && last_is_digit (strip_partition fuel s) = false.
Proof.
  revert s. induction fuel as [|fuel IH]; intros s Hlen.
  - destruct s; [|simpl in Hlen; lia]. simpl.
    split; [exists EmptyString; auto|]. split; reflexivity.
  - simpl. destruct (has_sd s && last_is_digit s) eqn:Hgo.
    + apply andb_true_iff in Hgo as [Hsd Hdig].
      destruct (drop_last_digit s Hdig) as (c & Hs & Hc & Hl).
      destruct (IH (drop_last s) ltac:(lia)) as ((digits & Hd & Hall) & Hkeep & Hstop).
      split; [|split; [|exact Hstop]].
      * exists (digits ++ String c EmptyString)%string. split.
        -- rewrite <- string_app_assoc, <- Hd. exact Hs.
        -- rewrite all_digits_app, Hall. simpl. now rewrite Hc.
      * rewrite Hkeep, Hsd. now apply has_sd_drop_last.
    + split; [|split; [reflexivity|exact Hgo]].
      exists EmptyString. split; [now rewrite string_app_empty|reflexivity].
Qed.

End DiskNames.

Lemma delete_disk_partition_number_idem (disk : string) :
  Misc.delete_disk_partition_number (Misc.delete_disk_partition_number disk)
  = Misc.delete_disk_partition_number disk.
Proof.
  unfold Misc.delete_disk_partition_number at 1 3.
  destruct (strip_partition_spec (String.length disk) disk (le_n _)) as (_ & _ & Hstop).
  now apply strip_partition_stops.
Qed.

(** X7. [delete_disk_partition_number] cuts digits off the end of a name
    and nothing else; it leaves a name without "sd" as it is, cuts a name
    with "sd" until it no longer ends in a digit, and applied to its own
    result changes nothing. *)
Theorem delete_disk_partition_number_spec (disk : string) :
  let r := Misc.delete_disk_partition_number disk in
  (exists digits, disk = (r ++ digits)%string /\ all_digits digits = true)
  /\ (Misc.has_sd disk = false -> r = disk)
  /\ (Misc.has_sd disk = true ->
      Misc.has_sd r = true /\ Misc.last_is_digit r = false)
  /\ Misc.delete_disk_partition_number r = r.
Proof.
  intros r. unfold r, Misc.delete_disk_partition_number.
  destruct (strip_partition_spec (String.length disk) disk (le_n _))
    as (Hcut & Hkeep & Hstop).
  split; [exact Hcut|]. split; [|split].
  - intros Hno. apply strip_partition_stops. now rewrite Hno.
  - intros Hsd. rewrite Hkeep, Hsd in Hstop. rewrite Hkeep, Hsd. auto.
  - apply delete_disk_partition_number_idem.
Qed.

Lemma delete_disk_partition_number_spec_witness :
  Misc.has_sd "nvme0n1" = false
  /\ Misc.has_sd "sda12" = true
  /\ Misc.delete_disk_partition_number "nvme0n1" = "nvme0n1"%string
  /\ Misc.last_is_digit (Misc.delete_disk_partition_number "sda12") = false.
Proof.
  split; [reflexivity|]. split; [reflexivity|].
  destruct (delete_disk_partition_number_spec "nvme0n1") as (_ & Hno & _).
  destruct (delete_disk_partition_number_spec "sda12") as (_ & _ & Hsd & _).
  split; [exact (Hno eq_refl)|exact (proj2 (Hsd eq_refl))].
Defined.

(** ** More on the rate sampler *)

Section SamplerMore.
Import Misc.

(** Whatever happens in it, a call of [get_disk_io_rate] leaves the sector
    size of the disk resolved. *)
Lemma get_disk_io_rate_sector disk0 hw raw s :
  let disk := delete_disk_partition_number disk0 in
  disk_sector_sizes (snd (get_disk_io_rate disk0 hw raw s)) !! disk
  = Some (sector_size_of disk hw s).
Proof.
  intros disk. rewrite get_disk_io_rate_unfold. fold disk.
  pose proof (sector_size_resolved disk hw s) as Hres.
  unfold mbind, M_bind, gets, modify, lift.
  destruct (raw_disk_io s !! disk) as [p|]; simpl; [|exact Hres].
  rewrite Hres. simpl.
  repeat match goal with
         | |- context [py_div ?a ?b] => destruct (py_div a b); simpl
         end; exact Hres.
Qed.

End SamplerMore.

(** X8. [get_disk_io_rate] reads the sector size of a disk once: when one
    is cached the size read now plays no part, after any call (also one
    that raises) the size is cached, and a partition name addresses the
    entry of its disk. *)
Theorem sector_size_read_once (disk0 : string) (hw hw' : Z) (raw : Misc.sample)
    (s : Misc.io_state) :
  let disk := Misc.delete_disk_partition_number disk0 in
  (is_Some (Misc.disk_sector_sizes s !! disk) ->
   Misc.get_disk_io_rate disk0 hw raw s = Misc.get_disk_io_rate disk0 hw' raw s)
  /\ Misc.disk_sector_sizes (snd (Misc.get_disk_io_rate disk0 hw raw s)) !! disk
     = Some (sector_size_of disk hw s)
  /\ Misc.get_disk_io_rate disk hw raw s = Misc.get_disk_io_rate disk0 hw raw s.
Proof.
  intros disk. split; [|split].
  - intros [n Hn]. rewrite !get_disk_io_rate_unfold. fold disk.
    unfold with_sector_size. now rewrite Hn.
  - apply get_disk_io_rate_sector.
  - unfold Misc.get_disk_io_rate. fold disk.
    pose proof (delete_disk_partition_number_idem disk0) as Hidem.
    fold disk in Hidem. now rewrite Hidem.
Qed.

Lemma sector_size_read_once_witness :
  is_Some (Misc.disk_sector_sizes disk_a !! Misc.delete_disk_partition_number "sda1")
  /\ Misc.get_disk_io_rate "sda1" 512 sample_b disk_a
     = Misc.get_disk_io_rate "sda1" 4096 sample_b disk_a.
Proof.
  assert (H : is_Some (Misc.disk_sector_sizes disk_a
                         !! Misc.delete_disk_partition_number "sda1")).
  { exists 512%Z. reflexivity. }
  split; [exact H|].
  exact (proj1 (sector_size_read_once "sda1" 512 4096 sample_b disk_a) H).
Defined.

(** X9. After the first sample (which returns 0 and 0), a disk sample whose
    clock moved returns the sector delta times the sector size, in bytes,
    over the elapsed time, in MB/s; a sector size of 0 makes it raise
    ZeroDivisionError before any rate is stored. *)
Theorem disk_rate_in_bytes (disk0 : string) (hw : Z) (raw p : Misc.sample)
    (s : Misc.io_state) :
  let disk := Misc.delete_disk_partition_number disk0 in
  let size := sector_size_of disk hw s in
  let elapsed := Misc.raw_time raw - Misc.raw_time p in
  Misc.raw_disk_io s !! disk = Some p ->
  ~ elapsed == 0 ->
  (size <> 0%Z ->
   exists rates s' rx tx,
     Misc.get_disk_io_rate disk0 hw raw s = (Ok rates, s')
     /\ rates !! "rx" = Some rx
     /\ rx == mb_per_s ((Misc.raw_rx raw - Misc.raw_rx p) * size) elapsed
     /\ rates !! "tx" = Some tx
     /\ tx == mb_per_s ((Misc.raw_tx raw - Misc.raw_tx p) * size) elapsed
     /\ Misc.disk_io_rate s' !! disk = Some rates
     /\ Misc.raw_disk_io s' !! disk = Some raw)
  /\ (size = 0%Z ->
      exists s',
        Misc.get_disk_io_rate disk0 hw raw s = (Raise ZeroDivisionError, s')
        /\ Misc.disk_io_rate s' = Misc.disk_io_rate s
        /\ Misc.raw_disk_io s' = Misc.raw_disk_io s).
Proof.
  intros disk size elapsed Hprev Hmoved. split.
  - intros Hsize.
    rewrite (disk_next_sample disk0 hw raw p s Hprev Hmoved Hsize).
    fold disk size elapsed.
    assert (Hs : ~ inject_Z size == 0).
    { intros E. apply Hsize. unfold Qeq in E. simpl in E. lia. }
    assert (Hbytes : forall d : Z,
              inject_Z d / elapsed / (1024 / inject_Z size) / 1024
              == mb_per_s (d * size) elapsed).
    { intros d. unfold mb_per_s. rewrite inject_Z_mult. field. split; assumption. }
    eexists _, _, _, _. split; [reflexivity|]. simpl.
    rewrite lookup_set_item, get_set_item.
    rewrite lookup_insert_ne by discriminate.
    rewrite !lookup_insert_eq.
    split; [reflexivity|]. split; [apply Hbytes|].
    split; [reflexivity|]. split; [apply Hbytes|].
    split; [|reflexivity].
    destruct (with_sector_size_keeps disk hw s) as (_ & -> & _). reflexivity.
  - intros Hzero. exists (with_sector_size disk hw s).
    destruct (with_sector_size_keeps disk hw s) as (Hraw & Hrate & _).
    split; [|auto].
    rewrite get_disk_io_rate_unfold. fold disk. rewrite Hprev.
    unfold mbind, Misc.M_bind, Misc.gets, Misc.modify, Misc.lift.
    simpl. rewrite sector_size_resolved. simpl. fold disk size elapsed.
    rewrite (py_div_ok _ _ Hmoved). simpl. rewrite Hzero.
    reflexivity.
Qed.

Lemma disk_rate_in_bytes_witness :
  Misc.raw_disk_io disk_a !! Misc.delete_disk_partition_number "sda1" = Some sample_a
  /\ ~ Misc.raw_time sample_b - Misc.raw_time sample_a == 0
  /\ sector_size_of (Misc.delete_disk_partition_number "sda1") 512 disk_a <> 0%Z
  /\ exists rates s' rx,
       Misc.get_disk_io_rate "sda1" 512 sample_b disk_a = (Ok rates, s')
       /\ rates !! "rx" = Some rx
       /\ rx == 512.
Proof.
  assert (Ha : Misc.raw_disk_io disk_a !! Misc.delete_disk_partition_number "sda1"
               = Some sample_a) by reflexivity.
  assert (Hab : ~ Misc.raw_time sample_b - Misc.raw_time sample_a == 0)
    by (intros E; discriminate E).
  assert (Hsize : sector_size_of (Misc.delete_disk_partition_number "sda1") 512 disk_a
                  <> 0%Z) by (vm_compute; discriminate).
  split; [exact Ha|]. split; [exact Hab|]. split; [exact Hsize|].
  destruct (disk_rate_in_bytes "sda1" 512 sample_b sample_a disk_a Ha Hab) as [Hok _].
  destruct (Hok Hsize) as (rates & s' & rx & tx & Hrun & Hrx & Erx & _).
  exists rates, s', rx. split; [exact Hrun|]. split; [exact Hrx|].
  rewrite Erx. reflexivity.
Defined.

(** X10. A sample of one interface touches the entries of that interface
    only: the cached samples and rates of every other interface, and
    everything the sampler holds about disks, stay as they were, whether
    the call returns or raises. *)
Theorem interface_sample_local (dev dev' : string) (raw : Misc.sample)
    (s : Misc.io_state) :
  dev' <> dev ->
  let s' := snd (Misc.get_interface_io_rate dev raw s) in
  Misc.raw_interface_io s' !! dev' = Misc.raw_interface_io s !! dev'
  /\ Misc.interface_io_rate s' !! dev' = Misc.interface_io_rate s !! dev'
  /\ Misc.raw_disk_io s' = Misc.raw_disk_io s
  /\ Misc.disk_io_rate s' = Misc.disk_io_rate s
  /\ Misc.disk_sector_sizes s' = Misc.disk_sector_sizes s.
Proof.
  intros Hne s'. unfold s'.
  destruct (Misc.raw_interface_io s !! dev) as [p|] eqn:Hprev.
  - destruct (Qeq_dec (Misc.raw_time raw - Misc.raw_time p) 0) as [Hsame|Hmoved].
    + rewrite (interface_same_instant dev raw p s Hprev Hsame). simpl. auto.
    + rewrite (interface_next_sample dev raw p s Hprev Hmoved). simpl.
      unfold Misc.set_item. rewrite !lookup_insert_ne by congruence. auto.
  - rewrite (interface_first_sample dev raw s Hprev). simpl.
    unfold Misc.set_item. rewrite !lookup_insert_ne by congruence. auto.
Qed.

Lemma interface_sample_local_witness :
  "wlan0"%string <> "eth0"%string
  /\ Misc.raw_interface_io
       (snd (Misc.get_interface_io_rate "wlan0" sample_a io_b)) !! "eth0"
     = Some sample_b.
Proof.
  assert (H : "eth0"%string <> "wlan0"%string) by discriminate.
  split; [discriminate|].
  destruct (interface_sample_local "wlan0" "eth0" sample_a io_b H) as [Hraw _].
  rewrite Hraw. reflexivity.
Defined.

(** X11. The pool sampler uses the cached sample only to tell a first call
    from a later one. A first call returns 0 and 0. A later call returns
    the counters of the command over its interval, the uptime on an advance
    and the refresh period on a refresh, whatever the cached sample holds;
    with an interval of 0 it raises ZeroDivisionError and stores nothing. *)
Theorem zpool_rate_from_interval (refresh uptime : Q) (zpool : string)
    (skip : bool) (rx tx : Z) (z : Misc.zpool_state) :
  let interval := if skip then uptime else refresh in
  let raw := {| Misc.raw_rx := rx; Misc.raw_tx := tx; Misc.raw_time := interval |} in
  (Misc.raw_zpool_io z !! zpool = None ->
   exists rates z',
     Misc.get_zpool_io_rate refresh zpool skip uptime rx tx z = (Ok rates, z')
     /\ rates !! "rx" = Some 0 /\ rates !! "tx" = Some 0
     /\ Misc.raw_zpool_io z' !! zpool = Some raw)
  /\ (is_Some (Misc.raw_zpool_io z !! zpool) ->
      (~ interval == 0 ->
       exists rates z' r t,
         Misc.get_zpool_io_rate refresh zpool skip uptime rx tx z = (Ok rates, z')
         /\ rates !! "rx" = Some r /\ r == mb_per_s rx interval
         /\ rates !! "tx" = Some t /\ t == mb_per_s tx interval
         /\ Misc.raw_zpool_io z' !! zpool = Some raw)
      /\ (interval == 0 ->
          Misc.get_zpool_io_rate refresh zpool skip uptime rx tx z
          = (Raise ZeroDivisionError, z))).
Proof.
  intros interval raw. unfold Misc.get_zpool_io_rate, Misc.get_zpool_io.
  fold interval. split.
  - intros Hnew. rewrite Hnew. eexists _, _. split; [reflexivity|]. simpl.
    rewrite get_set_item, get_set_item.
    rewrite lookup_insert_ne by discriminate.
    rewrite !lookup_insert_eq. auto.
  - intros [p Hp]. rewrite Hp. simpl. split.
    + intros Hmoved. rewrite !(py_div_ok _ _ Hmoved).
      eexists _, _, _, _. split; [reflexivity|]. simpl.
      rewrite get_set_item, get_set_item.
      rewrite lookup_insert_ne by discriminate.
      rewrite !lookup_insert_eq.
      split; [reflexivity|]. split; [apply mb_per_s_eq|].
      split; [reflexivity|]. split; [apply mb_per_s_eq|reflexivity].
    + intros Hzero. now rewrite (py_div_zero _ _ Hzero).
Qed.

Lemma zpool_rate_from_interval_witness :
  Misc.raw_zpool_io Misc.empty_zpool !! "tank" = None
  /\ is_Some (Misc.raw_zpool_io tank_a !! "tank")
  /\ Misc.get_zpool_io_rate 0 "tank" false 1000 5 5 tank_a
     = (Raise ZeroDivisionError, tank_a)
  /\ exists rates z' r,
       Misc.get_zpool_io_rate 5 "tank" true 2000 2097152000 0 tank_a = (Ok rates, z')
       /\ rates !! "rx" = Some r
       /\ r == 1.
Proof.
  assert (H0 : Misc.raw_zpool_io Misc.empty_zpool !! "tank" = None) by reflexivity.
  assert (Ha : is_Some (Misc.raw_zpool_io tank_a !! "tank")).
  { eexists. reflexivity. }
  split; [exact H0|]. split; [exact Ha|].
  destruct (zpool_rate_from_interval 0 1000 "tank" false 5 5 tank_a) as [_ Hz].
  destruct (zpool_rate_from_interval 5 2000 "tank" true 2097152000 0 tank_a) as [_ Hl].
  split; [apply (proj2 (Hz Ha)); reflexivity|].
  destruct (proj1 (Hl Ha)) as (rates & z' & r & t & Hrun & Hr & Er & _).
  { intros E. discriminate E. }
  exists rates, z', r. split; [exact Hrun|]. split; [exact Hr|].
  rewrite Er. reflexivity.
Defined.

(** X12. [get_disk_used_info] runs its queries when no time is stored, when
    the stored time is 0, or when the clock reads more than 30 seconds past
    it; a call within 30 seconds of the stored (nonzero) time returns the
    cached list, runs no query and leaves the cache as it is. *)
Theorem disk_used_info_cached {A : Type} (now_check now_store : Q) (fresh : A)
    (cache : Misc.used_cache A) (t : Q) (info : A) :
  Misc.used_time cache = Some t ->
  Misc.used_info cache = Some info ->
  (~ t == 0 -> now_check - t <= 30 ->
   Misc.get_disk_used_info now_check now_store fresh cache = (Ok info, cache, false))
  /\ (t == 0 \/ 30 < now_check - t ->
      Misc.get_disk_used_info now_check now_store fresh cache
      = (Ok fresh,
         {| Misc.used_time := Some now_store; Misc.used_info := Some fresh |}, true)).
Proof.
  intros Ht Hi. unfold Misc.get_disk_used_info. rewrite Ht. split.
  - intros Hnz Hfresh. apply truthy_true in Hnz. rewrite Hnz. simpl.
    destruct (Qlt_le_dec 30 (now_check - t)); [lra|]. now rewrite Hi.
  - intros [Hz|Hold].
    + apply truthy_false in Hz. rewrite Hz. reflexivity.
    + destruct (Qlt_le_dec 30 (now_check - t)); [|lra].
      now rewrite orb_true_r.
Qed.

Lemma disk_used_info_cached_witness :
  Misc.used_time used_at_1000 = Some 1000
  /\ Misc.get_disk_used_info 1020 1021 [("root", "42%")]%string used_at_1000
     = (Ok [("root", "41%")]%string, used_at_1000, false)
  /\ fst (fst (Misc.get_disk_used_info 1031 1032 [("root", "42%")]%string used_at_1000))
     = Ok [("root", "42%")]%string.
Proof.
  split; [reflexivity|].
  destruct (disk_used_info_cached 1020 1021 [("root", "42%")]%string used_at_1000
              1000 [("root", "41%")]%string eq_refl eq_refl) as [Hin _].
  destruct (disk_used_info_cached 1031 1032 [("root", "42%")]%string used_at_1000
              1000 [("root", "41%")]%string eq_refl eq_refl) as [_ Hout].
  split.
  - apply Hin; discriminate.
  - rewrite Hout; [reflexivity|]. right. reflexivity.
Defined.

(** ** More on the gesture recogniser *)

Section GesturesMore.
Import Misc.

Lemma lang_star_rep c n : lang (Rstar (Rchr c)) (rep c n).
Proof.
  induction n as [|n IH]; [constructor|].
  change (rep c (S n)) with (String c EmptyString ++ rep c n)%string.
  constructor; [constructor|exact IH].
Qed.

Lemma lang_atleast_rep c n m : (n <= m)%nat -> lang (Ratleast n (Rchr c)) (rep c m).
Proof.
  revert m. induction n as [|n IH]; intros m Hm; simpl.
  - apply lang_star_rep.
  - destruct m as [|m]; [lia|].
    change (rep c (S m)) with (String c EmptyString ++ rep c m)%string.
    constructor; [constructor|apply IH; lia].
Qed.

Lemma lang_plus_rep c m : (1 <= m)%nat -> lang (Rplus (Rchr c)) (rep c m).
Proof.
  intros Hm. destruct m as [|m]; [lia|].
  change (rep c (S m)) with (String c EmptyString ++ rep c m)%string.
  constructor; [constructor|apply lang_star_rep].
Qed.

Lemma re_match_whole p s : lang p s -> re_match p s = true.
Proof.
  intros H. apply re_match_lang. exists s, EmptyString.
  split; [now rewrite string_app_empty|exact H].
Qed.

(** Every string of the three languages begins with a ['1']. *)
Lemma lang_pattern_high size wait k s :
  lang (pattern_of size wait k) s -> exists s', s = String "1" s'.
Proof.
  intros H. assert (Hone : exists a t, (1 <= a)%nat /\ s = (rep "1" a ++ t)%string).
  { destruct k.
    - destruct (lang_click _ _ _ H) as (a & b & n & Ha & _ & _ & ->). eauto.
    - destruct (lang_twice _ _ _ H) as (a & b & n & d & m & Ha & _ & _ & _ & _ & ->).
      eauto.
    - destruct (lang_press _ _ _ H) as (a & b & Ha & _ & ->). eauto. }
  destruct Hone as (a & t & Ha & ->). destruct a as [|a]; [lia|].
  exists (rep "1" a ++ t)%string. reflexivity.
Qed.

Lemma low_first_no_match size wait k s :
  re_match (pattern_of size wait k) (String "0" s) = false.
Proof.
  destruct (re_match (pattern_of size wait k) (String "0" s)) eqn:E; [|reflexivity].
  apply re_match_lang in E as (pre & post & Hs & Hpre).
  destruct (lang_pattern_high _ _ _ _ Hpre) as [s' ->]. discriminate Hs.
Qed.

Lemma empty_no_match size wait k :
  re_match (pattern_of size wait k) EmptyString = false.
Proof.
  destruct (re_match (pattern_of size wait k) EmptyString) eqn:E; [|reflexivity].
  apply re_match_lang in E as (pre & post & Hs & Hpre).
  destruct (lang_pattern_high _ _ _ _ Hpre) as [s' ->]. discriminate Hs.
Qed.

Lemma first_match_low_first size wait s :
  first_match (pattern size wait) (String "0" s) = None.
Proof.
  rewrite first_match_pattern. now rewrite !low_first_no_match.
Qed.

Lemma string_drop_rep c n m : string_drop n (rep c m) = rep c (m - n).
Proof.
  revert m. induction n as [|n IH]; intros m; simpl.
  - now rewrite Nat.sub_0_r.
  - destruct m as [|m]; simpl; [reflexivity|]. apply IH.
Qed.

Lemma last_chars_rep size c m :
  exists m', last_chars size (rep c m) = rep c m'.
Proof.
  destruct size as [|n]; simpl; [eauto|].
  rewrite string_drop_rep. eauto.
Qed.

Lemma rep_snoc c m : (rep c m ++ String c EmptyString)%string = rep c (S m).
Proof.
  induction m as [|m IH]; [reflexivity|].
  change (String c (rep c m ++ String c EmptyString)%string = String c (rep c (S m))).
  now rewrite IH.
Qed.

(** A line that reads low from the start never gives a gesture. *)
Lemma read_key_from_all_low size wait m n :
  read_key_from (pattern size wait) size (rep "0" m) (repeat false n) = None.
Proof.
  revert m. induction n as [|n IH]; intros m; [reflexivity|].
  cbn [repeat read_key_from]. unfold next_window.
  destruct (last_chars_rep size "0" m) as [m' ->].
  change (str_bit false) with (String "0" EmptyString). rewrite rep_snoc.
  change (rep "0" (S m')) with (String "0" (rep "0" m')).
  rewrite first_match_low_first. apply (IH (S m')).
Qed.

End GesturesMore.

(** X13. All three patterns begin with a high sample: a window whose first
    sample is low (or an empty one) matches none of them, and a line that
    reads low from the moment [read_key] starts never gives a gesture,
    however long it stays low. *)
Theorem low_start_is_silent (size wait n : nat) (k : Misc.key) (s : string) :
  Misc.re_match (Misc.pattern_of size wait k) (String "0" s) = false
  /\ Misc.re_match (Misc.pattern_of size wait k) EmptyString = false
  /\ Misc.read_key (Misc.pattern size wait) size (repeat false n) = None.
Proof.
  split; [apply low_first_no_match|]. split; [apply empty_no_match|].
  apply (read_key_from_all_low size wait 0 n).
Qed.

Section Holds.
Import Misc.

Lemma highs_le_length s : (highs s <= String.length s)%nat.
Proof.
  induction s as [|c s IH]; simpl; [lia|]. destruct (Ascii.eqb c "1"); lia.
Qed.

Lemma rises_cons_high s : rises (String "1" s) = rises s.
Proof. destruct s; reflexivity. Qed.

Lemma rises_cons_ge c s : (rises s <= rises (String c s))%nat.
Proof. cbn [rises]. lia. Qed.

Lemma rises_zeros k : rises (rep "0" k) = 0%nat.
Proof.
  induction k as [|k IH]; [reflexivity|].
  destruct k as [|k]; [reflexivity|].
  change (rises (rep "0" (S (S k)))) with (0 + rises (rep "0" (S k)))%nat.
  now rewrite IH.
Qed.

Lemma rises_ones_zeros x k : rises (rep "1" x ++ rep "0" k) = 0%nat.
Proof.
  induction x as [|x IH]; [apply rises_zeros|].
  change (rep "1" (S x) ++ rep "0" k)%string
    with (String "1" (rep "1" x ++ rep "0" k)%string).
  now rewrite rises_cons_high.
Qed.

Lemma rises_app_r s1 s2 : (rises s2 <= rises (s1 ++ s2))%nat.
Proof.
  induction s1 as [|c s1 IH]; [reflexivity|].
  change (String c s1 ++ s2)%string with (String c (s1 ++ s2)%string).
  pose proof (rises_cons_ge c (s1 ++ s2)). lia.
Qed.

Lemma rises_app_l s1 s2 : (rises s1 <= rises (s1 ++ s2))%nat.
Proof.
  induction s1 as [|c s1 IH]; [simpl; lia|].
  change (String c s1 ++ s2)%string with (String c (s1 ++ s2)%string).
  destruct s1 as [|d s1].
  - cbn [rises]. lia.
  - change (String d s1 ++ s2)%string with (String d (s1 ++ s2)%string) in *.
    cbn [rises] in *. lia.
Qed.

Lemma rises_zeros_ones b n :
  (1 <= b)%nat -> (1 <= n)%nat -> (1 <= rises (rep "0" b ++ rep "1" n))%nat.
Proof.
  intros Hb Hn. induction b as [|b IH]; [lia|].
  destruct b as [|b].
  - destruct n as [|n]; [lia|].
    change (1 <= S (rises (String "1" (rep "1" n))))%nat. lia.
  - change (rep "0" (S (S b)) ++ rep "1" n)%string
      with (String "0" (rep "0" (S b) ++ rep "1" n)%string).
    pose proof (rises_cons_ge "0" (rep "0" (S b) ++ rep "1" n)).
    specialize (IH ltac:(lia)). lia.
Qed.

(** Without a ['0'] followed by a ['1'] in the window, neither click (with
    [wait >= 1]) nor twice matches. *)
Lemma no_rise_no_release size wait w :
  (1 <= wait)%nat -> rises w = 0%nat ->
  re_match (pattern_of size wait click) w = false
  /\ re_match (pattern_of size wait twice) w = false.
Proof.
  intros Hwait Hr. split.
  - destruct (re_match (pattern_of size wait click) w) eqn:E; [|reflexivity].
    apply re_match_lang in E as (pre & post & -> & Hpre).
    destruct (lang_click _ _ _ Hpre) as (a & b & n & _ & Hb & Hn & ->).
    pose proof (rises_app_l (rep "1" a ++ rep "0" b ++ rep "1" n) post).
    pose proof (rises_app_r (rep "1" a) (rep "0" b ++ rep "1" n)).
    pose proof (rises_zeros_ones b n Hb ltac:(lia)). lia.
  - destruct (re_match (pattern_of size wait twice) w) eqn:E; [|reflexivity].
    apply re_match_lang in E as (pre & post & -> & Hpre).
    destruct (lang_twice _ _ _ Hpre) as (a & b & n & d & m & _ & Hb & Hn & _ & _ & ->).
    pose proof (rises_app_l
                  (rep "1" a ++ rep "0" b ++ rep "1" n ++ rep "0" d ++ rep "1" m) post).
    pose proof (rises_app_r (rep "1" a)
                  (rep "0" b ++ rep "1" n ++ rep "0" d ++ rep "1" m)).
    rewrite <- (string_app_assoc (rep "0" b) (rep "1" n)) in *.
    pose proof (rises_app_l (rep "0" b ++ rep "1" n) (rep "0" d ++ rep "1" m)).
    pose proof (rises_zeros_ones b n Hb Hn). lia.
Qed.

(** The press pattern needs [size] lows in the window. *)
Lemma press_needs_lows size wait w :
  re_match (pattern_of size wait press) w = true ->
  (size <= String.length w - highs w)%nat.
Proof.
  intros E. apply re_match_lang in E as (pre & post & -> & Hpre).
  destruct (lang_press _ _ _ Hpre) as (a & b & _ & Hb & ->).
  rewrite !string_length_app, !highs_app, !rep_length, highs_ones, highs_zeros.
  pose proof (highs_le_length post). lia.
Qed.

Lemma press_matches_hold size wait :
  re_match (pattern_of size wait press) (rep "1" 1 ++ rep "0" size) = true.
Proof.
  apply re_match_whole. cbn [pattern_of]. constructor.
  - now apply lang_plus_rep.
  - now apply lang_atleast_rep.
Qed.

(** A run of highs followed by fewer than [size] lows matches nothing. *)
Lemma quiet_window size wait x k :
  (1 <= wait)%nat -> (k < size)%nat ->
  first_match (pattern size wait) (rep "1" x ++ rep "0" k) = None.
Proof.
  intros Hwait Hk. rewrite first_match_pattern.
  destruct (no_rise_no_release size wait _ Hwait (rises_ones_zeros x k)) as [-> ->].
  destruct (re_match (pattern_of size wait press) (rep "1" x ++ rep "0" k)) eqn:E;
    [|reflexivity].
  apply press_needs_lows in E.
  rewrite string_length_app, highs_app, !rep_length, highs_ones, highs_zeros in E. lia.
Qed.

Lemma hold_window size wait :
  (1 <= wait)%nat ->
  first_match (pattern size wait) (rep "1" 1 ++ rep "0" size) = Some press.
Proof.
  intros Hwait. rewrite first_match_pattern.
  destruct (no_rise_no_release size wait _ Hwait (rises_ones_zeros 1 size)) as [-> ->].
  now rewrite press_matches_hold.
Qed.

Lemma string_drop_ones n x s :
  (n <= x)%nat -> string_drop n (rep "1" x ++ s) = (rep "1" (x - n) ++ s)%string.
Proof.
  revert x. induction n as [|n IH]; intros x Hn; simpl.
  - now rewrite Nat.sub_0_r.
  - destruct x as [|x]; [lia|].
    change (rep "1" (S x) ++ s)%string with (String "1" (rep "1" x ++ s)%string).
    apply IH. lia.
Qed.

(** The window after one more low sample. *)
Lemma next_window_hold size x k :
  (1 <= size)%nat -> (1 <= x)%nat -> (k < size)%nat -> (x + k <= size + 1)%nat ->
  next_window size (rep "1" x ++ rep "0" k) false
  = (rep "1" (Nat.min x (size - k)) ++ rep "0" (S k))%string.
Proof.
  intros Hsize Hx Hk Hfit. unfold next_window, last_chars.
  destruct size as [|n]; [lia|].
  rewrite string_length_app, !rep_length.
  rewrite string_drop_ones by lia.
  change (str_bit false) with (String "0" EmptyString).
  rewrite string_app_assoc, rep_snoc.
  replace (x - (x + k - S n))%nat with (Nat.min x (S n - k)) by lia.
  reflexivity.
Qed.

(** The window after one more high sample, the line idle so far. *)
Lemma next_window_idle size x :
  (1 <= size)%nat ->
  next_window size (rep "1" x) true = rep "1" (S (Nat.min x size)).
Proof.
  intros Hsize. unfold next_window, last_chars.
  destruct size as [|n]; [lia|].
  rewrite rep_length, string_drop_rep.
  change (str_bit true) with (String "1" EmptyString). rewrite rep_snoc.
  f_equal. lia.
Qed.

Lemma read_key_from_idle size wait x j rest :
  (1 <= size)%nat -> (1 <= wait)%nat -> (x <= size + 1)%nat ->
  read_key_from (pattern size wait) size (rep "1" x) (repeat true j ++ rest)
  = read_key_from (pattern size wait) size
      (rep "1" (Nat.min (x + j) (size + 1))) rest.
Proof.
  intros Hsize Hwait. revert x. induction j as [|j IH]; intros x Hx.
  - simpl. f_equal. f_equal. lia.
  - cbn [repeat app read_key_from]. rewrite next_window_idle by assumption.
    pose proof (quiet_window size wait (S (Nat.min x size)) 0 Hwait ltac:(lia)) as Hq.
    rewrite string_app_empty in Hq. rewrite Hq.
    rewrite IH by lia. f_equal. f_equal. lia.
Qed.

Lemma read_key_from_hold size wait m k x :
  (1 <= size)%nat -> (1 <= wait)%nat ->
  (k + S m = size)%nat -> (1 <= x)%nat -> (x + k <= size + 1)%nat ->
  read_key_from (pattern size wait) size (rep "1" x ++ rep "0" k)
    (repeat false (S m))
  = Some (press, []).
Proof.
  intros Hsize Hwait. revert k x. induction m as [|m IH]; intros k x Hk Hx Hfit.
  - cbn [repeat read_key_from]. rewrite next_window_hold by lia.
    replace (Nat.min x (size - k)) with 1%nat by lia.
    replace (S k) with size by lia.
    now rewrite hold_window.
  - cbn [repeat read_key_from]. rewrite next_window_hold by lia.
    rewrite quiet_window by lia.
    apply (IH (S k) (Nat.min x (size - k))); lia.
Qed.

End Holds.

(** X14. Among the windows [read_key] can hold (at most [size + 1]
    samples), with a click threshold of at least one sample, the press
    gesture is reported for exactly one: a single high sample followed by
    [size] low ones. *)
Theorem press_window_iff (size wait : nat) (w : string) :
  (1 <= wait)%nat ->
  (String.length w <= size + 1)%nat ->
  Misc.first_match (Misc.pattern size wait) w = Some Misc.press
  <-> w = (rep "1" 1 ++ rep "0" size)%string.
Proof.
  intros Hwait Hlen. split.
  - intros H. rewrite first_match_pattern in H.
    destruct (Misc.re_match (Misc.pattern_of size wait Misc.click) w); [discriminate|].
    destruct (Misc.re_match (Misc.pattern_of size wait Misc.twice) w); [discriminate|].
    destruct (Misc.re_match (Misc.pattern_of size wait Misc.press) w) eqn:E;
      [|discriminate].
    now destruct (press_window_alone size wait w Hwait Hlen E).
  - intros ->. now apply hold_window.
Qed.

Lemma press_window_iff_witness :
  (1 <= 7)%nat
  /\ (String.length "1000000000000000000" <= 18 + 1)%nat
  /\ Misc.first_match (Misc.pattern 18 7) "1000000000000000000" = Some Misc.press.
Proof.
  assert (H1 : (1 <= 7)%nat) by lia.
  assert (H2 : (String.length "1000000000000000000" <= 18 + 1)%nat) by (simpl; lia).
  split; [exact H1|]. split; [exact H2|].
  apply (proj2 (press_window_iff 18 7 "1000000000000000000" H1 H2)). reflexivity.
Defined.

(** X15. After any idle time (one high sample or more), holding the button
    for [size] samples makes [read_key] return press at the last of them,
    for every press threshold of at least one sample and every click
    threshold of at least one sample. *)
Theorem idle_then_hold_is_press (size wait idle : nat) :
  (1 <= size)%nat -> (1 <= wait)%nat -> (1 <= idle)%nat ->
  Misc.read_key (Misc.pattern size wait) size (repeat true idle ++ repeat false size)
  = Some (Misc.press, []).
Proof.
  intros Hsize Hwait Hidle. unfold Misc.read_key.
  change EmptyString with (rep "1" 0).
  rewrite read_key_from_idle by lia.
  rewrite <- (string_app_empty (rep "1" _)).
  change EmptyString with (rep "0" 0).
  destruct size as [|m]; [lia|].
  apply read_key_from_hold; lia.
Qed.

Lemma idle_then_hold_is_press_witness :
  (1 <= 18)%nat /\ (1 <= 7)%nat /\ (1 <= 40)%nat
  /\ Misc.read_key (Misc.pattern 18 7) 18 (repeat true 40 ++ repeat false 18)
     = Some (Misc.press, []).
Proof.
  assert (H1 : (1 <= 18)%nat) by lia.
  assert (H2 : (1 <= 7)%nat) by lia.
  assert (H3 : (1 <= 40)%nat) by lia.
  repeat (split; [assumption|]).
  exact (idle_then_hold_is_press 18 7 40 H1 H2 H3).
Defined.

Section Thresholds.
Import Misc.





End Thresholds.



Section WatchKey.
Import Misc.

(** [read_key] uses up at least the sample it returns on. *)
Lemma read_key_consumes pat size pins t rest :
  read_key pat size pins = Some (t, rest) ->
  (List.length rest < List.length pins)%nat.
Proof.
  intros H. unfold read_key in H.
  destruct (read_key_from_windows _ _ _ _ _ _ H) as (ws & w & _ & _ & _ & Hlen). lia.
Qed.

(** Any fuel that covers the samples gives the same queue. *)
Lemma watch_key_loop_fuel pat size n :
  forall pins q f1 f2,
    (List.length pins <= n)%nat -> (n <= f1)%nat -> (n <= f2)%nat ->
    watch_key_loop f1 pat size pins q = watch_key_loop f2 pat size pins q.
Proof.
  induction n as [|n IH]; intros pins q f1 f2 Hlen H1 H2.
  - destruct pins; [|simpl in Hlen; lia].
    destruct f1, f2; reflexivity.
  - destruct f1 as [|f1]; [lia|]. destruct f2 as [|f2]; [lia|]. simpl.
    destruct (read_key pat size pins) as [[t rest]|] eqn:E; [|reflexivity].
    apply read_key_consumes in E. apply IH; lia.
Qed.

Lemma watch_key_loop_appends pat size fuel pins q :
  watch_key_loop fuel pat size pins q
  = q ++ watch_key_loop fuel pat size pins [].
Proof.
  revert pins q. induction fuel as [|fuel IH]; intros pins q; simpl.
  - now rewrite app_nil_r.
  - destruct (read_key pat size pins) as [[t rest]|]; [|now rewrite app_nil_r].
    rewrite (IH rest (q ++ [t])). simpl. rewrite (IH rest [t]).
    now rewrite <- app_assoc.
Qed.

Lemma watch_key_loop_count pat size fuel pins :
  (List.length (watch_key_loop fuel pat size pins []) <= List.length pins)%nat.
Proof.
  revert pins. induction fuel as [|fuel IH]; intros pins; simpl; [lia|].
  destruct (read_key pat size pins) as [[t rest]|] eqn:E; [|simpl; lia].
  apply read_key_consumes in E.
  rewrite watch_key_loop_appends, length_app. simpl.
  specialize (IH rest). lia.
Qed.

End WatchKey.

(** X17. [watch_key] starts [read_key] afresh, with an empty window, on the
    samples that follow a gesture: the samples of one gesture are never
    used for the next. It only appends to the queue, and puts at most one
    gesture per sample read. *)
Theorem watch_key_restarts (c : Misc.time_conf) (pins : list bool) (q : list Misc.key) :
  Misc.watch_key c pins q
  = match Misc.read_key (Misc.pattern (Misc.key_size c) (Misc.key_wait c))
            (Misc.key_size c) pins with
    | Some (t, rest) => Misc.watch_key c rest (q ++ [t])
    | None => q
    end
  /\ Misc.watch_key c pins q = q ++ Misc.watch_key c pins []
  /\ (List.length (Misc.watch_key c pins []) <= List.length pins)%nat.
Proof.
  unfold Misc.watch_key. split; [|split].
  - destruct pins as [|b pins]; [reflexivity|].
    cbn [List.length Misc.watch_key_loop].
    destruct (Misc.read_key _ _ (b :: pins)) as [[t rest]|] eqn:E; [|reflexivity].
    apply read_key_consumes in E. simpl in E.
    apply (watch_key_loop_fuel _ _ (List.length rest)); lia.
  - apply watch_key_loop_appends.
  - apply watch_key_loop_count.
Qed.

(** ** More on the display consumer *)

Section ConsumerMore.
Import Oled.

Variable c : slider_conf.
Variable e : page_env.
Variable get_page_text : page -> bool -> result (list item).

(** The rotation list is never empty once refilled: three pages are
    always generated. *)
Lemma refill_nonempty k : exists pg dl, refill e k = pg :: dl.
Proof.
  unfold refill. destruct (display_list k) as [|pg dl]; [|eauto].
  unfold gen_display_pages_list. simpl. eauto.
Qed.

Lemma render_clear texts p :
  image p = [] ->
  image (render texts p) = []
  /\ frames (render texts p)
     = frames p ++ [match texts with Ok items => items | Raise _ => [] end]
  /\ (forall ex, texts = Raise ex -> printed (render texts p) = printed p ++ [ex])
  /\ (forall items, texts = Ok items -> printed (render texts p) = printed p).
Proof.
  intros Hclear. destruct texts as [items|ex].
  - destruct (render_ok items p) as (Hf & Hp & Hi). rewrite Hclear in Hf.
    split; [exact Hi|]. split; [exact Hf|]. split; [discriminate|].
    intros items' _. exact Hp.
  - unfold render. simpl. rewrite Hclear.
    split; [reflexivity|]. split; [reflexivity|].
    split; [intros ex' [= ->]; reflexivity|discriminate].
Qed.

(** One message: the step returns, leaves the queue and the clock alone,
    leaves the image clear and pushes at most one frame, the text of one
    page. *)
Lemma display_step_spec action k w p :
  image p = [] ->
  exists k' w' p',
    display_step c e get_page_text action (k, w, p) = (Ok tt, (k', w', p'))
    /\ display_queue w' = display_queue w
    /\ clock w' = clock w
    /\ image p' = []
    /\ (frames p' = frames p
        \/ exists pg, frames p' = frames p ++ [frame_of get_page_text pg action]).
Proof.
  intros Hclear. unfold display_step.
  destruct (refill_nonempty k) as (pg & dl & Hdl). rewrite Hdl.
  unfold select. destruct action.
  - destruct (render_clear (get_page_text pg true) p Hclear) as (Hi & Hf & _).
    eexists _, _, _. split; [reflexivity|]. simpl.
    split; [reflexivity|]. split; [reflexivity|]. split; [exact Hi|].
    right. exists pg. exact Hf.
  - destruct (last_page k) as [lp|].
    + destruct (render_clear (get_page_text lp false) p Hclear) as (Hi & Hf & _).
      eexists _, _, _. split; [reflexivity|]. simpl.
      split; [reflexivity|]. split; [reflexivity|]. split; [exact Hi|].
      right. exists lp. exact Hf.
    + eexists _, _, _. split; [reflexivity|]. simpl. auto.
Qed.

Lemma display_process_drains fuel k w p :
  image p = [] ->
  (List.length (display_queue w) <= fuel)%nat ->
  exists k' w' p' new,
    display_process fuel c e get_page_text (k, w, p) = (Ok tt, (k', w', p'))
    /\ display_queue w' = []
    /\ image p' = []
    /\ frames p' = frames p ++ new
    /\ (List.length new <= List.length (display_queue w))%nat
    /\ Forall (fun f => exists pg action, f = frame_of get_page_text pg action) new.
Proof.
  revert k w p. induction fuel as [|fuel IH]; intros k w p Hclear Hfuel.
  - destruct (display_queue w) eqn:Hq; [|simpl in Hfuel; lia].
    exists k, w, p, []. simpl. rewrite app_nil_r. repeat split; auto.
  - cbn [display_process]. unfold take_message.
    destruct (display_queue w) as [|action q] eqn:Hq.
    + exists k, w, p, []. rewrite app_nil_r. repeat split; auto.
    + destruct (display_step_spec action k (set_queue q w) p Hclear)
        as (k1 & w1 & p1 & Hstep & Hq1 & _ & Hclear1 & Hframe).
      rewrite Hstep. simpl in Hq1.
      destruct (IH k1 w1 p1 Hclear1) as (k' & w' & p' & new & Hrun & Hq' & Hi' & Hf' & Hn & Hall).
      { rewrite Hq1. simpl in Hfuel. lia. }
      rewrite Hq1 in Hn.
      destruct Hframe as [Hsame|[pg Hpush]].
      * exists k', w', p', new. rewrite Hsame in Hf'.
        repeat split; try assumption. simpl. lia.
      * exists k', w', p', (frame_of get_page_text pg action :: new).
        rewrite Hpush, <- app_assoc in Hf'.
        repeat split; try assumption; [simpl; lia|].
        constructor; [eauto|assumption].
Qed.

(** Advancing through what is left of the rotation list shows its pages in
    order and empties it. *)
Lemma display_process_rotates pg dl lp w p fuel :
  image p = [] ->
  display_queue w = repeat true (List.length (pg :: dl)) ->
  (List.length (pg :: dl) <= fuel)%nat ->
  exists w' p',
    display_process fuel c e get_page_text (consumer_at lp (pg :: dl), w, p)
    = (Ok tt, (consumer_at (Some (List.last dl pg)) [], w', p'))
    /\ display_queue w' = []
    /\ image p' = []
    /\ frames p'
       = frames p ++ map (fun x => frame_of get_page_text x true) (pg :: dl).
Proof.
  revert pg lp w p fuel. induction dl as [|pg2 dl IH]; intros pg lp w p fuel Hclear Hq Hfuel.
  - destruct fuel as [|fuel]; [simpl in Hfuel; lia|].
    cbn [display_process]. unfold take_message. rewrite Hq. simpl repeat.
    destruct (render_clear (get_page_text pg true) p Hclear) as (Hi & Hf & _).
    destruct fuel; eexists _, _; (split; [reflexivity|]); simpl;
      repeat split; assumption.
  - destruct fuel as [|fuel]; [simpl in Hfuel; lia|].
    cbn [display_process]. unfold take_message. rewrite Hq.
    change (repeat true (List.length (pg :: pg2 :: dl)))
      with (true :: repeat true (List.length (pg2 :: dl))).
    cbn [display_step]. unfold display_step, refill, select. cbn [display_list consumer_at tl].
    destruct (render_clear (get_page_text pg true) p Hclear) as (Hi & Hf & _).
    match goal with
    | |- context [display_process fuel c e get_page_text (_, ?w1, ?p1)] =>
        destruct (IH pg2 (Some pg) w1 p1 fuel Hi) as (w' & p' & Hrun & Hq' & Hi' & Hf');
          [reflexivity|simpl in *; lia|]
    end.
    unfold consumer_at in Hrun. rewrite Hrun.
    exists w', p'. split; [rewrite last_cons_shift; reflexivity|].
    split; [exact Hq'|]. split; [exact Hi'|].
    rewrite Hf', Hf, <- app_assoc. reflexivity.
Qed.

End ConsumerMore.

(** X18. The display consumer never raises and never leaves the panel
    half-drawn: started with a clear image it handles every queued
    message, empties the queue, ends with a clear image, and pushes at
    most one frame per message, each the text of a single page (or nothing
    when that text failed). *)
Theorem display_process_never_raises (c : Oled.slider_conf) (e : Oled.page_env)
    (get_page_text : Oled.page -> bool -> result (list Oled.item))
    (fuel : nat) (k : Oled.consumer) (w : Oled.shared) (p : Oled.panel) :
  Oled.image p = [] ->
  (List.length (Oled.display_queue w) <= fuel)%nat ->
  exists k' w' p' new,
    Oled.display_process fuel c e get_page_text (k, w, p) = (Ok tt, (k', w', p'))
    /\ Oled.display_queue w' = []
    /\ Oled.image p' = []
    /\ Oled.frames p' = Oled.frames p ++ new
    /\ (List.length new <= List.length (Oled.display_queue w))%nat
    /\ Forall (fun f => exists pg action, f = frame_of get_page_text pg action) new.
Proof. apply display_process_drains. Qed.

Lemma display_process_never_raises_witness :
  Oled.image Oled.blank = []
  /\ (List.length (Oled.display_queue
                     (Oled.put false (Oled.put true (shared_at 0)))) <= 2)%nat
  /\ exists st,
       Oled.display_process 2 Oled.default_slider_conf nas_env text_fails
         (Oled.consumer_init, Oled.put false (Oled.put true (shared_at 0)), Oled.blank)
       = (Ok tt, st).
Proof.
  assert (H1 : Oled.image Oled.blank = []) by reflexivity.
  assert (H2 : (List.length (Oled.display_queue
                  (Oled.put false (Oled.put true (shared_at 0)))) <= 2)%nat)
    by (simpl; lia).
  split; [exact H1|]. split; [exact H2|].
  destruct (display_process_never_raises Oled.default_slider_conf nas_env text_fails 2
              Oled.consumer_init (Oled.put false (Oled.put true (shared_at 0)))
              Oled.blank H1 H2) as (k' & w' & p' & new & Hrun & _).
  exists (k', w', p'). exact Hrun.
Defined.

(** X19. One round of the rotation: from an empty rotation list, as many
    advance messages as there are generated pages show every page once,
    in the order of the factories, and leave the list empty again, so that
    the next advance generates it anew. *)
Theorem rotation_shows_every_page (c : Oled.slider_conf) (e : Oled.page_env)
    (get_page_text : Oled.page -> bool -> result (list Oled.item))
    (lp : option Oled.page) (w : Oled.shared) (p : Oled.panel) (fuel : nat) :
  let pages := Oled.gen_display_pages_list e in
  Oled.image p = [] ->
  Oled.display_queue w = repeat true (List.length pages) ->
  (List.length pages <= fuel)%nat ->
  exists k' w' p',
    Oled.display_process fuel c e get_page_text (consumer_at lp [], w, p)
    = (Ok tt, (k', w', p'))
    /\ Oled.display_list k' = []
    /\ Oled.last_page k' = Some (List.last pages Oled.General_system_info_page0)
    /\ Oled.display_queue w' = []
    /\ Oled.frames p'
       = Oled.frames p ++ map (fun pg => frame_of get_page_text pg true) pages.
Proof.
  intros pages Hclear Hq Hfuel. unfold pages in *. clear pages.
  assert (Hpages : exists pg dl, Oled.gen_display_pages_list e = pg :: dl).
  { unfold Oled.gen_display_pages_list. simpl. eauto. }
  destruct Hpages as (pg & dl & Hpages). rewrite Hpages in *.
  destruct (display_process_rotates c e get_page_text pg dl lp w p fuel Hclear Hq Hfuel)
    as (w' & p' & Hrun & Hq' & _ & Hf).
  assert (Hsame : Oled.display_process fuel c e get_page_text (consumer_at lp [], w, p)
                  = Oled.display_process fuel c e get_page_text
                      (consumer_at lp (pg :: dl), w, p)).
  { destruct fuel as [|fuel]; [simpl in Hfuel; lia|].
    cbn [Oled.display_process]. unfold Oled.take_message. rewrite Hq.
    cbn [List.length repeat].
    unfold Oled.display_step, Oled.refill. cbn [Oled.display_list consumer_at].
    rewrite Hpages. reflexivity. }
  rewrite Hsame, Hrun. eexists _, _, _. split; [reflexivity|].
  simpl. repeat split; try assumption.
  f_equal. symmetry. apply last_cons_shift.
Qed.

Lemma rotation_shows_every_page_witness :
  Oled.image Oled.blank = []
  /\ Oled.display_queue (Oled.put true (Oled.put true (Oled.put true (shared_at 0))))
     = repeat true (List.length (Oled.gen_display_pages_list bare_env))
  /\ (List.length (Oled.gen_display_pages_list bare_env) <= 3)%nat
  /\ exists k' w' p',
       Oled.display_process 3 Oled.default_slider_conf bare_env text_ok
         (consumer_at None [],
          Oled.put true (Oled.put true (Oled.put true (shared_at 0))), Oled.blank)
       = (Ok tt, (k', w', p'))
       /\ Oled.display_list k' = []
       /\ Oled.last_page k' = Some Oled.Disk_info_page.
Proof.
  assert (H1 : Oled.image Oled.blank = []) by reflexivity.
  assert (H2 : Oled.display_queue
                 (Oled.put true (Oled.put true (Oled.put true (shared_at 0))))
               = repeat true (List.length (Oled.gen_display_pages_list bare_env)))
    by reflexivity.
  assert (H3 : (List.length (Oled.gen_display_pages_list bare_env) <= 3)%nat)
    by (simpl; lia).
  split; [exact H1|]. split; [exact H2|]. split; [exact H3|].
  destruct (rotation_shows_every_page Oled.default_slider_conf bare_env text_ok None
              (Oled.put true (Oled.put true (Oled.put true (shared_at 0))))
              Oled.blank 3 H1 H2 H3) as (k' & w' & p' & Hrun & Hdl & Hlp & _).
  exists k', w', p'. split; [exact Hrun|]. split; [exact Hdl|exact Hlp].
Defined.

Section Refreshes.
Import Oled.

Variable c : slider_conf.
Variable e : page_env.
Variable get_page_text : page -> bool -> result (list item).

(** Refresh messages on a consumer whose rotation list is filled. *)
Lemma display_process_refreshes n fuel lp dl w p :
  image p = [] ->
  dl <> [] ->
  display_queue w = repeat false n ->
  (n <= fuel)%nat ->
  exists w' p',
    display_process fuel c e get_page_text (consumer_at lp dl, w, p)
    = (Ok tt, (consumer_at lp dl, w', p'))
    /\ next_time w' = next_time w
    /\ frames p'
       = frames p ++ match lp with
                     | Some pg => repeat (frame_of get_page_text pg false) n
                     | None => []
                     end.
Proof.
  intros Hclear Hdl. revert fuel w p Hclear.
  induction n as [|n IH]; intros fuel w p Hclear Hq Hfuel.
  - exists w, p. split.
    + destruct fuel; [reflexivity|]. cbn [display_process]. unfold take_message.
      now rewrite Hq.
    + split; [reflexivity|]. destruct lp; simpl; now rewrite app_nil_r.
  - destruct fuel as [|fuel]; [lia|].
    cbn [display_process]. unfold take_message. rewrite Hq. cbn [repeat].
    unfold display_step, refill, select. cbn [display_list last_page consumer_at].
    destruct dl as [|pg0 dl0]; [congruence|].
    destruct lp as [pg|].
    + destruct (render_clear (get_page_text pg false) p Hclear) as (Hi & Hf & _).
      match goal with
      | |- context [display_process fuel c e get_page_text (_, ?w1, ?p1)] =>
          destruct (IH fuel w1 p1 Hi) as (w' & p' & Hrun & Hn & Hf');
            [reflexivity|lia|]
      end.
      unfold consumer_at in Hrun. rewrite Hrun. exists w', p'.
      split; [reflexivity|]. split; [exact Hn|].
      rewrite Hf', Hf, <- app_assoc. reflexivity.
    + match goal with
      | |- context [display_process fuel c e get_page_text (_, ?w1, ?p1)] =>
          destruct (IH fuel w1 p1 Hclear) as (w' & p' & Hrun & Hn & Hf');
            [reflexivity|lia|]
      end.
      unfold consumer_at in Hrun. rewrite Hrun. exists w', p'.
      split; [reflexivity|]. split; [exact Hn|exact Hf'].
Qed.

End Refreshes.

(** X20. Refresh messages never rotate: whatever their number, they redraw
    the page of the last advance (with the action flag false), leave the
    rotation list and the advance deadline as they are, and before the
    first advance they draw nothing at all. *)
Theorem refresh_never_rotates (c : Oled.slider_conf) (e : Oled.page_env)
    (get_page_text : Oled.page -> bool -> result (list Oled.item))
    (n fuel : nat) (lp : option Oled.page) (dl : list Oled.page)
    (w : Oled.shared) (p : Oled.panel) :
  Oled.image p = [] ->
  dl <> [] ->
  Oled.display_queue w = repeat false n ->
  (n <= fuel)%nat ->
  exists w' p',
    Oled.display_process fuel c e get_page_text (consumer_at lp dl, w, p)
    = (Ok tt, (consumer_at lp dl, w', p'))
    /\ Oled.next_time w' = Oled.next_time w
    /\ Oled.frames p'
       = Oled.frames p ++ match lp with
                          | Some pg => repeat (frame_of get_page_text pg false) n
                          | None => []
                          end.
Proof. apply display_process_refreshes. Qed.

Lemma refresh_never_rotates_witness :
  Oled.image Oled.blank = []
  /\ [Oled.General_system_info_page1; Oled.Disk_info_page] <> []
  /\ Oled.display_queue (Oled.put false (Oled.put false (shared_at 0))) = repeat false 2
  /\ (2 <= 2)%nat
  /\ exists w' p',
       Oled.display_process 2 Oled.default_slider_conf bare_env text_ok
         (consumer_at (Some Oled.General_system_info_page0)
            [Oled.General_system_info_page1; Oled.Disk_info_page],
          Oled.put false (Oled.put false (shared_at 0)), Oled.blank)
       = (Ok tt,
          (consumer_at (Some Oled.General_system_info_page0)
             [Oled.General_system_info_page1; Oled.Disk_info_page], w', p'))
       /\ Oled.frames p' = [[uptime_line]; [uptime_line]].
Proof.
  assert (H1 : Oled.image Oled.blank = []) by reflexivity.
  assert (H2 : [Oled.General_system_info_page1; Oled.Disk_info_page] <> [])
    by discriminate.
  assert (H3 : Oled.display_queue (Oled.put false (Oled.put false (shared_at 0)))
               = repeat false 2) by reflexivity.
  assert (H4 : (2 <= 2)%nat) by lia.
  repeat (split; [assumption|]).
  destruct (refresh_never_rotates Oled.default_slider_conf bare_env text_ok 2 2
              (Some Oled.General_system_info_page0)
              [Oled.General_system_info_page1; Oled.Disk_info_page]
              (Oled.put false (Oled.put false (shared_at 0))) Oled.blank H1 H2 H3 H4)
    as (w' & p' & Hrun & _ & Hf).
  exists w', p'. split; [exact Hrun|exact Hf].
Defined.

(** ** More on the display timers *)

Section TimersMore.
Import Oled.

Variable c : slider_conf.

Lemma ticks_nonpos d : d <= 0 -> ticks d = 0%nat.
Proof.
  intros Hd. unfold ticks. pose proof (Qceiling_lt (d * 10)) as Hc.
  assert (Hlt : inject_Z (Qceiling (d * 10) - 1) < inject_Z 0)
    by (change (inject_Z 0) with 0; lra).
  rewrite <- Zlt_Qlt in Hlt. lia.
Qed.

(** With a slider period of 0 the loop only sleeps. *)
Lemma auto_slider_loop_idles fuel w :
  slider_auto c = true ->
  slider_time c == 0 ->
  auto_slider_loop fuel c w = (Looping, sleeps fuel w).
Proof.
  intros Hauto Hzero. apply truthy_false in Hzero. revert w.
  induction fuel as [|fuel IH]; intros w; [reflexivity|].
  simpl. rewrite Hauto. unfold get_slider_sleep_duration. rewrite Hzero. apply IH.
Qed.

(** The refresh loop puts refresh messages only, at most one per turn, and
    leaves the advance deadline alone. *)
Lemma refresh_display_puts fuel w :
  exists n,
    (n <= fuel)%nat
    /\ display_queue (snd (refresh_display fuel c w)) = display_queue w ++ repeat false n
    /\ next_time (snd (refresh_display fuel c w)) = next_time w.
Proof.
  revert w. induction fuel as [|fuel IH]; intros w; simpl.
  - exists 0%nat. rewrite app_nil_r. auto.
  - destruct (truthy (get_refresh_period c)).
    + destruct (Qlt_le_dec (refresh_time w) (clock w)).
      * destruct (IH (sleep (1 # 10)
                        (put false (set_refresh_time (clock w + get_refresh_period c) w))))
          as (n & Hn & Hq & Ht).
        exists (S n). rewrite Hq, Ht. simpl. rewrite <- app_assoc.
        split; [lia|]. split; reflexivity.
      * destruct (IH (sleep (1 # 10) w)) as (n & Hn & Hq & Ht).
        exists n. rewrite Hq, Ht. simpl. split; [lia|]. split; reflexivity.
    + exists 0%nat. simpl. rewrite app_nil_r. split; [lia|]. split; reflexivity.
Qed.

(** The auto-slider loop leaves the refresh deadline alone. *)
Lemma auto_slider_loop_refresh_time fuel w :
  refresh_time (snd (auto_slider_loop fuel c w)) = refresh_time w.
Proof.
  revert w. induction fuel as [|fuel IH]; intros w; simpl; [reflexivity|].
  destruct (slider_auto c); [|reflexivity].
  destruct (truthy (get_slider_sleep_duration c)).
  - destruct (wait_next fuel _) as [w2|] eqn:Ew; [|reflexivity].
    destruct (wait_next_keeps _ _ _ Ew) as (_ & _ & Hr).
    rewrite IH. simpl. rewrite Hr. reflexivity.
  - rewrite IH. reflexivity.
Qed.

End TimersMore.

(** X21. A slider period of 0 makes the auto-slider idle: it sleeps 0.1 s
    per turn and never puts a message after the initial one. A negative
    slider period makes it put one advance message per turn without ever
    sleeping. *)
Theorem degenerate_slider_periods (c : Oled.slider_conf) (w : Oled.shared)
    (n fuel : nat) :
  Oled.slider_auto c = true ->
  let w0 := Oled.put true (Oled.set_next_time (Oled.clock w + 10) w) in
  (Oled.slider_time c == 0 ->
   Oled.auto_slider fuel c w = (Oled.Looping, sleeps fuel w0)
   /\ Oled.display_queue (sleeps fuel w0) = Oled.display_queue w ++ [true]
   /\ Oled.clock (sleeps fuel w0)
      == Oled.clock w + inject_Z (Z.of_nat fuel) * (1 # 10))
  /\ (Oled.slider_time c < 0 ->
      Oled.auto_slider (n + S fuel) c w
      = Oled.auto_slider_loop (S fuel) c (slider_rounds n c w0)
      /\ Oled.display_queue (slider_rounds n c w0)
         = Oled.display_queue w ++ true :: repeat true n
      /\ Oled.clock (slider_rounds n c w0) == Oled.clock w).
Proof.
  intros Hauto w0. split.
  - intros Hzero. unfold Oled.auto_slider. fold w0.
    split; [now apply auto_slider_loop_idles|].
    destruct (sleeps_keeps fuel w0) as (Hq & _). rewrite Hq, sleeps_clock.
    split; reflexivity.
  - intros Hneg.
    assert (Hd0 : ~ Oled.slider_time c == 0) by (intros E; rewrite E in Hneg; lra).
    assert (Ht : ticks (Oled.slider_time c) = 0%nat) by (apply ticks_nonpos; lra).
    destruct (slider_rounds_spec c n w0) as [Hq Hc]. rewrite Ht in Hc.
    split; [|split].
    + unfold Oled.auto_slider. fold w0. apply auto_slider_rounds; try assumption.
      rewrite Ht. lia.
    + rewrite Hq. unfold w0. simpl. now rewrite <- app_assoc.
    + rewrite Hc. unfold w0. simpl. ring.
Qed.

Lemma degenerate_slider_periods_witness :
  Oled.slider_auto still_conf = true
  /\ Oled.slider_auto backwards_conf = true
  /\ Oled.slider_time still_conf == 0
  /\ Oled.slider_time backwards_conf < 0
  /\ Oled.display_queue (snd (Oled.auto_slider 50 still_conf (shared_at 0))) = [true]
  /\ Oled.display_queue
       (slider_rounds 3 backwards_conf
          (Oled.put true (Oled.set_next_time (0 + 10) (shared_at 0))))
     = [true; true; true; true].
Proof.
  assert (H1 : Oled.slider_auto still_conf = true) by reflexivity.
  assert (H2 : Oled.slider_auto backwards_conf = true) by reflexivity.
  assert (H3 : Oled.slider_time still_conf == 0) by reflexivity.
  assert (H4 : Oled.slider_time backwards_conf < 0) by reflexivity.
  repeat (split; [assumption|]).
  destruct (degenerate_slider_periods still_conf (shared_at 0) 0 50 H1) as [Hz _].
  destruct (degenerate_slider_periods backwards_conf (shared_at 0) 3 0 H2) as [_ Hn].
  destruct (Hz H3) as (Hrun & Hq & _). destruct (Hn H4) as (_ & Hq' & _).
  split; [rewrite Hrun; exact Hq|exact Hq'].
Defined.

(** X22. The two timers keep to their own deadline and their own kind of
    message: the refresh loop puts refresh messages only, at most one per
    turn, and never writes the advance deadline; the auto-slider never
    writes the refresh deadline. *)
Theorem timers_keep_apart (c : Oled.slider_conf) (w : Oled.shared) (fuel : nat) :
  (exists n,
     (n <= fuel)%nat
     /\ Oled.display_queue (snd (Oled.refresh_display fuel c w))
        = Oled.display_queue w ++ repeat false n
     /\ Oled.next_time (snd (Oled.refresh_display fuel c w)) = Oled.next_time w)
  /\ Oled.refresh_time (snd (Oled.auto_slider fuel c w)) = Oled.refresh_time w.
Proof.
  split; [apply refresh_display_puts|].
  unfold Oled.auto_slider. now rewrite auto_slider_loop_refresh_time.
Qed.

(** ** Page texts *)

(** X23. The disk usage page shows the first five entries of the list and
    the disk temperature page the first four; what follows them is left
    out, and both pages raise only on an empty list. *)
Theorem disk_pages_truncate (info : list (string * string)) :
  Oled.disk_info_text info = Oled.disk_info_text (firstn 5 info)
  /\ Oled.disk_temp_text info = Oled.disk_temp_text (firstn 4 info)
  /\ (info <> [] ->
      exists t1 t2 t3 u2 u3,
        Oled.disk_info_text info = Ok (Oled.three_lines t1 t2 t3)
        /\ Oled.disk_temp_text info = Ok (Oled.three_lines "Disk Temps:" u2 u3)).
Proof.
  split; [|split].
  - destruct info as [|e0 [|e1 [|e2 [|e3 [|e4 rest]]]]]; reflexivity.
  - destruct info as [|e0 [|e1 [|e2 [|e3 rest]]]]; reflexivity.
  - intros Hne. destruct info as [|e0 [|e1 [|e2 [|e3 [|e4 rest]]]]];
      [congruence|..]; simpl; eauto 10.
Qed.

Lemma disk_pages_truncate_witness :
  [("root", "41%"); ("sda1", "7%")]%string <> []
  /\ exists t1 t2 t3,
       Oled.disk_info_text [("root", "41%"); ("sda1", "7%")]%string
       = Ok (Oled.three_lines t1 t2 t3).
Proof.
  assert (H : [("root", "41%"); ("sda1", "7%")]%string <> []) by discriminate.
  split; [exact H|].
  destruct (disk_pages_truncate [("root", "41%"); ("sda1", "7%")]%string)
    as (_ & _ & Hok).
  destruct (Hok H) as (t1 & t2 & t3 & _ & _ & Hrun & _).
  exists t1, t2, t3. exact Hrun.
Defined.

(** ** The disk temperatures *)

Section DiskTemps.
Import Misc.

Lemma dict_set_keys k v d :
  map fst (dict_set k v d)
  = if existsb (String.eqb k) (map fst d) then map fst d else map fst d ++ [k].
Proof.
  induction d as [|[k' v'] d IH]; [reflexivity|]. simpl.
  destruct (String.eqb_spec k k') as [->|Hne]; simpl; [reflexivity|].
  rewrite IH. destruct (existsb (String.eqb k) (map fst d)); reflexivity.
Qed.

Lemma dict_set_length k v d :
  (1 <= List.length (dict_set k v d))%nat
  /\ (List.length d <= List.length (dict_set k v d) <= S (List.length d))%nat.
Proof.
  induction d as [|[k' v'] d IH]; simpl; [lia|].
  destruct (String.eqb k k'); simpl; lia.
Qed.

Lemma existsb_eqb_false k l : ~ In k l -> existsb (String.eqb k) l = false.
Proof.
  intros Hout. destruct (existsb (String.eqb k) l) eqn:E; [|reflexivity].
  apply existsb_exists in E as (x & Hin & Hx). apply String.eqb_eq in Hx.
  subst. contradiction.
Qed.

Variable farenheit : bool.
Variable fmt : bool -> Q -> string.

Lemma poll_disks_spec disks total d :
  let r := poll_disks farenheit fmt disks (total, d) in
  fst r == total + readable_sum farenheit disks
  /\ (List.length d <= List.length (snd r)
      <= List.length d + List.length disks)%nat
  /\ (disks <> [] -> 1 <= List.length (snd r))%nat
  /\ (List.NoDup (map fst d ++ map fst disks) ->
      map fst (snd r) = map fst d ++ map fst disks).
Proof.
  revert total d. induction disks as [|[disk output] rest IH]; intros total d.
  - simpl. rewrite app_nil_r. repeat split; try lia; [ring|congruence].
  - cbn [poll_disks readable_sum map fst].
    assert (Hstep : forall total' v,
              total' == total + (if String.eqb disk "" then 0
                                 else match output with
                                      | Some t => shown_temp farenheit t
                                      | None => 0
                                      end) ->
              let r := poll_disks farenheit fmt rest (total', dict_set disk v d) in
              fst r == total
                       + ((if String.eqb disk "" then 0
                           else match output with
                                | Some t => shown_temp farenheit t
                                | None => 0
                                end) + readable_sum farenheit rest)
              /\ (List.length d <= List.length (snd r)
                  <= List.length d + List.length ((disk, output) :: rest))%nat
              /\ ((disk, output) :: rest <> [] -> 1 <= List.length (snd r))%nat
              /\ (List.NoDup (map fst d ++ disk :: map fst rest) ->
                  map fst (snd r) = map fst d ++ disk :: map fst rest)).
    { intros total' v Ht r. unfold r.
      destruct (IH total' (dict_set disk v d)) as (Hsum & Hlen & _ & Hkeys).
      destruct (dict_set_length disk v d) as [Hone Hgrow].
      split; [rewrite Hsum, Ht; ring|]. split; [simpl; lia|]. split; [lia|].
      intros Hnd. rewrite dict_set_keys in Hkeys.
      rewrite existsb_eqb_false in Hkeys.
      - rewrite <- app_assoc in Hkeys. apply Hkeys. exact Hnd.
      - apply NoDup_remove_2 in Hnd. intros Hin. apply Hnd.
        apply in_or_app. now left. }
    destruct (String.eqb_spec disk "") as [->|Hne].
    + apply Hstep. ring.
    + destruct output as [t|]; apply Hstep; unfold shown_temp; ring.
Qed.

End DiskTemps.

(** X24. [get_disk_temp_info] divides the sum of the temperatures it could
    read by the number of entries of its dict, so a disk whose temperature
    cannot be read (and the empty line of a board without disks) counts as
    0 in the average; on a list that is not empty, which is what splitting
    the query's output always gives, it never divides by zero. *)
Theorem disk_temp_average_counts_all (farenheit : bool) (fmt : bool -> Q -> string)
    (disks : list (string * option Q)) :
  disks <> [] ->
  exists average disks_temp,
    Misc.get_disk_temp_info farenheit fmt disks = Ok (average, disks_temp)
    /\ (1 <= List.length disks_temp <= List.length disks)%nat
    /\ average * inject_Z (Z.of_nat (List.length disks_temp))
       == readable_sum farenheit disks
    /\ (List.NoDup (map fst disks) -> map fst disks_temp = map fst disks).
Proof.
  intros Hne. unfold Misc.get_disk_temp_info.
  pose proof (poll_disks_spec farenheit fmt disks 0 []) as Hspec.
  destruct (Misc.poll_disks farenheit fmt disks (0, [])) as [total d].
  simpl in Hspec. destruct Hspec as (Hsum & Hlen & Hone & Hkeys).
  specialize (Hone Hne).
  assert (Hnz : ~ inject_Z (Z.of_nat (List.length d)) == 0).
  { intros E. unfold Qeq in E. simpl in E. lia. }
  rewrite (py_div_ok _ _ Hnz). exists (total / inject_Z (Z.of_nat (List.length d))), d.
  split; [reflexivity|]. split; [lia|]. split; [|exact Hkeys].
  rewrite Hsum. field. exact Hnz.
Qed.

Lemma disk_temp_average_counts_all_witness :
  [("sda", Some 40); ("sdb", None)]%string <> []
  /\ exists average disks_temp,
       Misc.get_disk_temp_info false plain_fmt [("sda", Some 40); ("sdb", None)]%string
       = Ok (average, disks_temp)
       /\ average * inject_Z (Z.of_nat (List.length disks_temp)) == 40.
Proof.
  assert (H : [("sda", Some 40); ("sdb", None)]%string <> []) by discriminate.
  split; [exact H|].
  destruct (disk_temp_average_counts_all false plain_fmt
              [("sda", Some 40); ("sdb", None)]%string H)
    as (average & disks_temp & Hrun & _ & Havg & _).
  exists average, disks_temp. split; [exact Hrun|].
  rewrite Havg. reflexivity.
Defined.

(** ** Pages and banners *)

(** X25. The generated rotation always begins with the two system pages
    and the disk usage page, followed by one page per interface, per disk
    and (only with zfs configured) per pool, and by the disk temperature
    page when it is configured: it is never empty, and a pool gets no page
    without zfs. *)
Theorem rotation_list_shape (e : Oled.page_env) :
  firstn 3 (Oled.gen_display_pages_list e)
  = [Oled.General_system_info_page0; Oled.General_system_info_page1; Oled.Disk_info_page]
  /\ List.length (Oled.gen_display_pages_list e)
     = (3 + List.length (Oled.interfaces e) + List.length (Oled.disks e)
        + (if Oled.zfs e then List.length (Oled.zpools e) else 0)
        + (if Oled.disks_temp e then 1 else 0))%nat
  /\ (Oled.zfs e = false ->
      forall name, ~ In (Oled.DiskIOPage name true) (Oled.gen_display_pages_list e)).
Proof.
  unfold Oled.gen_display_pages_list. split; [reflexivity|]. split.
  - cbn [app List.length]. rewrite !length_app, !length_map.
    destruct (Oled.zfs e), (Oled.disks_temp e); simpl; lia.
  - intros Hzfs name Hin. rewrite Hzfs in Hin. cbn [app map] in Hin.
    rewrite app_nil_r in Hin.
    destruct Hin as [Hin|[Hin|[Hin|Hin]]]; try discriminate.
    apply in_app_iff in Hin as [Hin|Hin].
    { apply in_map_iff in Hin as (x & Hx & _). discriminate. }
    apply in_app_iff in Hin as [Hin|Hin].
    { apply in_map_iff in Hin as (x & Hx & _). discriminate. }
    destruct (Oled.disks_temp e); simpl in Hin; [|contradiction].
    destruct Hin as [Hin|[]]. discriminate.
Qed.

Lemma rotation_list_shape_witness :
  Oled.zfs nas_env = false
  /\ List.length (Oled.gen_display_pages_list nas_env) = 7%nat
  /\ ~ In (Oled.DiskIOPage "tank" true) (Oled.gen_display_pages_list nas_env).
Proof.
  destruct (rotation_list_shape nas_env) as (_ & Hlen & Hzfs).
  split; [reflexivity|]. split; [exact Hlen|]. exact (Hzfs eq_refl "tank"%string).
Defined.

(** X26. Whatever is on the off-screen image, [goodbye] ends with a blank
    frame on the panel; [welcome] and [goodbye] both leave the image clear,
    so that the frames the consumer pushes after the start-up banner hold
    page text only. *)
Theorem banners_leave_image_clear (c : Oled.slider_conf) (e : Oled.page_env)
    (get_page_text : Oled.page -> bool -> result (list Oled.item))
    (fuel : nat) (k : Oled.consumer) (w : Oled.shared) (p : Oled.panel) :
  List.last (Oled.frames (Oled.goodbye p)) (Oled.image p) = []
  /\ Oled.image (Oled.goodbye p) = []
  /\ Oled.image (Oled.welcome p) = []
  /\ ((List.length (Oled.display_queue w) <= fuel)%nat ->
      exists st new,
        Oled.display_process fuel c e get_page_text (k, w, Oled.welcome p) = (Ok tt, st)
        /\ Oled.frames (snd st) = Oled.frames (Oled.welcome p) ++ new
        /\ Forall (fun f => exists pg action, f = frame_of get_page_text pg action) new).
Proof.
  split; [|split; [reflexivity|split; [reflexivity|]]].
  - unfold Oled.goodbye, Oled.disp_show. simpl. now rewrite last_last.
  - intros Hfuel.
    destruct (display_process_drains c e get_page_text fuel k w (Oled.welcome p)
                eq_refl Hfuel) as (k' & w' & p' & new & Hrun & _ & _ & Hf & _ & Hall).
    exists (k', w', p'), new. auto.
Qed.

Lemma banners_leave_image_clear_witness :
  (List.length (Oled.display_queue (Oled.put true (shared_at 0))) <= 1)%nat
  /\ exists st,
       Oled.display_process 1 Oled.default_slider_conf bare_env text_ok
         (Oled.consumer_init, Oled.put true (shared_at 0), Oled.welcome Oled.blank)
       = (Ok tt, st).
Proof.
  assert (H : (List.length (Oled.display_queue (Oled.put true (shared_at 0))) <= 1)%nat)
    by (simpl; lia).
  split; [exact H|].
  destruct (banners_leave_image_clear Oled.default_slider_conf bare_env text_ok 1
              Oled.consumer_init (Oled.put true (shared_at 0)) Oled.blank)
    as (_ & _ & _ & Hrun).
  destruct (Hrun H) as (st & new & Hst & _). exists st. exact Hst.
Defined.
